(** * QuickDesk help desk: ticket lifecycle, vote ledger and listing queries

    A shallow embedding of [Server/models.py], [Server/services.py] and the
    ticket, category and attachment endpoints of [Server/api.py].

    - Tables of the SQLAlchemy session are lists of rows in insertion order;
      [query.filter_by(...).first()] is [find], [session.add] appends a row
      with a fresh primary key, an ORM attribute write followed by [commit]
      is a column-wise [UPDATE ... WHERE id = ?], [session.delete] is a
      [DELETE ... WHERE id = ?].
    - Python integers are [Z], [Optional[int]] is [option Z]; Python
      truthiness ([if user_id:], [if search:]) is written out
      ([truthy_int], [truthy_str]). The store and its driver know 64-bit
      integers only ([int64]): the services are modelled on integers the
      driver binds.
    - Strings are [string]: the UTF-8 bytes of the Python strings.
    - Attributes the mapped classes inherit from the declarative base and
      from [object] are not in the repository; the world carries what an
      ORDER BY makes of them ([inherited]).
    - [datetime.utcnow()] reads a clock oracle carried by the world; every
      call is one read, so two calls in one operation may differ.
    - Service methods are state transformers [World -> result * World];
      a Python exception escaping a service is the [Raise] result. *)

From Stdlib Require Import ZArith List String Ascii Bool Lia Permutation Sorted.
Import ListNotations.
Local Open Scope string_scope.
Local Open Scope list_scope.
Local Open Scope Z_scope.

(** ** Python values used by the services *)

Definition truthy_int (n : option Z) : bool :=
  match n with
  | None => false
  | Some z => negb (z =? 0)
  end.

Definition truthy_str (s : string) : bool :=
  match s with
  | EmptyString => false
  | String _ _ => true
  end.

Definition opt_Z_eqb (a b : option Z) : bool :=
  match a, b with
  | None, None => true
  | Some x, Some y => x =? y
  | _, _ => false
  end.

(** A Python int is unbounded, the integers of the store are 64-bit: the
    driver binds an id, a limit or an offset to a statement only within
    this range and raises [OverflowError] otherwise, which the API answers
    with 500. The services are modelled on integers the driver binds; a
    statement about an integer that need not come from the store says so. *)
Definition int64 (z : Z) : bool := (- 2 ^ 63 <=? z) && (z <? 2 ^ 63).

(** ** models.py: enumerations *)

Inductive UserRole := END_USER | SUPPORT_AGENT | ADMIN.
Inductive TicketStatus := OPEN | IN_PROGRESS | RESOLVED | CLOSED.
Inductive TicketPriority := LOW | MEDIUM | HIGH | URGENT.

Definition UserRole_eqb (a b : UserRole) : bool :=
  match a, b with
  | END_USER, END_USER | SUPPORT_AGENT, SUPPORT_AGENT | ADMIN, ADMIN => true
  | _, _ => false
  end.

Definition TicketStatus_eqb (a b : TicketStatus) : bool :=
  match a, b with
  | OPEN, OPEN | IN_PROGRESS, IN_PROGRESS
  | RESOLVED, RESOLVED | CLOSED, CLOSED => true
  | _, _ => false
  end.

(** [.value] of the enumeration members. *)
Definition UserRole_value (r : UserRole) : string :=
  match r with
  | END_USER => "end_user"
  | SUPPORT_AGENT => "support_agent"
  | ADMIN => "admin"
  end.

Definition TicketStatus_value (s : TicketStatus) : string :=
  match s with
  | OPEN => "open"
  | IN_PROGRESS => "in_progress"
  | RESOLVED => "resolved"
  | CLOSED => "closed"
  end.

Definition TicketPriority_value (p : TicketPriority) : string :=
  match p with
  | LOW => "low"
  | MEDIUM => "medium"
  | HIGH => "high"
  | URGENT => "urgent"
  end.

(** [.name] of the members: what [SQLEnum] stores in the column. *)
Definition TicketStatus_name (s : TicketStatus) : string :=
  match s with
  | OPEN => "OPEN"
  | IN_PROGRESS => "IN_PROGRESS"
  | RESOLVED => "RESOLVED"
  | CLOSED => "CLOSED"
  end.

Definition TicketPriority_name (p : TicketPriority) : string :=
  match p with
  | LOW => "LOW"
  | MEDIUM => "MEDIUM"
  | HIGH => "HIGH"
  | URGENT => "URGENT"
  end.

(** [TicketStatus(s)] and [TicketPriority(s)]: lookup by value, [None] where
    Python raises [ValueError]. *)
Definition TicketStatus_of_value (s : string) : option TicketStatus :=
  if String.eqb s "open" then Some OPEN
  else if String.eqb s "in_progress" then Some IN_PROGRESS
  else if String.eqb s "resolved" then Some RESOLVED
  else if String.eqb s "closed" then Some CLOSED
  else None.

Definition TicketPriority_of_value (s : string) : option TicketPriority :=
  if String.eqb s "low" then Some LOW
  else if String.eqb s "medium" then Some MEDIUM
  else if String.eqb s "high" then Some HIGH
  else if String.eqb s "urgent" then Some URGENT
  else None.

(** Timestamps ([datetime]) are abstract instants. *)
Definition datetime := Z.

(** ** models.py: rows *)

Module User.
Record t := mk {
    id : Z;
    username : string;
    email : string;
    full_name : string;
    role : UserRole;
    is_active : bool;
    created_at : option datetime
  }.
End User.

Module Category.
Record t := mk {
    id : Z;
    name : string;
    description : string;
    color : string;
    is_active : bool
  }.
End Category.

Module Ticket.
Record t := mk {
    id : Z;
    subject : string;
    description : string;
    status : TicketStatus;
    priority : TicketPriority;
    created_by_id : Z;
    assigned_to_id : option Z;
    category_id : Z;
    created_at : option datetime;
    updated_at : option datetime;
    resolved_at : option datetime;
    closed_at : option datetime;
    upvotes : Z;
    downvotes : Z
  }.

  (** The [vote_score] property. *)
Definition vote_score (self : t) : Z := upvotes self - downvotes self.

Definition set_status (v : TicketStatus) (r : t) : t :=
    mk (id r) (subject r) (description r) v (priority r) (created_by_id r)
       (assigned_to_id r) (category_id r) (created_at r) (updated_at r)
       (resolved_at r) (closed_at r) (upvotes r) (downvotes r).
Definition set_assigned_to_id (v : option Z) (r : t) : t :=
    mk (id r) (subject r) (description r) (status r) (priority r)
       (created_by_id r) v (category_id r) (created_at r) (updated_at r)
       (resolved_at r) (closed_at r) (upvotes r) (downvotes r).
Definition set_updated_at (v : option datetime) (r : t) : t :=
    mk (id r) (subject r) (description r) (status r) (priority r)
       (created_by_id r) (assigned_to_id r) (category_id r) (created_at r) v
       (resolved_at r) (closed_at r) (upvotes r) (downvotes r).
Definition set_resolved_at (v : option datetime) (r : t) : t :=
    mk (id r) (subject r) (description r) (status r) (priority r)
       (created_by_id r) (assigned_to_id r) (category_id r) (created_at r)
       (updated_at r) v (closed_at r) (upvotes r) (downvotes r).
Definition set_closed_at (v : option datetime) (r : t) : t :=
    mk (id r) (subject r) (description r) (status r) (priority r)
       (created_by_id r) (assigned_to_id r) (category_id r) (created_at r)
       (updated_at r) (resolved_at r) v (upvotes r) (downvotes r).
Definition set_upvotes (v : Z) (r : t) : t :=
    mk (id r) (subject r) (description r) (status r) (priority r)
       (created_by_id r) (assigned_to_id r) (category_id r) (created_at r)
       (updated_at r) (resolved_at r) (closed_at r) v (downvotes r).
Definition set_downvotes (v : Z) (r : t) : t :=
    mk (id r) (subject r) (description r) (status r) (priority r)
       (created_by_id r) (assigned_to_id r) (category_id r) (created_at r)
       (updated_at r) (resolved_at r) (closed_at r) (upvotes r) v.
End Ticket.

Module TicketComment.
Record t := mk {
  id : Z;
  content : string;
  is_internal : bool;
  ticket_id : Z;
  author_id : Z;
  created_at : option datetime;
  updated_at : option datetime
}.
End TicketComment.

Module TicketAttachment.
Record t := mk {
  id : Z;
  filename : string;
  original_filename : string;
  file_size : Z;
  mime_type : string;
  file_path : string;
  ticket_id : Z;
  uploaded_by_id : Z;
  created_at : option datetime
}.
End TicketAttachment.

Module TicketVote.
Record t := mk {
  id : Z;
  is_upvote : bool;
  ticket_id : Z;
  user_id : Z;
  created_at : option datetime;
  updated_at : option datetime
}.

Definition set_is_upvote (v : bool) (r : t) : t :=
  mk (id r) v (ticket_id r) (user_id r) (created_at r) (updated_at r).
Definition set_updated_at (v : option datetime) (r : t) : t :=
  mk (id r) (is_upvote r) (ticket_id r) (user_id r) (created_at r) v.
End TicketVote.

Module Notification.
Record t := mk {
  id : Z;
  title : string;
  message : string;
  notification_type : string;
  is_read : bool;
  is_email_sent : bool;
  user_id : Z;
  ticket_id : option Z;
  created_at : option datetime
}.

Definition set_is_email_sent (v : bool) (r : t) : t :=
  mk (id r) (title r) (message r) (notification_type r) (is_read r) v
     (user_id r) (ticket_id r) (created_at r).
End Notification.

(** ** The session: tables, clock and outgoing mail *)

(** What ORDER BY makes of an attribute that the [Ticket] class does not
    declare itself but inherits from the declarative base, from [object] or
    from its metaclass. These attributes are not part of the repository;
    the world carries them by name. *)
Inductive Inherited :=
| NoAttribute   (* [hasattr] is false *)
| ConstantKey   (* taken as a constant key, as [None] is *)
| NotAKey.      (* refused: running the query raises *)

Record World := mkWorld {
  users : list User.t;
  categories : list Category.t;
  tickets : list Ticket.t;
  ticket_comments : list TicketComment.t;
  ticket_attachments : list TicketAttachment.t;
  ticket_votes : list TicketVote.t;
  notifications : list Notification.t;
  (* (to_email, subject, message) of each [send_notification_email] call *)
  outbox : list (string * string * string);
  clock : nat -> datetime;
  ticks : nat;
  inherited : string -> Inherited
}.

Definition set_tickets (v : list Ticket.t) (w : World) : World :=
  mkWorld (users w) (categories w) v (ticket_comments w)
          (ticket_attachments w) (ticket_votes w) (notifications w)
          (outbox w) (clock w) (ticks w) (inherited w).
Definition set_ticket_comments (v : list TicketComment.t) (w : World) : World :=
  mkWorld (users w) (categories w) (tickets w) v
          (ticket_attachments w) (ticket_votes w) (notifications w)
          (outbox w) (clock w) (ticks w) (inherited w).
Definition set_ticket_votes (v : list TicketVote.t) (w : World) : World :=
  mkWorld (users w) (categories w) (tickets w) (ticket_comments w)
          (ticket_attachments w) v (notifications w)
          (outbox w) (clock w) (ticks w) (inherited w).
Definition set_notifications (v : list Notification.t) (w : World) : World :=
  mkWorld (users w) (categories w) (tickets w) (ticket_comments w)
          (ticket_attachments w) (ticket_votes w) v
          (outbox w) (clock w) (ticks w) (inherited w).
Definition set_outbox (v : list (string * string * string)) (w : World) : World :=
  mkWorld (users w) (categories w) (tickets w) (ticket_comments w)
          (ticket_attachments w) (ticket_votes w) (notifications w)
          v (clock w) (ticks w) (inherited w).
Definition set_ticks (v : nat) (w : World) : World :=
  mkWorld (users w) (categories w) (tickets w) (ticket_comments w)
          (ticket_attachments w) (ticket_votes w) (notifications w)
          (outbox w) (clock w) v (inherited w).

(** State transformers over the world, and the result of a call that may
    raise. *)
Definition M (A : Type) : Type := World -> A * World.

Definition ret {A} (a : A) : M A := fun w => (a, w).
Definition bind {A B} (c : M A) (k : A -> M B) : M B :=
  fun w => let (a, w') := c w in k a w'.

Notation "x <- c ;; k" := (bind c (fun x => k))
  (at level 61, c at next level, right associativity).
Notation "c ;;; k" := (bind c (fun _ => k))
  (at level 61, right associativity).

Definition get {A} (f : World -> A) : M A := fun w => (f w, w).
Definition modify (f : World -> World) : M unit := fun w => (tt, f w).

Inductive Exc (A : Type) : Type :=
| Ok (a : A)
| Raise (e : string).
Arguments Ok {A} a.
Arguments Raise {A} e.

(** [datetime.utcnow()]. *)
Definition utcnow : M datetime :=
  fun w => (clock w (ticks w), set_ticks (S (ticks w)) w).

(** Primary keys are assigned by the engine: one more than the largest key
    of the table (the rowid rule of the default SQLite engine). *)
Definition next_id (ids : list Z) : Z := 1 + fold_right Z.max 0 ids.

(** [UPDATE table SET ... WHERE id = key]: [f] writes the changed columns. *)
Definition update_where {R} (id : R -> Z) (key : Z) (f : R -> R)
  (rows : list R) : list R :=
  map (fun r => if id r =? key then f r else r) rows.

(** [DELETE FROM table WHERE id = key]. *)
Definition delete_where {R} (id : R -> Z) (key : Z) (rows : list R) : list R :=
  filter (fun r => negb (id r =? key)) rows.

(** ** models.py: relationships and [to_dict] payloads

    A relationship attribute is a query on the session, so the payload
    builders read the world. [isoformat()] is left abstract: a payload
    carries the instant itself. *)

Record UserDict := mkUserDict {
  ud_id : Z;
  ud_username : string;
  ud_email : string;
  ud_full_name : string;
  ud_role : string;
  ud_is_active : bool;
  ud_created_at : option datetime
}.

Record CategoryDict := mkCategoryDict {
  cd_id : Z;
  cd_name : string;
  cd_description : string;
  cd_color : string;
  cd_is_active : bool
}.

Record CommentDict := mkCommentDict {
  cm_id : Z;
  cm_content : string;
  cm_is_internal : bool;
  cm_ticket_id : Z;
  cm_author_id : Z;
  cm_author_name : option string;
  cm_author_role : option string;
  cm_created_at : option datetime;
  cm_updated_at : option datetime
}.

Record AttachmentDict := mkAttachmentDict {
  at_id : Z;
  at_filename : string;
  at_original_filename : string;
  at_file_size : Z;
  at_mime_type : string;
  at_ticket_id : Z;
  at_uploaded_by : option string;
  at_created_at : option datetime
}.

(** The second half of [Ticket.to_dict]: nested objects when
    [include_relations], denormalised names otherwise. *)
Inductive TicketRelations :=
| Relations (creator assignee : option UserDict)
            (category : option CategoryDict)
            (comments : list CommentDict)
            (attachments : list AttachmentDict)
| Summary (created_by_id : Z) (assigned_to_id : option Z) (category_id : Z)
          (creator_name assignee_name category_name : option string).

Record TicketDict := mkTicketDict {
  td_id : Z;
  td_subject : string;
  td_description : string;
  td_status : string;
  td_priority : string;
  td_created_at : option datetime;
  td_updated_at : option datetime;
  td_resolved_at : option datetime;
  td_closed_at : option datetime;
  td_upvotes : Z;
  td_downvotes : Z;
  td_vote_score : Z;
  td_comment_count : Z;
  td_relations : TicketRelations
}.

Definition user_by_id (w : World) (uid : Z) : option User.t :=
  find (fun u => User.id u =? uid) (users w).

Definition Ticket_creator (w : World) (self : Ticket.t) : option User.t :=
  user_by_id w (Ticket.created_by_id self).

Definition Ticket_assignee (w : World) (self : Ticket.t) : option User.t :=
  match Ticket.assigned_to_id self with
  | None => None
  | Some a => user_by_id w a
  end.

Definition Ticket_category (w : World) (self : Ticket.t) : option Category.t :=
  find (fun c => Category.id c =? Ticket.category_id self) (categories w).

Definition Ticket_comments (w : World) (self : Ticket.t) : list TicketComment.t :=
  filter (fun c => TicketComment.ticket_id c =? Ticket.id self)
         (ticket_comments w).

Definition Ticket_attachments (w : World) (self : Ticket.t)
  : list TicketAttachment.t :=
  filter (fun a => TicketAttachment.ticket_id a =? Ticket.id self)
         (ticket_attachments w).

(** The [comment_count] property. *)
Definition Ticket_comment_count (w : World) (self : Ticket.t) : Z :=
  Z.of_nat (List.length (Ticket_comments w self)).

Definition User_to_dict (self : User.t) : UserDict :=
  mkUserDict (User.id self) (User.username self) (User.email self)
             (User.full_name self) (UserRole_value (User.role self))
             (User.is_active self) (User.created_at self).

Definition Category_to_dict (self : Category.t) : CategoryDict :=
  mkCategoryDict (Category.id self) (Category.name self)
                 (Category.description self) (Category.color self)
                 (Category.is_active self).

Definition TicketComment_to_dict (w : World) (self : TicketComment.t)
  : CommentDict :=
  let author := user_by_id w (TicketComment.author_id self) in
  mkCommentDict (TicketComment.id self) (TicketComment.content self)
                (TicketComment.is_internal self)
                (TicketComment.ticket_id self) (TicketComment.author_id self)
                (option_map User.full_name author)
                (option_map (fun u => UserRole_value (User.role u)) author)
                (TicketComment.created_at self)
                (TicketComment.updated_at self).

Definition TicketAttachment_to_dict (w : World) (self : TicketAttachment.t)
  : AttachmentDict :=
  let uploader := user_by_id w (TicketAttachment.uploaded_by_id self) in
  mkAttachmentDict (TicketAttachment.id self) (TicketAttachment.filename self)
                   (TicketAttachment.original_filename self)
                   (TicketAttachment.file_size self)
                   (TicketAttachment.mime_type self)
                   (TicketAttachment.ticket_id self)
                   (option_map User.full_name uploader)
                   (TicketAttachment.created_at self).

Definition Ticket_to_dict (w : World) (include_relations : bool)
  (self : Ticket.t) : TicketDict :=
  mkTicketDict
    (Ticket.id self) (Ticket.subject self) (Ticket.description self)
    (TicketStatus_value (Ticket.status self))
    (TicketPriority_value (Ticket.priority self))
    (Ticket.created_at self) (Ticket.updated_at self)
    (Ticket.resolved_at self) (Ticket.closed_at self)
    (Ticket.upvotes self) (Ticket.downvotes self) (Ticket.vote_score self)
    (Ticket_comment_count w self)
    (if include_relations then
       Relations (option_map User_to_dict (Ticket_creator w self))
                 (option_map User_to_dict (Ticket_assignee w self))
                 (option_map Category_to_dict (Ticket_category w self))
                 (map (TicketComment_to_dict w) (Ticket_comments w self))
                 (map (TicketAttachment_to_dict w) (Ticket_attachments w self))
     else
       Summary (Ticket.created_by_id self) (Ticket.assigned_to_id self)
               (Ticket.category_id self)
               (option_map User.full_name (Ticket_creator w self))
               (option_map User.full_name (Ticket_assignee w self))
               (option_map Category.name (Ticket_category w self))).

(** ** services.py: EmailService and NotificationService *)

Infix "+++" := String.append (at level 60, right associativity).

(** [send_notification_email]: printed or handed to SMTP, never raising;
    the call is recorded in the outbox. *)
Definition send_notification_email (to_email subject message : string)
  : M unit :=
  modify (fun w => set_outbox (outbox w ++ [(to_email, subject, message)]) w).

Definition create_notification (user_id : Z) (title message : string)
  (notification_type : string) (ticket_id : option Z) : M Notification.t :=
  now <- utcnow ;;
  nid <- get (fun w => next_id (map Notification.id (notifications w))) ;;
  let notification :=
    Notification.mk nid title message notification_type false false
                    user_id ticket_id (Some now) in
  modify (fun w => set_notifications (notifications w ++ [notification]) w) ;;;
  user <- get (fun w => user_by_id w user_id) ;;
  match user with
  | Some u =>
      send_notification_email (User.email u) title message ;;;
      modify (fun w =>
        set_notifications
          (update_where Notification.id nid
             (Notification.set_is_email_sent true) (notifications w)) w) ;;;
      ret (Notification.set_is_email_sent true notification)
  | None => ret notification
  end.

(** The users a new ticket is announced to. *)
Definition users_to_notify (w : World) : list User.t :=
  filter (fun u =>
            (UserRole_eqb (User.role u) ADMIN
             || UserRole_eqb (User.role u) SUPPORT_AGENT)
            && User.is_active u)
         (users w).

(** The loop of [create_ticket_notification]. Building the message reads
    [ticket.creator.full_name] and [ticket.category.name]: an absent creator
    or category raises [AttributeError] at the first iteration. *)
Fixpoint notify_ticket_created (ticket : Ticket.t) (us : list User.t)
  : M (Exc unit) :=
  match us with
  | [] => ret (Ok tt)
  | user :: rest =>
      creator <- get (fun w => Ticket_creator w ticket) ;;
      category <- get (fun w => Ticket_category w ticket) ;;
      match creator, category with
      | Some cr, Some cat =>
          create_notification
            (User.id user)
            ("New Ticket Created: " +++ Ticket.subject ticket)
            ("A new ticket has been created by " +++ User.full_name cr
               +++ ". Category: " +++ Category.name cat)
            "ticket_created"
            (Some (Ticket.id ticket)) ;;;
          notify_ticket_created ticket rest
      | _, _ => ret (Raise "AttributeError")
      end
  end.

Definition create_ticket_notification (ticket : Ticket.t) : M (Exc unit) :=
  us <- get users_to_notify ;;
  notify_ticket_created ticket us.

Definition create_status_change_notification (ticket : Ticket.t)
  (old_status new_status : TicketStatus) : M Notification.t :=
  create_notification
    (Ticket.created_by_id ticket)
    ("Ticket Status Updated: " +++ Ticket.subject ticket)
    ("Your ticket status has been changed from "
       +++ TicketStatus_value old_status +++ " to "
       +++ TicketStatus_value new_status)
    "status_changed"
    (Some (Ticket.id ticket)).

(** [comment.author.full_name] raises when the author row is absent. *)
Definition create_comment_notification (ticket : Ticket.t)
  (comment : TicketComment.t) : M (Exc unit) :=
  if negb (TicketComment.is_internal comment) then
    if negb (TicketComment.author_id comment =? Ticket.created_by_id ticket)
    then
      author <- get (fun w => user_by_id w (TicketComment.author_id comment)) ;;
      match author with
      | Some a =>
          create_notification
            (Ticket.created_by_id ticket)
            ("New Comment on Ticket: " +++ Ticket.subject ticket)
            (User.full_name a +++ " has added a comment to your ticket")
            "comment_added"
            (Some (Ticket.id ticket)) ;;;
          ret (Ok tt)
      | None => ret (Raise "AttributeError")
      end
    else ret (Ok tt)
  else ret (Ok tt).

(** ** services.py: TicketService, the mutating operations *)

(** [query(Ticket).filter_by(id=ticket_id).first()], for an id the driver
    binds: outside the 64-bit range the driver raises [OverflowError]
    before the statement runs. *)
Definition find_ticket (ticket_id : Z) (w : World) : option Ticket.t :=
  find (fun t => Ticket.id t =? ticket_id) (tickets w).

Definition find_vote (ticket_id user_id : Z) (w : World) : option TicketVote.t :=
  find (fun v => (TicketVote.ticket_id v =? ticket_id)
                 && (TicketVote.user_id v =? user_id))
       (ticket_votes w).

Definition update_ticket (key : Z) (f : Ticket.t -> Ticket.t) : M unit :=
  modify (fun w => set_tickets (update_where Ticket.id key f (tickets w)) w).

Definition create_ticket (subject description : string) (category_id : Z)
  (created_by_id : Z) (priority : TicketPriority) : M (Exc Ticket.t) :=
  created <- utcnow ;;
  updated <- utcnow ;;
  tid <- get (fun w => next_id (map Ticket.id (tickets w))) ;;
  let ticket :=
    Ticket.mk tid subject description OPEN priority created_by_id None
              category_id (Some created) (Some updated) None None 0 0 in
  modify (fun w => set_tickets (tickets w ++ [ticket]) w) ;;;
  sent <- create_ticket_notification ticket ;;
  match sent with
  | Ok _ => ret (Ok ticket)
  | Raise e => ret (Raise e)
  end.

(** The timestamp written for the status being entered. *)
Definition stamp_status (status : TicketStatus) (now : datetime)
  (r : Ticket.t) : Ticket.t :=
  match status with
  | RESOLVED => Ticket.set_resolved_at (Some now) r
  | CLOSED => Ticket.set_closed_at (Some now) r
  | _ => r
  end.

Definition update_ticket_status (ticket_id : Z) (status : TicketStatus)
  (updated_by_id : Z) : M (option Ticket.t) :=
  found <- get (find_ticket ticket_id) ;;
  match found with
  | None => ret None
  | Some ticket =>
      let old_status := Ticket.status ticket in
      now <- utcnow ;;
      write <-
        match status with
        | RESOLVED | CLOSED =>
            stamp <- utcnow ;;
            ret (fun r => stamp_status status stamp
                            (Ticket.set_updated_at (Some now)
                               (Ticket.set_status status r)))
        | _ =>
            ret (fun r => Ticket.set_updated_at (Some now)
                            (Ticket.set_status status r))
        end ;;
      update_ticket (Ticket.id ticket) write ;;;
      let ticket' := write ticket in
      (if negb (TicketStatus_eqb old_status status) then
         create_status_change_notification ticket' old_status status ;;;
         ret tt
       else ret tt) ;;;
      ret (Some ticket')
  end.

(** [assign_ticket], for an assignee the driver binds at the commit (null
    or a 64-bit integer). *)
Definition assign_ticket (ticket_id : Z) (assigned_to_id : option Z)
  : M (option Ticket.t) :=
  found <- get (find_ticket ticket_id) ;;
  match found with
  | None => ret None
  | Some ticket =>
      now <- utcnow ;;
      let write := fun r =>
        let r' := Ticket.set_updated_at (Some now)
                    (Ticket.set_assigned_to_id assigned_to_id r) in
        if TicketStatus_eqb (Ticket.status ticket) OPEN
           && truthy_int assigned_to_id
        then Ticket.set_status IN_PROGRESS r'
        else r' in
      update_ticket (Ticket.id ticket) write ;;;
      ret (Some (write ticket))
  end.

Definition add_comment (ticket_id : Z) (content : string) (author_id : Z)
  (is_internal : bool) : M (Exc (option TicketComment.t)) :=
  found <- get (find_ticket ticket_id) ;;
  match found with
  | None => ret (Ok None)
  | Some ticket =>
      now <- utcnow ;;
      created <- utcnow ;;
      updated <- utcnow ;;
      cid <- get (fun w => next_id (map TicketComment.id (ticket_comments w))) ;;
      let comment :=
        TicketComment.mk cid content is_internal ticket_id author_id
                         (Some created) (Some updated) in
      modify (fun w => set_ticket_comments (ticket_comments w ++ [comment]) w) ;;;
      update_ticket (Ticket.id ticket) (Ticket.set_updated_at (Some now)) ;;;
      sent <- create_comment_notification
                (Ticket.set_updated_at (Some now) ticket) comment ;;
      match sent with
      | Ok _ => ret (Ok (Some comment))
      | Raise e => ret (Raise e)
      end
  end.

(** ** services.py: the vote ledger *)

Record VoteResult := mkVoteResult {
  action : string;
  vote_type : string;
  vr_upvotes : Z;
  vr_downvotes : Z;
  vr_vote_score : Z
}.

(** The counters of the ticket object after each branch. *)
Definition removed_counters (is_upvote : bool) (ticket : Ticket.t) : Ticket.t :=
  if is_upvote
  then Ticket.set_upvotes (Z.max 0 (Ticket.upvotes ticket - 1)) ticket
  else Ticket.set_downvotes (Z.max 0 (Ticket.downvotes ticket - 1)) ticket.

Definition changed_counters (is_upvote : bool) (ticket : Ticket.t) : Ticket.t :=
  if is_upvote
  then Ticket.set_downvotes (Z.max 0 (Ticket.downvotes ticket - 1))
         (Ticket.set_upvotes (Ticket.upvotes ticket + 1) ticket)
  else Ticket.set_upvotes (Z.max 0 (Ticket.upvotes ticket - 1))
         (Ticket.set_downvotes (Ticket.downvotes ticket + 1) ticket).

Definition added_counters (is_upvote : bool) (ticket : Ticket.t) : Ticket.t :=
  if is_upvote
  then Ticket.set_upvotes (Ticket.upvotes ticket + 1) ticket
  else Ticket.set_downvotes (Ticket.downvotes ticket + 1) ticket.

(** [commit] of the counter writes. [Ticket.updated_at] is declared with
    [onupdate=datetime.utcnow], so the UPDATE also refreshes it; no
    statement is issued when neither counter changed. *)
Definition commit_counters (ticket ticket' : Ticket.t) : M unit :=
  if (Ticket.upvotes ticket' =? Ticket.upvotes ticket)
     && (Ticket.downvotes ticket' =? Ticket.downvotes ticket)
  then ret tt
  else
    now <- utcnow ;;
    update_ticket (Ticket.id ticket)
      (fun r => Ticket.set_updated_at (Some now)
                  (Ticket.set_downvotes (Ticket.downvotes ticket')
                     (Ticket.set_upvotes (Ticket.upvotes ticket') r))).

Definition vote_ticket (ticket_id user_id : Z) (is_upvote : bool)
  : M (option VoteResult) :=
  found <- get (find_ticket ticket_id) ;;
  match found with
  | None => ret None
  | Some ticket =>
      existing_vote <- get (find_vote ticket_id user_id) ;;
      outcome <-
        match existing_vote with
        | Some existing =>
            if Bool.eqb (TicketVote.is_upvote existing) is_upvote then
              (* Same vote - remove it *)
              let ticket' := removed_counters is_upvote ticket in
              commit_counters ticket ticket' ;;;
              modify (fun w =>
                set_ticket_votes
                  (delete_where TicketVote.id (TicketVote.id existing)
                     (ticket_votes w)) w) ;;;
              ret ("removed", ticket')
            else
              (* Different vote - change it *)
              now <- utcnow ;;
              let ticket' := changed_counters is_upvote ticket in
              commit_counters ticket ticket' ;;;
              modify (fun w =>
                set_ticket_votes
                  (update_where TicketVote.id (TicketVote.id existing)
                     (fun r => TicketVote.set_updated_at (Some now)
                                 (TicketVote.set_is_upvote is_upvote r))
                     (ticket_votes w)) w) ;;;
              ret ("changed", ticket')
        | None =>
            (* New vote *)
            let ticket' := added_counters is_upvote ticket in
            commit_counters ticket ticket' ;;;
            created <- utcnow ;;
            updated <- utcnow ;;
            vid <- get (fun w => next_id (map TicketVote.id (ticket_votes w))) ;;
            let vote :=
              TicketVote.mk vid is_upvote ticket_id user_id
                            (Some created) (Some updated) in
            modify (fun w => set_ticket_votes (ticket_votes w ++ [vote]) w) ;;;
            ret ("added", ticket')
        end ;;
      let ticket' := snd outcome in
      ret (Some (mkVoteResult
                   (fst outcome)
                   (if is_upvote then "upvote" else "downvote")
                   (Ticket.upvotes ticket')
                   (Ticket.downvotes ticket')
                   (Ticket.vote_score ticket')))
  end.

(** ** The query engine: LIKE, ORDER BY, OFFSET and LIMIT *)

Definition lower (c : ascii) : ascii :=
  let n := nat_of_ascii c in
  if ((65 <=? n) && (n <=? 90))%nat then ascii_of_nat (n + 32) else c.

(** Strings are the UTF-8 bytes of the Python strings. A byte that
    continues a character of several bytes, and one that starts it. *)
Definition is_continuation (c : ascii) : bool :=
  ((128 <=? nat_of_ascii c) && (nat_of_ascii c <? 192))%nat.

Definition is_lead (c : ascii) : bool := (192 <=? nat_of_ascii c)%nat.

(** Having read the byte [c]: does the text read so far end inside a
    character of several bytes? *)
Definition inside_after (inside : bool) (c : ascii) : bool :=
  is_lead c || (inside && is_continuation c).

Fixpoint skip_continuation (text : string) : string :=
  match text with
  | EmptyString => text
  | String c text' =>
      if is_continuation c then skip_continuation text' else text
  end.

(** [text LIKE pattern], case-insensitive on ASCII letters: [%] matches any
    run of characters and [_] one character, that is a lead byte with its
    continuation bytes (or any other single byte). [inside] says that the
    text before ends inside a character, where no [_] can start. *)
Fixpoint like_from (pattern : string) : bool -> string -> bool :=
  match pattern with
  | EmptyString =>
      fun _ text => match text with EmptyString => true | _ => false end
  | String p rest =>
      if Ascii.eqb p "%" then
        fix any (inside : bool) (text : string) {struct text} : bool :=
          like_from rest inside text
          || match text with
             | EmptyString => false
             | String c text' => any (inside_after inside c) text'
             end
      else if Ascii.eqb p "_" then
        fun inside text =>
          match text with
          | EmptyString => false
          | String c text' =>
              if inside && is_continuation c then false
              else like_from rest false
                     (if is_lead c then skip_continuation text' else text')
          end
      else
        fun inside text =>
          match text with
          | EmptyString => false
          | String c text' =>
              Ascii.eqb (lower p) (lower c)
              && like_from rest (inside_after inside c) text'
          end
  end.

Definition like (pattern text : string) : bool := like_from pattern false text.

(** [column.ilike(f"%{search}%")]. *)
Definition ilike_contains (column search : string) : bool :=
  like ("%" +++ search +++ "%") column.

(** A value an ORDER BY compares; NULL sorts below every integer and every
    integer below every text, as the default SQLite engine orders them. *)
Inductive SqlValue :=
| SqlNull
| SqlInt (z : Z)
| SqlText (s : string).

Definition sql_leb (a b : SqlValue) : bool :=
  match a, b with
  | SqlNull, _ => true
  | SqlInt _, SqlNull => false
  | SqlInt x, SqlInt y => x <=? y
  | SqlInt _, SqlText _ => true
  | SqlText _, (SqlNull | SqlInt _) => false
  | SqlText s, SqlText t => String.leb s t
  end.

Definition sql_opt (v : option Z) : SqlValue :=
  match v with
  | None => SqlNull
  | Some z => SqlInt z
  end.

Section OrderBy.
Context {R : Type} (key : R -> SqlValue) (descending : bool).

(** [x] may stand before [y]. *)
Definition before (x y : R) : bool :=
  if descending then sql_leb (key y) (key x) else sql_leb (key x) (key y).

Fixpoint insert_row (x : R) (rows : list R) : list R :=
  match rows with
  | [] => [x]
  | y :: rows' => if before x y then x :: rows else y :: insert_row x rows'
  end.

(** ORDER BY as a stable insertion sort: rows with equal keys keep the
    order of the unsorted query. *)
Fixpoint order_by (rows : list R) : list R :=
  match rows with
  | [] => []
  | x :: rows' => insert_row x (order_by rows')
  end.
End OrderBy.

(** [.offset(offset).limit(limit)]: a negative offset skips nothing and a
    negative limit keeps everything. *)
Definition paginate {R} (offset limit : Z) (rows : list R) : list R :=
  let rest := skipn (Z.to_nat offset) rows in
  if limit <? 0 then rest else firstn (Z.to_nat limit) rest.

(** What [getattr(Ticket, sort_by)] finds: a mapped column, another
    attribute with which the query fails (the table name, a relationship,
    whose table is not in the query, a property, a method, the metadata and
    registry of the declarative base), or nothing. A name the class does
    not declare is looked up among the inherited attributes of the world;
    one that is [None] orders by the constant NULL. *)
Inductive TicketAttr :=
| Column (key : Ticket.t -> SqlValue)
| NotOrderable
| Missing.

Definition one_of (names : list string) (s : string) : bool :=
  existsb (String.eqb s) names.

Definition Ticket_getattr (w : World) (name : string) : TicketAttr :=
  if String.eqb name "id" then Column (fun t => SqlInt (Ticket.id t))
  else if String.eqb name "subject" then
    Column (fun t => SqlText (Ticket.subject t))
  else if String.eqb name "description" then
    Column (fun t => SqlText (Ticket.description t))
  else if String.eqb name "status" then
    Column (fun t => SqlText (TicketStatus_name (Ticket.status t)))
  else if String.eqb name "priority" then
    Column (fun t => SqlText (TicketPriority_name (Ticket.priority t)))
  else if String.eqb name "created_by_id" then
    Column (fun t => SqlInt (Ticket.created_by_id t))
  else if String.eqb name "assigned_to_id" then
    Column (fun t => sql_opt (Ticket.assigned_to_id t))
  else if String.eqb name "category_id" then
    Column (fun t => SqlInt (Ticket.category_id t))
  else if String.eqb name "created_at" then
    Column (fun t => sql_opt (Ticket.created_at t))
  else if String.eqb name "updated_at" then
    Column (fun t => sql_opt (Ticket.updated_at t))
  else if String.eqb name "resolved_at" then
    Column (fun t => sql_opt (Ticket.resolved_at t))
  else if String.eqb name "closed_at" then
    Column (fun t => sql_opt (Ticket.closed_at t))
  else if String.eqb name "upvotes" then
    Column (fun t => SqlInt (Ticket.upvotes t))
  else if String.eqb name "downvotes" then
    Column (fun t => SqlInt (Ticket.downvotes t))
  else if one_of ["__tablename__"; "creator"; "assignee"; "category";
                  "comments"; "attachments"; "votes"; "vote_score";
                  "comment_count"; "to_dict"; "metadata"; "registry"] name
  then NotOrderable
  else
    match inherited w name with
    | NoAttribute => Missing
    | ConstantKey => Column (fun _ => SqlNull)
    | NotAKey => NotOrderable
    end.

(** ** services.py: TicketService, the read operations *)

Record TicketListing := mkTicketListing {
  tl_tickets : list TicketDict;
  total_count : Z;
  tl_limit : Z;
  tl_offset : Z;
  has_more : bool
}.

Definition is_role (user_role : option UserRole) (r : UserRole) : bool :=
  match user_role with
  | None => false
  | Some r' => UserRole_eqb r' r
  end.

Definition truthy_opt_str (s : option string) : bool :=
  match s with
  | None => false
  | Some s' => truthy_str s'
  end.

(** The aggregate of the [replies] ordering: the outer join leaves NULL for
    a ticket without comments. *)
Definition replies_key (w : World) (t : Ticket.t) : SqlValue :=
  let n := Ticket_comment_count w t in
  if n =? 0 then SqlNull else SqlInt n.

(** The query of [get_tickets] up to the point where it is counted: the
    role filter, then each optional filter in turn. *)
Definition filtered_query (user_id : option Z) (user_role : option UserRole)
  (status : option TicketStatus) (category_id : option Z)
  (search : option string) (w : World) : list Ticket.t :=
  let query := tickets w in
  let query :=
    if is_role user_role END_USER && truthy_int user_id
    then filter (fun t => opt_Z_eqb (Some (Ticket.created_by_id t)) user_id)
                query
    else query in
  let query :=
    match status with
    | Some s => filter (fun t => TicketStatus_eqb (Ticket.status t) s) query
    | None => query
    end in
  let query :=
    if truthy_int category_id
    then filter (fun t => opt_Z_eqb (Some (Ticket.category_id t)) category_id)
                query
    else query in
  match search with
  | Some text =>
      if truthy_str text
      then filter (fun t => ilike_contains (Ticket.subject t) text
                            || ilike_contains (Ticket.description t) text)
                  query
      else query
  | None => query
  end.

(** The ordering step of [get_tickets]. *)
Definition sorted_query (w : World) (sort_by sort_order : string)
  (query : list Ticket.t) : Exc (list Ticket.t) :=
  let descending := String.eqb sort_order "desc" in
  if String.eqb sort_by "votes" then
    Ok (order_by (fun t => SqlInt (Ticket.upvotes t - Ticket.downvotes t))
                 descending query)
  else if String.eqb sort_by "replies" then
    Ok (order_by (replies_key w) descending query)
  else
    match Ticket_getattr w sort_by with
    | Column key => Ok (order_by key descending query)
    | Missing => Ok query
    | NotOrderable => Raise "ArgumentError"
    end.

Definition get_tickets (user_id : option Z) (user_role : option UserRole)
  (status : option TicketStatus) (category_id : option Z)
  (search : option string) (sort_by sort_order : string) (limit offset : Z)
  (w : World) : Exc TicketListing :=
  let query := filtered_query user_id user_role status category_id search w in
  (* Count total records before pagination *)
  let total := Z.of_nat (List.length query) in
  match sorted_query w sort_by sort_order query with
  | Raise e => Raise e
  | Ok query =>
      let page := paginate offset limit query in
      Ok (mkTicketListing (map (Ticket_to_dict w false) page)
                          total limit offset (offset + limit <? total))
  end.

Definition get_ticket_by_id (ticket_id : Z) (user_id : option Z)
  (user_role : option UserRole) (w : World) : option Ticket.t :=
  match find_ticket ticket_id w with
  | None => None
  | Some ticket =>
      if is_role user_role END_USER then
        if negb (opt_Z_eqb (Some (Ticket.created_by_id ticket)) user_id)
        then None
        else Some ticket
      else Some ticket
  end.

(** ** api.py: the ticket endpoints

    [request.current_user] is the pair the token carries; the JSON body and
    the query string are records whose absent keys are [None]. A response
    is the payload and the HTTP status; an exception no handler catches is
    the 500 response of [handle_internal_error]. *)

Record CurrentUser := mkCurrentUser {
  cu_id : Z;
  cu_role : UserRole
}.

Inductive Body :=
| ErrorBody (error : string)
| TicketBody (message : option string) (ticket : TicketDict)
| ListingBody (result : TicketListing)
| CommentBody (message : string) (comment : CommentDict)
| VoteBody (message : string) (vote_result : VoteResult).

Definition Response : Type := Body * Z.

Definition internal_error : Response := (ErrorBody "Internal server error", 500).

(** The role check of [require_auth(allowed_roles)]; an empty list is the
    bare [require_auth()]. *)
Definition require_auth (allowed_roles : list string) (cu : CurrentUser)
  (f : M Response) : M Response :=
  match allowed_roles with
  | [] => f
  | _ =>
      if negb (one_of allowed_roles (UserRole_value (cu_role cu)))
      then ret (ErrorBody "Insufficient permissions", 403)
      else f
  end.

Record ListArgs := mkListArgs {
  arg_status : option string;
  arg_category_id : option Z;
  arg_search : option string;
  arg_sort_by : option string;
  arg_sort_order : option string;
  arg_limit : option Z;
  arg_offset : option Z
}.

Definition or_default {A} (v : option A) (d : A) : A :=
  match v with
  | Some a => a
  | None => d
  end.

Definition api_get_tickets (cu : CurrentUser) (args : ListArgs) : M Response :=
  require_auth [] cu
    (let search := or_default (arg_search args) "" in
     let sort_by := or_default (arg_sort_by args) "updated_at" in
     let sort_order := or_default (arg_sort_order args) "desc" in
     let limit := or_default (arg_limit args) 20 in
     let offset := or_default (arg_offset args) 0 in
     let list_with := fun status_enum =>
       result <- get (get_tickets (Some (cu_id cu)) (Some (cu_role cu))
                        status_enum (arg_category_id args) (Some search)
                        sort_by sort_order limit offset) ;;
       match result with
       | Ok r => ret (ListingBody r, 200)
       | Raise _ => ret internal_error
       end in
     if truthy_opt_str (arg_status args) then
       match TicketStatus_of_value (or_default (arg_status args) "") with
       | Some s => list_with (Some s)
       | None => ret (ErrorBody "Invalid status", 400)
       end
     else list_with None).



Definition api_get_ticket (cu : CurrentUser) (ticket_id : Z) : M Response :=
  require_auth [] cu
    (found <- get (get_ticket_by_id ticket_id (Some (cu_id cu))
                     (Some (cu_role cu))) ;;
     match found with
     | None => ret (ErrorBody "Ticket not found or access denied", 404)
     | Some ticket =>
         payload <- get (fun w => Ticket_to_dict w true ticket) ;;
         ret (TicketBody None payload, 200)
     end).

Definition api_update_ticket_status (cu : CurrentUser) (ticket_id : Z)
  (status : option string) : M Response :=
  require_auth ["support_agent"; "admin"] cu
    (if negb (truthy_opt_str status) then
       ret (ErrorBody "Status is required", 400)
     else
       match TicketStatus_of_value (or_default status "") with
       | None => ret (ErrorBody "Invalid status", 400)
       | Some s =>
           updated <- update_ticket_status ticket_id s (cu_id cu) ;;
           match updated with
           | None => ret (ErrorBody "Ticket not found", 404)
           | Some ticket =>
               payload <- get (fun w => Ticket_to_dict w false ticket) ;;
               ret (TicketBody (Some "Ticket status updated successfully")
                               payload, 200)
           end
       end).

Definition api_assign_ticket (cu : CurrentUser) (ticket_id : Z)
  (assigned_to_id : option Z) : M Response :=
  require_auth ["support_agent"; "admin"] cu
    (assigned <- assign_ticket ticket_id assigned_to_id ;;
     match assigned with
     | None => ret (ErrorBody "Ticket not found", 404)
     | Some ticket =>
         payload <- get (fun w => Ticket_to_dict w false ticket) ;;
         ret (TicketBody (Some "Ticket assigned successfully") payload, 200)
     end).

Record CommentData := mkCommentData {
  d_content : option string;
  d_is_internal : option bool
}.

Definition api_add_comment (cu : CurrentUser) (ticket_id : Z)
  (data : CommentData) : M Response :=
  require_auth [] cu
    (if negb (truthy_opt_str (d_content data)) then
       ret (ErrorBody "Comment content is required", 400)
     else
       (* Check if user can access this ticket *)
       found <- get (get_ticket_by_id ticket_id (Some (cu_id cu))
                       (Some (cu_role cu))) ;;
       match found with
       | None => ret (ErrorBody "Ticket not found or access denied", 404)
       | Some _ =>
           let is_internal := or_default (d_is_internal data) false in
           (* Only agents and admins can create internal comments *)
           let is_internal :=
             if is_internal
                && negb (one_of ["support_agent"; "admin"]
                           (UserRole_value (cu_role cu)))
             then false
             else is_internal in
           added <- add_comment ticket_id (or_default (d_content data) "")
                      (cu_id cu) is_internal ;;
           match added with
           | Ok (Some comment) =>
               payload <- get (fun w => TicketComment_to_dict w comment) ;;
               ret (CommentBody "Comment added successfully" payload, 201)
           | Ok None | Raise _ => ret internal_error
           end
       end).

Definition api_vote_ticket (cu : CurrentUser) (ticket_id : Z)
  (is_upvote : option bool) : M Response :=
  require_auth [] cu
    match is_upvote with
    | None => ret (ErrorBody "Vote type (is_upvote) is required", 400)
    | Some up =>
        result <- vote_ticket ticket_id (cu_id cu) up ;;
        match result with
        | None => ret (ErrorBody "Ticket not found", 404)
        | Some r =>
            ret (VoteBody ("Vote " +++ action r +++ " successfully") r, 200)
        end
    end.

(** ** Reachable states

    The core operations of the ticket service, run one after another from a
    world that holds users and categories but no ticket yet. *)

Inductive Op :=
| OpCreateTicket (subject description : string) (category_id created_by_id : Z)
                 (priority : TicketPriority)
| OpUpdateStatus (ticket_id : Z) (status : TicketStatus) (updated_by_id : Z)
| OpAssign (ticket_id : Z) (assigned_to_id : option Z)
| OpAddComment (ticket_id : Z) (content : string) (author_id : Z)
               (is_internal : bool)
| OpVote (ticket_id user_id : Z) (is_upvote : bool).

Definition run (op : Op) (w : World) : World :=
  match op with
  | OpCreateTicket s d c u p => snd (create_ticket s d c u p w)
  | OpUpdateStatus t s u => snd (update_ticket_status t s u w)
  | OpAssign t a => snd (assign_ticket t a w)
  | OpAddComment t c a i => snd (add_comment t c a i w)
  | OpVote t u up => snd (vote_ticket t u up w)
  end.

Definition initial (w : World) : Prop :=
  tickets w = [] /\ ticket_comments w = [] /\ ticket_attachments w = []
  /\ ticket_votes w = [] /\ notifications w = [].

Inductive reachable : World -> Prop :=
| reachable_initial w : initial w -> reachable w
| reachable_step w op : reachable w -> reachable (run op w).

(** ** Predicates of the claims *)

(** At most one vote row per (ticket, user) pair. *)
Definition vote_key (v : TicketVote.t) : Z * Z :=
  (TicketVote.ticket_id v, TicketVote.user_id v).

Definition one_vote_per_pair (w : World) : Prop :=
  NoDup (map vote_key (ticket_votes w)).

(** The counters of a ticket agree with the ledger. *)
Definition count_votes (ticket_id : Z) (up : bool) (w : World) : Z :=
  Z.of_nat (List.length
    (filter (fun v => (TicketVote.ticket_id v =? ticket_id)
                      && Bool.eqb (TicketVote.is_upvote v) up)
            (ticket_votes w))).

Definition counters_consistent (t : Ticket.t) (w : World) : Prop :=
  Ticket.upvotes t = count_votes (Ticket.id t) true w
  /\ Ticket.downvotes t = count_votes (Ticket.id t) false w.

(** The tickets the query of [get_tickets] selects, said in one predicate:
    the guards and filters of the code, in its order. *)
Definition listed (user_id : option Z) (user_role : option UserRole)
  (status : option TicketStatus) (category_id : option Z)
  (search : option string) (t : Ticket.t) : bool :=
  (if is_role user_role END_USER && truthy_int user_id
   then opt_Z_eqb (Some (Ticket.created_by_id t)) user_id else true)
  && match status with
     | Some s => TicketStatus_eqb (Ticket.status t) s
     | None => true
     end
  && (if truthy_int category_id
      then opt_Z_eqb (Some (Ticket.category_id t)) category_id else true)
  && (if truthy_opt_str search
      then ilike_contains (Ticket.subject t) (or_default search "")
           || ilike_contains (Ticket.description t) (or_default search "")
      else true).

(** A concrete world used by the examples: an agent, two end users, one
    category and a clock that counts the reads. *)
Definition example_users : list User.t :=
  [ User.mk 1 "agent" "agent@quickdesk.com" "Support Agent" SUPPORT_AGENT
            true (Some 0);
    User.mk 7 "user" "user@quickdesk.com" "End User" END_USER true (Some 0);
    User.mk 8 "other" "other@quickdesk.com" "Other User" END_USER true
            (Some 0) ].

(** Inherited attributes of the example: the class has no docstring, so
    [__doc__] is [None]; some names every class has; no others. *)
Definition example_inherited (name : string) : Inherited :=
  if String.eqb name "__doc__" then ConstantKey
  else if one_of ["__class__"; "__dict__"; "__init__"; "__module__";
                  "__table__"; "__mapper__"; "__eq__"; "__hash__";
                  "__repr__"; "_sa_class_manager"] name
  then NotAKey
  else NoAttribute.

Definition example_world : World :=
  mkWorld example_users
          [ Category.mk 1 "Technical Support" "Technical issues" "#dc3545"
                        true ]
          [] [] [] [] [] [] (fun n => 100 + Z.of_nat n) 0%nat
          example_inherited.

(** ** Definitions used by the statements and proofs *)

(** The dictionary [vote_ticket] returns for the ticket object [t']. *)
Definition vote_result (act : string) (is_upvote : bool) (t' : Ticket.t)
  : VoteResult :=
  mkVoteResult act (if is_upvote then "upvote" else "downvote")
               (Ticket.upvotes t') (Ticket.downvotes t')
               (Ticket.vote_score t').

(** The columns written when a vote changes polarity. *)
Definition flip_vote (now : datetime) (is_upvote : bool) (r : TicketVote.t)
  : TicketVote.t :=
  TicketVote.set_updated_at (Some now) (TicketVote.set_is_upvote is_upvote r).

(** Two worlds with the same users, categories, tickets, comments,
    attachments and votes: they differ at most in notifications, mail and
    clock. *)
Definition same_core (w w' : World) : Prop :=
  users w' = users w /\ categories w' = categories w
  /\ tickets w' = tickets w /\ ticket_comments w' = ticket_comments w
  /\ ticket_attachments w' = ticket_attachments w
  /\ ticket_votes w' = ticket_votes w.

(** Clock reads of [update_ticket_status] before its commit. *)
Definition status_reads (s : TicketStatus) : nat :=
  match s with
  | RESOLVED | CLOSED => 2
  | _ => 1
  end.

(** The columns [update_ticket_status] writes when called in world [w]. *)
Definition status_write (s : TicketStatus) (w : World) (r : Ticket.t)
  : Ticket.t :=
  stamp_status s (clock w (S (ticks w)))
    (Ticket.set_updated_at (Some (clock w (ticks w))) (Ticket.set_status s r)).

(** The columns [assign_ticket] writes for the loaded ticket [t]. *)
Definition assign_write (assigned_to_id : option Z) (t : Ticket.t) (w : World)
  (r : Ticket.t) : Ticket.t :=
  let r' := Ticket.set_updated_at (Some (clock w (ticks w)))
              (Ticket.set_assigned_to_id assigned_to_id r) in
  if TicketStatus_eqb (Ticket.status t) OPEN && truthy_int assigned_to_id
  then Ticket.set_status IN_PROGRESS r'
  else r'.

(** The row [create_ticket] inserts in world [w]. *)
Definition new_ticket (subject description : string)
  (category_id created_by_id : Z) (priority : TicketPriority) (w : World)
  : Ticket.t :=
  Ticket.mk (next_id (map Ticket.id (tickets w))) subject description OPEN
            priority created_by_id None category_id
            (Some (clock w (ticks w))) (Some (clock w (S (ticks w))))
            None None 0 0.

(** The world in which the announcements of a new ticket are sent. *)
Definition with_new_ticket (t : Ticket.t) (w : World) : World :=
  set_tickets (tickets w ++ [t]) (set_ticks (S (S (ticks w))) w).

(** The row [add_comment] inserts in world [w]. *)
Definition new_comment (ticket_id : Z) (content : string) (author_id : Z)
  (is_internal : bool) (w : World) : TicketComment.t :=
  TicketComment.mk (next_id (map TicketComment.id (ticket_comments w)))
                   content is_internal ticket_id author_id
                   (Some (clock w (S (ticks w))))
                   (Some (clock w (S (S (ticks w))))).

(** Both counters of every stored ticket are non-negative. *)
Definition counters_nonneg (w : World) : Prop :=
  forall t, In t (tickets w) -> 0 <= Ticket.upvotes t /\ 0 <= Ticket.downvotes t.

(** The two ways an operation changes the tickets table: one inserted row
    with zero counters, or one UPDATE by primary key that keeps the key,
    clears no timestamp and keeps the counters non-negative. *)
Inductive tickets_change (w w' : World) : Prop :=
| change_insert (t : Ticket.t) :
    tickets w' = tickets w ++ [t] ->
    Ticket.id t = next_id (map Ticket.id (tickets w)) ->
    Ticket.upvotes t = 0 -> Ticket.downvotes t = 0 ->
    tickets_change w w'
| change_update (key : Z) (f : Ticket.t -> Ticket.t) :
    tickets w' = update_where Ticket.id key f (tickets w) ->
    (forall r, Ticket.id (f r) = Ticket.id r) ->
    (forall r, Ticket.resolved_at r <> None -> Ticket.resolved_at (f r) <> None) ->
    (forall r, Ticket.closed_at r <> None -> Ticket.closed_at (f r) <> None) ->
    (counters_nonneg w -> forall r, In r (tickets w) ->
       0 <= Ticket.upvotes (f r) /\ 0 <= Ticket.downvotes (f r)) ->
    tickets_change w w'.

(** The columns [commit_counters] writes. *)
Definition counters_write (t t' : Ticket.t) (w : World) (r : Ticket.t)
  : Ticket.t :=
  if (Ticket.upvotes t' =? Ticket.upvotes t)
     && (Ticket.downvotes t' =? Ticket.downvotes t)
  then r
  else Ticket.set_updated_at (Some (clock w (ticks w)))
         (Ticket.set_downvotes (Ticket.downvotes t')
            (Ticket.set_upvotes (Ticket.upvotes t') r)).

(** A sequence of operations, run from left to right. *)
Definition run_all (ops : list Op) (w : World) : World :=
  fold_left (fun w op => run op w) ops w.

(** A ticket is created, voted on by two users (one of whom changes the
    vote), commented internally and resolved. *)
Definition example_run : World :=
  run_all [ OpCreateTicket "Printer down" "It does not print" 1 7 HIGH;
            OpVote 1 7 true;
            OpVote 1 8 false;
            OpVote 1 7 false;
            OpAddComment 1 "Looking into it" 1 true;
            OpUpdateStatus 1 RESOLVED 1 ]
          example_world.

(** The ticket of the printer scenario as stored at creation. *)
Definition example_ticket : Ticket.t :=
  Ticket.mk 1 "Printer down" "It does not print" OPEN HIGH 7 None 1
            (Some 100) (Some 101) None None 0 0.

Definition example_created : World :=
  run (OpCreateTicket "Printer down" "It does not print" 1 7 HIGH)
      example_world.

(** The same world after user 8 has upvoted the ticket. *)
Definition example_voted : World := run (OpVote 1 8 true) example_created.

Definition example_voted_ticket : Ticket.t :=
  Ticket.mk 1 "Printer down" "It does not print" OPEN HIGH 7 None 1
            (Some 100) (Some 103) None None 1 0.

(** The vote row of user 8 in that world. *)
Definition example_vote : TicketVote.t :=
  TicketVote.mk 1 true 1 8 (Some 104) (Some 105).

(** An end user who did not create ticket 1. *)
Definition example_end_user : CurrentUser := mkCurrentUser 8 END_USER.


(** [n] is an announcement of the new [ticket]. *)
Definition announces (ticket : Ticket.t) (n : Notification.t) : Prop :=
  Notification.notification_type n = "ticket_created"
  /\ Notification.ticket_id n = Some (Ticket.id ticket).


(** The comments carried by a ticket payload. *)
Definition response_comments (resp : Response) : list CommentDict :=
  match fst resp with
  | TicketBody _ d =>
      match td_relations d with
      | Relations _ _ _ comments _ => comments
      | Summary _ _ _ _ _ _ => []
      end
  | _ => []
  end.

(** The printer ticket after an agent has added an internal note. *)
Definition example_noted : World :=
  snd (api_add_comment (mkCurrentUser 1 SUPPORT_AGENT) 1
         (mkCommentData (Some "Customer is on the legacy plan") (Some true))
         example_created).

(** ** Definitions used by the further properties *)

(** Columns no operation writes after the insert. *)
Definition same_identity (r r' : Ticket.t) : Prop :=
  Ticket.id r' = Ticket.id r
  /\ Ticket.subject r' = Ticket.subject r
  /\ Ticket.description r' = Ticket.description r
  /\ Ticket.priority r' = Ticket.priority r
  /\ Ticket.created_by_id r' = Ticket.created_by_id r
  /\ Ticket.category_id r' = Ticket.category_id r
  /\ Ticket.created_at r' = Ticket.created_at r.

Definition same_counters (r r' : Ticket.t) : Prop :=
  Ticket.upvotes r' = Ticket.upvotes r
  /\ Ticket.downvotes r' = Ticket.downvotes r.

Definition is_vote (op : Op) : bool :=
  match op with
  | OpVote _ _ _ => true
  | _ => false
  end.

(** One operation either inserts one row under a fresh key, with zero
    counters, or rewrites by primary key without touching the identity
    columns; only a vote rewrites the counters. *)
Inductive tickets_evolve (op : Op) (w : World) : Prop :=
| evolve_insert (t : Ticket.t) :
    tickets (run op w) = tickets w ++ [t] ->
    Ticket.id t = next_id (map Ticket.id (tickets w)) ->
    Ticket.upvotes t = 0 -> Ticket.downvotes t = 0 ->
    is_vote op = false ->
    tickets_evolve op w
| evolve_update (key : Z) (f : Ticket.t -> Ticket.t) :
    tickets (run op w) = update_where Ticket.id key f (tickets w) ->
    (forall r, same_identity r (f r)) ->
    (is_vote op = false -> forall r, same_counters r (f r)) ->
    tickets_evolve op w.

Definition votes_reference_tickets (w : World) : Prop :=
  forall v, In v (ticket_votes w) ->
            In (TicketVote.ticket_id v) (map Ticket.id (tickets w)).

(** The invariant of the ledger: primary keys are unique, a pair has at
    most one vote, votes belong to stored tickets and every ticket carries
    the counts of its vote rows. *)
Definition ledger_consistent (w : World) : Prop :=
  NoDup (map Ticket.id (tickets w))
  /\ NoDup (map TicketVote.id (ticket_votes w))
  /\ one_vote_per_pair w
  /\ votes_reference_tickets w
  /\ forall t, In t (tickets w) -> counters_consistent t w.


Definition is_staff (cu : CurrentUser) : bool :=
  negb (UserRole_eqb (cu_role cu) END_USER).

Definition example_agent : CurrentUser := mkCurrentUser 1 SUPPORT_AGENT.

(** The order a listing is expected in: values of [f] never increase when
    descending and never decrease otherwise. *)
Definition in_order (descending : bool) (f : TicketDict -> Z)
  (items : list TicketDict) : Prop :=
  StronglySorted (fun a b => if descending then f b <= f a else f a <= f b)
                 items.


(** Three tickets of two users, with votes and one comment. *)
Definition example_backlog : World :=
  run_all [ OpCreateTicket "Printer down" "It does not print" 1 7 HIGH;
            OpCreateTicket "VPN drops" "Every hour" 1 8 LOW;
            OpCreateTicket "Mouse broken" "Left button" 1 7 MEDIUM;
            OpVote 2 7 true;
            OpVote 2 8 true;
            OpVote 3 8 false;
            OpAddComment 1 "Looking into it" 1 false ]
          example_world.







Record TicketCounts := mkTicketCounts {
  tc_open : Z;
  tc_in_progress : Z;
  tc_resolved : Z;
  tc_closed : Z;
  tc_total : Z
}.

(** The dictionary of [get_dashboard_stats]; the two keys only staff
    receive are [None] when absent. *)
Record DashboardStats := mkDashboardStats {
  ticket_counts : TicketCounts;
  recent_tickets : list TicketDict;
  category_distribution : list (string * Z);
  top_voted_tickets : option (list TicketDict);
  most_active_users : option (list (string * Z))
}.

(** [GROUP BY key] with [count(...)]: one more joined row for [k]. *)
Fixpoint bump {K} (eqb : K -> K -> bool) (k : K) (groups : list (K * Z))
  : list (K * Z) :=
  match groups with
  | [] => [(k, 1)]
  | (k', n) :: rest =>
      if eqb k' k then (k', n + 1) :: rest else (k', n) :: bump eqb k rest
  end.

(** The groups of the joined rows with their sizes, in the order in which
    the keys first occur. *)
Definition group_count {K} (eqb : K -> K -> bool) (keys : list K)
  : list (K * Z) :=
  fold_left (fun groups k => bump eqb k groups) keys [].

Definition count_status (s : TicketStatus) (query : list Ticket.t) : Z :=
  Z.of_nat (List.length
              (filter (fun t => TicketStatus_eqb (Ticket.status t) s) query)).

Definition user_key_eqb (a b : Z * string) : bool :=
  (fst a =? fst b) && String.eqb (snd a) (snd b).

(** [get_dashboard_stats]. The joins are nested loops over the two tables;
    SQL leaves the order of the groups of a [GROUP BY] open, here they come
    in the order in which their keys first occur. *)
Definition get_dashboard_stats (user_id : option Z)
  (user_role : option UserRole) (w : World) : DashboardStats :=
  (* Filter for end users - only their tickets *)
  let base_query :=
    if is_role user_role END_USER && truthy_int user_id
    then filter (fun t => opt_Z_eqb (Some (Ticket.created_by_id t)) user_id)
                (tickets w)
    else tickets w in
  let counts :=
    mkTicketCounts (count_status OPEN base_query)
                   (count_status IN_PROGRESS base_query)
                   (count_status RESOLVED base_query)
                   (count_status CLOSED base_query)
                   (Z.of_nat (List.length base_query)) in
  let recent :=
    paginate 0 10
      (order_by (fun t => sql_opt (Ticket.created_at t)) true base_query) in
  let category_stats :=
    group_count String.eqb
      (flat_map (fun c =>
                   map (fun _ => Category.name c)
                       (filter (fun t => Ticket.category_id t =? Category.id c)
                               (tickets w)))
                (categories w)) in
  let staff := is_role user_role ADMIN || is_role user_role SUPPORT_AGENT in
  let top_voted :=
    paginate 0 5
      (order_by (fun t => SqlInt (Ticket.upvotes t - Ticket.downvotes t))
                true (tickets w)) in
  let active_users :=
    paginate 0 5
      (order_by (fun g => SqlInt (snd g)) true
         (group_count user_key_eqb
            (flat_map (fun u =>
                         map (fun _ => (User.id u, User.full_name u))
                             (filter (fun t => Ticket.created_by_id t
                                               =? User.id u)
                                     (tickets w)))
                      (users w)))) in
  mkDashboardStats
    counts
    (map (Ticket_to_dict w false) recent)
    category_stats
    (if staff then Some (map (Ticket_to_dict w false) top_voted) else None)
    (if staff
     then Some (map (fun g => (snd (fst g), snd g)) active_users)
     else None).




Definition example_attachment : TicketAttachment.t :=
  TicketAttachment.mk 1 "3f2c.png" "screenshot.png" 2048 "image/png"
                      "uploads/3f2c.png" 1 7 (Some 120).

(** The printer ticket with one uploaded screenshot. *)
Definition example_attached : World :=
  mkWorld (users example_created) (categories example_created)
          (tickets example_created) (ticket_comments example_created)
          [example_attachment] (ticket_votes example_created)
          (notifications example_created) (outbox example_created)
          (clock example_created) (ticks example_created)
          (inherited example_created).

Definition set_categories (v : list Category.t) (w : World) : World :=
  mkWorld (users w) v (tickets w) (ticket_comments w)
          (ticket_attachments w) (ticket_votes w) (notifications w)
          (outbox w) (clock w) (ticks w) (inherited w).

(** [create_category]. A [ValueError] is [Raise] with its message. The row
    model has no [created_at] column: its default is read from the clock
    and dropped. *)
Definition create_category (name description color : string)
  : M (Exc Category.t) :=
  existing <- get (fun w =>
                find (fun c => String.eqb (Category.name c) name)
                     (categories w)) ;;
  match existing with
  | Some _ => ret (Raise ("Category '" +++ name +++ "' already exists"))
  | None =>
      utcnow ;;;
      cid <- get (fun w => next_id (map Category.id (categories w))) ;;
      let category := Category.mk cid name description color true in
      modify (fun w => set_categories (categories w ++ [category]) w) ;;;
      ret (Ok category)
  end.

Definition get_categories (active_only : bool) (w : World)
  : list Category.t :=
  if active_only then filter Category.is_active (categories w)
  else categories w.

Definition get_category_by_id (category_id : Z) (w : World)
  : option Category.t :=
  find (fun c => (Category.id c =? category_id) && Category.is_active c)
       (categories w).

(** The answers of the category endpoints. *)
Inductive CategoryBody :=
| CategoryError (error : string)
| CategoryCreated (message : string) (category : CategoryDict)
| CategoryList (categories : list CategoryDict).

(** The JSON body of the category request; a field is [None] when its key
    is absent (a JSON [null] is not told apart from an absent key). *)
Record CategoryData := mkCategoryData {
  d_name : option string;
  d_cat_description : option string;
  d_color : option string
}.

Definition api_get_categories (cu : CurrentUser) (w : World)
  : CategoryBody * Z :=
  (CategoryList (map Category_to_dict (get_categories true w)), 200).

Definition api_create_category (cu : CurrentUser) (data : CategoryData)
  : M (CategoryBody * Z) :=
  if negb (one_of ["admin"] (UserRole_value (cu_role cu))) then
    ret (CategoryError "Insufficient permissions", 403)
  else if negb (truthy_opt_str (d_name data)) then
    ret (CategoryError "Category name is required", 400)
  else
    created <- create_category (or_default (d_name data) "")
                 (or_default (d_cat_description data) "")
                 (or_default (d_color data) "#007bff") ;;
    match created with
    | Ok category =>
        ret (CategoryCreated "Category created successfully"
                             (Category_to_dict category), 201)
    | Raise e => ret (CategoryError e, 400)
    end.

Definition listed_categories (resp : CategoryBody * Z) : list CategoryDict :=
  match fst resp with
  | CategoryList cs => cs
  | _ => []
  end.

Definition untouched_by_vote (w w' : World) : Prop :=
  users w' = users w /\ categories w' = categories w
  /\ ticket_comments w' = ticket_comments w
  /\ ticket_attachments w' = ticket_attachments w
  /\ notifications w' = notifications w /\ outbox w' = outbox w.

(** Primary keys identify their rows and the ledger holds one vote per
    (ticket, user) pair, as in every reachable state. *)
Definition well_keyed (w : World) : Prop :=
  NoDup (map Ticket.id (tickets w))
  /\ NoDup (map TicketVote.id (ticket_votes w))
  /\ one_vote_per_pair w.

(** ** The listing as the specification words it

    Section 4.4 of the specification: the visibility filter comes first (an
    end user is shown the tickets that user created, every other role all
    tickets); the optional filters are conjunctive: status exact match,
    category exact match, and a free text that occurs in the subject or in
    the description as a substring, case-insensitively (here: up to the
    case of ASCII letters). *)







(** * Properties *)

(** ** Tables *)

Lemma next_id_fresh (ids : list Z) (x : Z) : In x ids -> x < next_id ids.
Proof.
  unfold next_id. induction ids as [|y ids IH]; cbn [fold_right In]; [tauto|].
  intros [->|H]; [lia|]. specialize (IH H). lia.
Qed.

Lemma find_update_where {R} (id : R -> Z) (p : R -> bool) (key : Z)
  (f : R -> R) (rows : list R) :
  (forall r, p (f r) = p r) ->
  find p (update_where id key f rows)
  = option_map (fun r => if id r =? key then f r else r) (find p rows).
Proof.
  intros Hp. induction rows as [|r rows IH]; simpl; [reflexivity|].
  destruct (id r =? key) eqn:E.
  - rewrite Hp. destruct (p r); simpl; [now rewrite E | exact IH].
  - destruct (p r); simpl; [now rewrite E | exact IH].
Qed.

Lemma map_update_where {R K} (id : R -> Z) (k : R -> K) (key : Z)
  (f : R -> R) (rows : list R) :
  (forall r, k (f r) = k r) ->
  map k (update_where id key f rows) = map k rows.
Proof.
  intros Hk. unfold update_where. rewrite map_map. apply map_ext.
  intros r. destruct (id r =? key); [apply Hk | reflexivity].
Qed.

Lemma In_delete_where {R} (id : R -> Z) (key : Z) (rows : list R) (r : R) :
  In r (delete_where id key rows) <-> In r rows /\ id r <> key.
Proof.
  unfold delete_where. rewrite filter_In, negb_true_iff, Z.eqb_neq. tauto.
Qed.

Lemma In_update_where {R} (id : R -> Z) (key : Z) (f : R -> R)
  (rows : list R) (r' : R) :
  In r' (update_where id key f rows) ->
  exists r, In r rows /\ r' = (if id r =? key then f r else r).
Proof.
  unfold update_where. rewrite in_map_iff. intros (r & <- & H). eauto.
Qed.

Lemma find_app_l {R} (p : R -> bool) (rows extra : list R) (r : R) :
  find p rows = Some r -> find p (rows ++ extra) = Some r.
Proof.
  induction rows as [|x rows IH]; simpl; [discriminate|].
  destruct (p x); [trivial | exact IH].
Qed.

Lemma find_app_none {R} (p : R -> bool) (rows extra : list R) :
  find p rows = None -> find p (rows ++ extra) = find p extra.
Proof.
  induction rows as [|x rows IH]; simpl; [trivial|].
  destruct (p x); [discriminate | exact IH].
Qed.

Lemma find_ticket_id (ticket_id : Z) (w : World) (t : Ticket.t) :
  find_ticket ticket_id w = Some t -> Ticket.id t = ticket_id /\ In t (tickets w).
Proof.
  unfold find_ticket. intros H. apply find_some in H as [Hin Hid].
  apply Z.eqb_eq in Hid. split; [exact Hid | exact Hin].
Qed.

(** ** The counter commit *)

Lemma commit_counters_votes (t t' : Ticket.t) (w : World) :
  ticket_votes (snd (commit_counters t t' w)) = ticket_votes w.
Proof.
  unfold commit_counters.
  destruct ((Ticket.upvotes t' =? Ticket.upvotes t)
            && (Ticket.downvotes t' =? Ticket.downvotes t)); reflexivity.
Qed.

Lemma commit_counters_find (t t' : Ticket.t) (w : World) :
  find_ticket (Ticket.id t) w = Some t ->
  exists row,
    find_ticket (Ticket.id t) (snd (commit_counters t t' w)) = Some row
    /\ Ticket.upvotes row = Ticket.upvotes t'
    /\ Ticket.downvotes row = Ticket.downvotes t'.
Proof.
  intros Hfind. unfold commit_counters.
  destruct ((Ticket.upvotes t' =? Ticket.upvotes t)
            && (Ticket.downvotes t' =? Ticket.downvotes t)) eqn:E.
  - exists t. simpl. split; [exact Hfind|].
    apply andb_true_iff in E as [E1 E2]. lia.
  - unfold find_ticket in *. unfold bind, utcnow, update_ticket, modify. cbn [snd tickets set_tickets set_ticks].
    rewrite find_update_where by reflexivity. rewrite Hfind. simpl.
    rewrite Z.eqb_refl. eexists. split; [reflexivity|]. split; reflexivity.
Qed.

(** ** The vote operation, branch by branch *)

Lemma vote_ticket_absent (ticket_id user_id : Z) (is_upvote : bool) (w : World) :
  find_ticket ticket_id w = None ->
  vote_ticket ticket_id user_id is_upvote w = (None, w).
Proof.
  intros H. unfold vote_ticket, bind, get. rewrite H. reflexivity.
Qed.

Lemma vote_ticket_added (ticket_id user_id : Z) (is_upvote : bool)
  (w : World) (ticket : Ticket.t) :
  find_ticket ticket_id w = Some ticket ->
  find_vote ticket_id user_id w = None ->
  let t' := added_counters is_upvote ticket in
  let w1 := snd (commit_counters ticket t' w) in
  let vote :=
    TicketVote.mk (next_id (map TicketVote.id (ticket_votes w)))
                  is_upvote ticket_id user_id
                  (Some (clock w1 (ticks w1)))
                  (Some (clock w1 (S (ticks w1)))) in
  vote_ticket ticket_id user_id is_upvote w
  = (Some (vote_result "added" is_upvote t'),
     set_ticket_votes (ticket_votes w ++ [vote])
                      (set_ticks (S (S (ticks w1))) w1)).
Proof.
  intros Ht Hv t' w1 vote. subst vote w1.
  pose proof (commit_counters_votes ticket t' w) as Hvotes.
  unfold vote_ticket, bind, get. rewrite Ht, Hv.
  destruct (commit_counters ticket (added_counters is_upvote ticket) w)
    as [[] w1] eqn:E.
  subst t'. rewrite E in *. cbn [snd] in *.
  unfold utcnow, modify, ret, vote_result. cbn [snd fst].
  cbn [ticket_votes set_ticks clock ticks]. rewrite Hvotes.
  unfold set_ticket_votes, set_ticks. cbn. reflexivity.
Qed.

Lemma vote_ticket_removed (ticket_id user_id : Z) (is_upvote : bool)
  (w : World) (ticket : Ticket.t) (existing : TicketVote.t) :
  find_ticket ticket_id w = Some ticket ->
  find_vote ticket_id user_id w = Some existing ->
  TicketVote.is_upvote existing = is_upvote ->
  let t' := removed_counters is_upvote ticket in
  let w1 := snd (commit_counters ticket t' w) in
  vote_ticket ticket_id user_id is_upvote w
  = (Some (vote_result "removed" is_upvote t'),
     set_ticket_votes
       (delete_where TicketVote.id (TicketVote.id existing) (ticket_votes w))
       w1).
Proof.
  intros Ht Hv Hsame t' w1. subst w1.
  pose proof (commit_counters_votes ticket t' w) as Hvotes.
  unfold vote_ticket, bind, get. rewrite Ht, Hv, Hsame, Bool.eqb_reflx.
  subst t'.
  destruct (commit_counters ticket (removed_counters is_upvote ticket) w)
    as [[] w1] eqn:E.
  cbn [snd] in *. unfold modify, ret, vote_result. cbn [snd fst].
  rewrite Hvotes. reflexivity.
Qed.

Lemma vote_ticket_changed (ticket_id user_id : Z) (is_upvote : bool)
  (w : World) (ticket : Ticket.t) (existing : TicketVote.t) :
  find_ticket ticket_id w = Some ticket ->
  find_vote ticket_id user_id w = Some existing ->
  TicketVote.is_upvote existing = negb is_upvote ->
  let t' := changed_counters is_upvote ticket in
  let w1 := snd (commit_counters ticket t' (set_ticks (S (ticks w)) w)) in
  vote_ticket ticket_id user_id is_upvote w
  = (Some (vote_result "changed" is_upvote t'),
     set_ticket_votes
       (update_where TicketVote.id (TicketVote.id existing)
          (flip_vote (clock w (ticks w)) is_upvote) (ticket_votes w))
       w1).
Proof.
  intros Ht Hv Hdiff t' w1. subst w1.
  pose proof (commit_counters_votes ticket t' (set_ticks (S (ticks w)) w))
    as Hvotes.
  unfold vote_ticket, bind, get. rewrite Ht, Hv, Hdiff.
  replace (Bool.eqb (negb is_upvote) is_upvote) with false
    by now destruct is_upvote.
  subst t'. unfold utcnow at 1.
  destruct (commit_counters ticket (changed_counters is_upvote ticket)
              (set_ticks (S (ticks w)) w)) as [[] w1] eqn:E.
  cbn [snd] in *. unfold modify, ret, vote_result, flip_vote. cbn [snd fst].
  rewrite Hvotes. reflexivity.
Qed.


(** ** What the notification service leaves alone *)

Lemma same_core_refl (w : World) : same_core w w.
Proof. repeat split. Qed.

Lemma same_core_trans (w1 w2 w3 : World) :
  same_core w1 w2 -> same_core w2 w3 -> same_core w1 w3.
Proof.
  unfold same_core. intros (?&?&?&?&?&?) (?&?&?&?&?&?).
  repeat split; congruence.
Qed.

Lemma create_notification_core (user_id : Z) (title message ty : string)
  (ticket_id : option Z) (w : World) :
  same_core w (snd (create_notification user_id title message ty ticket_id w)).
Proof.
  unfold create_notification, bind, utcnow, get, modify, ret. cbn [fst snd].
  match goal with |- context [user_by_id ?x ?y] => destruct (user_by_id x y) end;
    repeat split.
Qed.

Lemma notify_ticket_created_core (ticket : Ticket.t) (us : list User.t)
  (w : World) :
  same_core w (snd (notify_ticket_created ticket us w)).
Proof.
  revert w. induction us as [|u us IH]; intros w; [apply same_core_refl|].
  cbn [notify_ticket_created]. unfold bind at 1 2, get. 
  destruct (Ticket_creator w ticket); [|apply same_core_refl].
  destruct (Ticket_category w ticket); [|apply same_core_refl].
  unfold bind.
  match goal with |- context [create_notification ?a ?b ?c ?d ?e w] =>
    pose proof (create_notification_core a b c d e w) as H;
    destruct (create_notification a b c d e w) as [n w1] end.
  cbn [snd] in H. eapply same_core_trans; [exact H | apply IH].
Qed.

Lemma update_where_others {R} (id : R -> Z) (key : Z) (f : R -> R)
  (rows : list R) :
  (forall x, In x rows -> id x <> key) ->
  update_where id key f rows = rows.
Proof.
  intros H. unfold update_where. rewrite <- (map_id rows) at 2.
  apply map_ext_in. intros x Hx. apply H in Hx.
  apply Z.eqb_neq in Hx. now rewrite Hx.
Qed.

Lemma update_where_last {R} (id : R -> Z) (f : R -> R) (rows : list R)
  (r : R) :
  id r = next_id (map id rows) ->
  update_where id (id r) f (rows ++ [r]) = rows ++ [f r].
Proof.
  intros Hr. unfold update_where. rewrite map_app.
  fold (update_where id (id r) f rows). rewrite update_where_others.
  - simpl. now rewrite Z.eqb_refl.
  - intros x Hx. pose proof (next_id_fresh (map id rows) (id x)) as Hlt.
    rewrite <- Hr in Hlt. specialize (Hlt (in_map id _ _ Hx)). lia.
Qed.

(** A notification is one appended row addressed as requested. *)
Lemma create_notification_appends (user_id : Z) (title message ty : string)
  (ticket_id : option Z) (w : World) :
  let n := fst (create_notification user_id title message ty ticket_id w) in
  let w' := snd (create_notification user_id title message ty ticket_id w) in
  notifications w' = notifications w ++ [n]
  /\ Notification.user_id n = user_id
  /\ Notification.title n = title
  /\ Notification.message n = message
  /\ Notification.notification_type n = ty
  /\ Notification.ticket_id n = ticket_id.
Proof.
  unfold create_notification, send_notification_email, bind, utcnow, get,
    modify, ret. cbn [fst snd].
  match goal with |- context [user_by_id ?x ?y] => destruct (user_by_id x y) end;
    cbn [fst snd notifications set_notifications set_outbox set_ticks];
    repeat split.
  match goal with |- update_where _ _ _ (_ ++ [?r]) = _ =>
    change (next_id (map Notification.id (notifications w)))
      with (Notification.id r) at 1;
    rewrite (update_where_last Notification.id _ _ r) by reflexivity
  end.
  reflexivity.
Qed.

(** ** The lifecycle operations, as equations *)

Lemma bind_eq {A B} (c : M A) (k : A -> M B) (w : World) :
  bind c k w = k (fst (c w)) (snd (c w)).
Proof. unfold bind. now destruct (c w). Qed.

Lemma update_ticket_status_absent (ticket_id : Z) (s : TicketStatus)
  (by_id : Z) (w : World) :
  find_ticket ticket_id w = None ->
  update_ticket_status ticket_id s by_id w = (None, w).
Proof.
  intros H. unfold update_ticket_status, bind, get. now rewrite H.
Qed.

Lemma update_ticket_status_found (ticket_id : Z) (s : TicketStatus)
  (by_id : Z) (w : World) (t : Ticket.t) :
  find_ticket ticket_id w = Some t ->
  let w1 :=
    set_tickets
      (update_where Ticket.id (Ticket.id t) (status_write s w) (tickets w))
      (set_ticks (status_reads s + ticks w) w) in
  update_ticket_status ticket_id s by_id w
  = (Some (status_write s w t),
     if TicketStatus_eqb (Ticket.status t) s then w1
     else snd (create_status_change_notification
                 (status_write s w t) (Ticket.status t) s w1)).
Proof.
  intros H w1. subst w1. unfold update_ticket_status.
  rewrite bind_eq. unfold get at 1. cbn [fst snd]. rewrite H.
  destruct s; cbn [status_reads Nat.add];
    destruct (TicketStatus_eqb (Ticket.status t) _) eqn:E;
    rewrite !bind_eq; cbn [negb]; rewrite ?bind_eq; reflexivity.
Qed.

Lemma assign_ticket_absent (ticket_id : Z) (a : option Z) (w : World) :
  find_ticket ticket_id w = None -> assign_ticket ticket_id a w = (None, w).
Proof. intros H. unfold assign_ticket, bind, get. now rewrite H. Qed.

Lemma assign_ticket_found (ticket_id : Z) (a : option Z) (w : World)
  (t : Ticket.t) :
  find_ticket ticket_id w = Some t ->
  assign_ticket ticket_id a w
  = (Some (assign_write a t w t),
     set_tickets
       (update_where Ticket.id (Ticket.id t) (assign_write a t w) (tickets w))
       (set_ticks (S (ticks w)) w)).
Proof.
  intros H. unfold assign_ticket. rewrite bind_eq. unfold get at 1.
  cbn [fst snd]. rewrite H. rewrite !bind_eq. reflexivity.
Qed.

Lemma create_ticket_eq (s d : string) (c u : Z) (p : TicketPriority)
  (w : World) :
  let t := new_ticket s d c u p w in
  let sent := create_ticket_notification t (with_new_ticket t w) in
  create_ticket s d c u p w
  = (match fst sent with Ok _ => Ok t | Raise e => Raise e end, snd sent).
Proof.
  intros t sent. unfold create_ticket. rewrite !bind_eq. cbn [fst snd].
  match goal with
  | |- context [match fst ?x with Ok _ => _ | Raise _ => _ end] =>
      change x with sent; destruct (fst sent)
  end; reflexivity.
Qed.

Lemma add_comment_absent (ticket_id : Z) (content : string) (author_id : Z)
  (is_internal : bool) (w : World) :
  find_ticket ticket_id w = None ->
  add_comment ticket_id content author_id is_internal w = (Ok None, w).
Proof. intros H. unfold add_comment, bind, get. now rewrite H. Qed.

Lemma add_comment_found (ticket_id : Z) (content : string) (author_id : Z)
  (is_internal : bool) (w : World) (t : Ticket.t) :
  find_ticket ticket_id w = Some t ->
  let c := new_comment ticket_id content author_id is_internal w in
  let now := Some (clock w (ticks w)) in
  let w1 :=
    set_tickets
      (update_where Ticket.id (Ticket.id t) (Ticket.set_updated_at now)
                    (tickets w))
      (set_ticket_comments (ticket_comments w ++ [c])
                           (set_ticks (S (S (S (ticks w)))) w)) in
  let sent := create_comment_notification (Ticket.set_updated_at now t) c w1 in
  add_comment ticket_id content author_id is_internal w
  = (match fst sent with Ok _ => Ok (Some c) | Raise e => Raise e end,
     snd sent).
Proof.
  intros H c now w1 sent. unfold add_comment. rewrite bind_eq. unfold get at 1.
  cbn [fst snd]. rewrite H. rewrite !bind_eq. cbn [fst snd].
  match goal with
  | |- context [match fst ?x with Ok _ => _ | Raise _ => _ end] =>
      change x with sent; destruct (fst sent)
  end; reflexivity.
Qed.

(** ** How one operation changes the tickets table *)

Lemma update_where_same {R} (id : R -> Z) (key : Z) (rows : list R) :
  update_where id key (fun r => r) rows = rows.
Proof.
  unfold update_where. rewrite <- (map_id rows) at 2. apply map_ext.
  intros r. now destruct (id r =? key).
Qed.

Lemma tickets_change_none (w w' : World) :
  tickets w' = tickets w -> tickets_change w w'.
Proof.
  intros H. apply (change_update w w' 0 (fun r => r));
    [now rewrite update_where_same | tauto ..].
Qed.

Lemma create_ticket_notification_core (t : Ticket.t) (w : World) :
  same_core w (snd (create_ticket_notification t w)).
Proof.
  unfold create_ticket_notification. rewrite bind_eq.
  apply notify_ticket_created_core.
Qed.

Lemma create_comment_notification_core (t : Ticket.t) (c : TicketComment.t)
  (w : World) :
  same_core w (snd (create_comment_notification t c w)).
Proof.
  unfold create_comment_notification.
  destruct (negb (TicketComment.is_internal c)); [|apply same_core_refl].
  destruct (negb (TicketComment.author_id c =? Ticket.created_by_id t));
    [|apply same_core_refl].
  rewrite bind_eq. unfold get at 2. cbn [fst snd].
  destruct (fst (get _ w)); [|apply same_core_refl].
  rewrite bind_eq. apply create_notification_core.
Qed.

Lemma commit_counters_tickets (t t' : Ticket.t) (w : World) :
  tickets (snd (commit_counters t t' w))
  = update_where Ticket.id (Ticket.id t) (counters_write t t' w) (tickets w).
Proof.
  unfold commit_counters, counters_write.
  destruct ((Ticket.upvotes t' =? Ticket.upvotes t)
            && (Ticket.downvotes t' =? Ticket.downvotes t)).
  - now rewrite update_where_same.
  - reflexivity.
Qed.

Lemma commit_counters_change (t t' : Ticket.t) (w w0 w' : World) :
  tickets w0 = tickets w ->
  tickets w' = tickets (snd (commit_counters t t' w0)) ->
  (0 <= Ticket.upvotes t -> 0 <= Ticket.upvotes t') ->
  (0 <= Ticket.downvotes t -> 0 <= Ticket.downvotes t') ->
  In t (tickets w) ->
  tickets_change w w'.
Proof.
  intros H0 H' Hu Hd Hin.
  apply (change_update w w' (Ticket.id t) (counters_write t t' w0)).
  - now rewrite H', commit_counters_tickets, H0.
  - intros r. unfold counters_write. now destruct (_ && _).
  - intros r. unfold counters_write. now destruct (_ && _).
  - intros r. unfold counters_write. now destruct (_ && _).
  - intros Hnn r Hr. unfold counters_write. destruct (_ && _).
    + now apply Hnn.
    + destruct (Hnn t Hin). cbn. split; auto.
Qed.


Lemma run_change (op : Op) (w : World) : tickets_change w (run op w).
Proof.
  destruct op as [s d c u p | tid s u | tid a | tid c a i | tid u up];
    cbn [run].
  - rewrite create_ticket_eq. cbn [snd].
    destruct (create_ticket_notification_core
                (new_ticket s d c u p w)
                (with_new_ticket (new_ticket s d c u p w) w))
      as (_ & _ & Ht & _).
    eapply change_insert; [rewrite Ht; reflexivity | reflexivity ..].
  - destruct (find_ticket tid w) as [t|] eqn:Hf.
    + rewrite (update_ticket_status_found _ _ _ _ _ Hf). cbn [snd].
      apply (change_update _ _ (Ticket.id t) (status_write s w)).
      * destruct (TicketStatus_eqb (Ticket.status t) s); [reflexivity|].
        match goal with |- context [create_status_change_notification ?a ?b ?c ?d] =>
          destruct (create_notification_core
                      (Ticket.created_by_id a)
                      ("Ticket Status Updated: " +++ Ticket.subject a)
                      ("Your ticket status has been changed from "
                         +++ TicketStatus_value b +++ " to "
                         +++ TicketStatus_value c)
                      "status_changed" (Some (Ticket.id a)) d)
            as (_ & _ & Ht & _)
        end.
        unfold create_status_change_notification. rewrite Ht. reflexivity.
      * intros r. now destruct s.
      * intros r. destruct s; cbn; congruence.
      * intros r. destruct s; cbn; congruence.
      * intros Hnn r Hr. destruct (Hnn r Hr). now destruct s.
    + rewrite (update_ticket_status_absent _ _ _ _ Hf).
      now apply tickets_change_none.
  - destruct (find_ticket tid w) as [t|] eqn:Hf.
    + rewrite (assign_ticket_found _ _ _ _ Hf). cbn [snd].
      apply (change_update _ _ (Ticket.id t) (assign_write a t w));
        [reflexivity | unfold assign_write; intros r; now destruct (_ && _) ..|].
      intros Hnn r Hr. destruct (Hnn r Hr).
      unfold assign_write. now destruct (_ && _).
    + rewrite (assign_ticket_absent _ _ _ Hf). now apply tickets_change_none.
  - destruct (find_ticket tid w) as [t|] eqn:Hf.
    + rewrite (add_comment_found _ _ _ _ _ _ Hf). cbn [snd].
      match goal with |- context [create_comment_notification ?a ?b ?c] =>
        destruct (create_comment_notification_core a b c) as (_ & _ & Ht & _)
      end.
      apply (change_update _ _ (Ticket.id t)
               (Ticket.set_updated_at (Some (clock w (ticks w)))));
        [rewrite Ht; reflexivity | now intros ..|].
      intros Hnn r Hr. now destruct (Hnn r Hr).
    + rewrite (add_comment_absent _ _ _ _ _ Hf). now apply tickets_change_none.
  - destruct (find_ticket tid w) as [t|] eqn:Hf.
    + destruct (find_ticket_id _ _ _ Hf) as [_ Hin].
      destruct (find_vote tid u w) as [e|] eqn:Hv.
      * destruct (Bool.eqb (TicketVote.is_upvote e) up) eqn:Hpol.
        -- apply Bool.eqb_prop in Hpol.
           rewrite (vote_ticket_removed _ _ _ _ _ _ Hf Hv Hpol). cbn [snd].
           eapply (commit_counters_change t _ w w);
             [reflexivity | reflexivity | | | exact Hin];
             unfold removed_counters; destruct up; cbn; lia.
        -- assert (Hneg : TicketVote.is_upvote e = negb up)
             by (revert Hpol; clear; destruct (TicketVote.is_upvote e), up;
                 simpl; intros; congruence).
           rewrite (vote_ticket_changed _ _ _ _ _ _ Hf Hv Hneg). cbn [snd].
           eapply (commit_counters_change t _ w (set_ticks (S (ticks w)) w));
             [reflexivity | reflexivity | | | exact Hin];
             unfold changed_counters; destruct up; cbn; lia.
      * rewrite (vote_ticket_added _ _ _ _ _ Hf Hv). cbn [snd].
        eapply (commit_counters_change t _ w w);
          [reflexivity | reflexivity | | | exact Hin];
          unfold added_counters; destruct up; cbn; lia.
    + rewrite (vote_ticket_absent _ _ _ _ Hf). now apply tickets_change_none.
Qed.

(** ** How one operation changes the vote ledger *)

Lemma NoDup_map_filter {R K} (k : R -> K) (p : R -> bool) (rows : list R) :
  NoDup (map k rows) -> NoDup (map k (filter p rows)).
Proof.
  induction rows as [|r rows IH]; simpl; [trivial|].
  intros H. apply NoDup_cons_iff in H as [Hnot Hnd].
  destruct (p r); simpl; [|now apply IH].
  apply NoDup_cons; [|now apply IH].
  intros Hin. apply Hnot. apply in_map_iff in Hin as (x & Hx & Hf).
  apply filter_In in Hf as [Hf _]. apply in_map_iff. eauto.
Qed.

Lemma NoDup_snoc {K} (l : list K) (a : K) :
  NoDup l -> ~ In a l -> NoDup (l ++ [a]).
Proof.
  intros Hl Ha. apply NoDup_app; [exact Hl | |].
  - apply NoDup_cons; [intros [] | apply NoDup_nil].
  - intros x Hx [<-|[]]. now apply Ha.
Qed.

Lemma find_vote_none (ticket_id user_id : Z) (w : World) :
  find_vote ticket_id user_id w = None ->
  ~ In (ticket_id, user_id) (map vote_key (ticket_votes w)).
Proof.
  unfold find_vote. intros Hnone Hin.
  apply in_map_iff in Hin as (v & Hk & Hv).
  pose proof (find_none _ _ Hnone v Hv) as Hf. cbn beta in Hf.
  unfold vote_key in Hk. injection Hk as <- <-.
  now rewrite !Z.eqb_refl in Hf.
Qed.

Lemma run_votes (op : Op) (w : World) :
  match op with
  | OpVote _ _ _ => True
  | _ => ticket_votes (run op w) = ticket_votes w
  end.
Proof.
  destruct op as [s d c u p | tid s u | tid a | tid c a i | tid u up];
    cbn [run]; [| | | |exact I].
  - rewrite create_ticket_eq. cbn [snd].
    match goal with |- context [create_ticket_notification ?a ?b] =>
      destruct (create_ticket_notification_core a b) as (_&_&_&_&_&Hv) end.
    now rewrite Hv.
  - destruct (find_ticket tid w) as [t|] eqn:Hf.
    + rewrite (update_ticket_status_found _ _ _ _ _ Hf). cbn [snd].
      destruct (TicketStatus_eqb (Ticket.status t) s); [reflexivity|].
      unfold create_status_change_notification.
      match goal with |- context [create_notification ?a ?b ?c ?d ?e ?f] =>
        destruct (create_notification_core a b c d e f) as (_&_&_&_&_&Hv) end.
      now rewrite Hv.
    + now rewrite (update_ticket_status_absent _ _ _ _ Hf).
  - destruct (find_ticket tid w) as [t|] eqn:Hf.
    + now rewrite (assign_ticket_found _ _ _ _ Hf).
    + now rewrite (assign_ticket_absent _ _ _ Hf).
  - destruct (find_ticket tid w) as [t|] eqn:Hf.
    + rewrite (add_comment_found _ _ _ _ _ _ Hf). cbn [snd].
      match goal with |- context [create_comment_notification ?a ?b ?c] =>
        destruct (create_comment_notification_core a b c) as (_&_&_&_&_&Hv)
      end.
      now rewrite Hv.
    + now rewrite (add_comment_absent _ _ _ _ _ Hf).
Qed.

Lemma one_vote_per_pair_step (op : Op) (w : World) :
  one_vote_per_pair w -> one_vote_per_pair (run op w).
Proof.
  unfold one_vote_per_pair. intros Hnd.
  pose proof (run_votes op w) as Hv.
  destruct op as [s d c u p | tid s u | tid a | tid c a i | tid u up];
    try (rewrite Hv; exact Hnd).
  clear Hv. cbn [run].
  destruct (find_ticket tid w) as [t|] eqn:Hf;
    [|now rewrite (vote_ticket_absent _ _ _ _ Hf)].
  destruct (find_vote tid u w) as [e|] eqn:Hv.
  - destruct (Bool.eqb (TicketVote.is_upvote e) up) eqn:Hpol.
    + apply Bool.eqb_prop in Hpol.
      rewrite (vote_ticket_removed _ _ _ _ _ _ Hf Hv Hpol).
      cbn [snd ticket_votes set_ticket_votes].
      now apply NoDup_map_filter.
    + assert (Hneg : TicketVote.is_upvote e = negb up)
        by (revert Hpol; clear; destruct (TicketVote.is_upvote e), up;
            simpl; intros; congruence).
      rewrite (vote_ticket_changed _ _ _ _ _ _ Hf Hv Hneg).
      cbn [snd ticket_votes set_ticket_votes].
      now rewrite map_update_where.
  - rewrite (vote_ticket_added _ _ _ _ _ Hf Hv).
    cbn [snd ticket_votes set_ticket_votes]. rewrite map_app.
    apply NoDup_snoc; [exact Hnd|]. now apply find_vote_none.
Qed.

Lemma vote_ticket_result (ticket_id user_id : Z) (is_upvote : bool)
  (w : World) (r : VoteResult) :
  fst (vote_ticket ticket_id user_id is_upvote w) = Some r ->
  exists t act,
    find_ticket ticket_id w = Some t
    /\ (r = vote_result act is_upvote (removed_counters is_upvote t)
        \/ r = vote_result act is_upvote (changed_counters is_upvote t)
        \/ r = vote_result act is_upvote (added_counters is_upvote t)).
Proof.
  destruct (find_ticket ticket_id w) as [t|] eqn:Hf;
    [|now rewrite (vote_ticket_absent _ _ _ _ Hf)].
  destruct (find_vote ticket_id user_id w) as [e|] eqn:Hv.
  - destruct (Bool.eqb (TicketVote.is_upvote e) is_upvote) eqn:Hpol.
    + apply Bool.eqb_prop in Hpol.
      rewrite (vote_ticket_removed _ _ _ _ _ _ Hf Hv Hpol). cbn [fst].
      intros [= <-]. exists t, "removed". split; [reflexivity|]. now left.
    + assert (Hneg : TicketVote.is_upvote e = negb is_upvote)
        by (revert Hpol; clear; destruct (TicketVote.is_upvote e), is_upvote;
            simpl; intros; congruence).
      rewrite (vote_ticket_changed _ _ _ _ _ _ Hf Hv Hneg). cbn [fst].
      intros [= <-]. exists t, "changed". split; [reflexivity|].
      right. now left.
  - rewrite (vote_ticket_added _ _ _ _ _ Hf Hv). cbn [fst].
    intros [= <-]. exists t, "added". split; [reflexivity|]. right. now right.
Qed.

Lemma counters_nonneg_step (op : Op) (w : World) :
  counters_nonneg w -> counters_nonneg (run op w).
Proof.
  intros Hnn t' Hin.
  destruct (run_change op w) as [t Ht _ Hu Hd | key f Ht _ _ _ Hf].
  - rewrite Ht in Hin. apply in_app_iff in Hin as [Hin|[<-|[]]].
    + now apply Hnn.
    + lia.
  - rewrite Ht in Hin. apply In_update_where in Hin as (r & Hr & ->).
    destruct (Ticket.id r =? key); [now apply Hf | now apply Hnn].
Qed.

Lemma reachable_counters_nonneg (w : World) :
  reachable w -> counters_nonneg w.
Proof.
  induction 1 as [w (Ht & _) | w op _ IH].
  - intros t Hin. rewrite Ht in Hin. destruct Hin.
  - now apply counters_nonneg_step.
Qed.

Lemma reachable_one_vote_per_pair (w : World) :
  reachable w -> one_vote_per_pair w.
Proof.
  induction 1 as [w (_ & _ & _ & Hv & _) | w op _ IH].
  - unfold one_vote_per_pair. rewrite Hv. apply NoDup_nil.
  - now apply one_vote_per_pair_step.
Qed.

Lemma reachable_run_all (ops : list Op) (w : World) :
  reachable w -> reachable (run_all ops w).
Proof.
  revert w. induction ops as [|op ops IH]; intros w H; [exact H|].
  apply IH. now apply reachable_step.
Defined.

Lemma example_world_initial : initial example_world.
Proof. repeat split. Defined.

Lemma example_run_reachable : reachable example_run.
Proof. apply reachable_run_all, reachable_initial, example_world_initial. Defined.

(** C3. At every reachable state every ticket has
    [vote_score = upvotes - downvotes] with both counters non-negative;
    every core operation keeps it so, and every result of a vote carries a
    score equal to its upvotes minus its downvotes, both non-negative. *)
Theorem vote_score_invariant (w : World) (t : Ticket.t) :
  reachable w -> In t (tickets w) ->
  (Ticket.vote_score t = Ticket.upvotes t - Ticket.downvotes t
   /\ 0 <= Ticket.upvotes t /\ 0 <= Ticket.downvotes t)
  /\ (forall op t', In t' (tickets (run op w)) ->
        Ticket.vote_score t' = Ticket.upvotes t' - Ticket.downvotes t'
        /\ 0 <= Ticket.upvotes t' /\ 0 <= Ticket.downvotes t')
  /\ (forall ticket_id user_id is_upvote r,
        fst (vote_ticket ticket_id user_id is_upvote w) = Some r ->
        vr_vote_score r = vr_upvotes r - vr_downvotes r
        /\ 0 <= vr_upvotes r /\ 0 <= vr_downvotes r).
Proof.
  intros Hreach Hin.
  pose proof (reachable_counters_nonneg w Hreach) as Hnn.
  split; [split; [reflexivity | now apply Hnn]|]. split.
  - intros op t' Hin'. split; [reflexivity|].
    now apply (counters_nonneg_step op w Hnn).
  - intros tid uid up r Hr.
    apply vote_ticket_result in Hr as (t0 & act & Hf & Hr).
    apply find_ticket_id in Hf as [_ Hin0]. destruct (Hnn t0 Hin0).
    destruct Hr as [-> | [-> | ->]];
      unfold vote_result, Ticket.vote_score, removed_counters,
        changed_counters, added_counters;
      destruct up; cbn; lia.
Qed.

Lemma vote_score_invariant_example :
  let t := Ticket.mk 1 "Printer down" "It does not print" RESOLVED HIGH 7 None
                     1 (Some 100) (Some 114) (Some 115) None 0 2 in
  reachable example_run /\ In t (tickets example_run)
  /\ Ticket.vote_score t = Ticket.upvotes t - Ticket.downvotes t
  /\ 0 <= Ticket.upvotes t /\ 0 <= Ticket.downvotes t.
Proof.
  intros t.
  assert (Hin : In t (tickets example_run)) by (vm_compute; auto).
  split; [exact example_run_reachable|]. split; [exact Hin|].
  exact (proj1 (vote_score_invariant example_run t example_run_reachable Hin)).
Defined.

(** C4. At every reachable state the ledger holds at most one vote row per
    (ticket, user) pair, and every core operation keeps it so. The table
    itself accepts a second row for a pair already present: the guarantee
    is the lookup and branch of [vote_ticket], not a constraint of the
    store. *)
Theorem one_vote_per_pair_invariant (w : World) :
  reachable w ->
  one_vote_per_pair w
  /\ (forall op, one_vote_per_pair (run op w))
  /\ (forall v, In v (ticket_votes w) ->
        ~ one_vote_per_pair (set_ticket_votes (ticket_votes w ++ [v]) w)).
Proof.
  intros Hreach. pose proof (reachable_one_vote_per_pair w Hreach) as Hone.
  split; [exact Hone|]. split.
  - intros op. now apply one_vote_per_pair_step.
  - intros v Hin Hdup. unfold one_vote_per_pair in Hdup.
    cbn [ticket_votes set_ticket_votes] in Hdup. rewrite map_app in Hdup.
    apply NoDup_remove_2 in Hdup. apply Hdup. rewrite app_nil_r.
    now apply in_map.
Qed.

Lemma one_vote_per_pair_example :
  reachable example_run /\ one_vote_per_pair example_run.
Proof.
  split; [exact example_run_reachable|].
  exact (proj1 (one_vote_per_pair_invariant example_run example_run_reachable)).
Defined.

(** ** Status updates *)





(** ** Assignment *)



(** C8 at the failing input. An agent assigns the OPEN ticket 1 to the
    assignee 0, which is not null: the service and the endpoint store the
    assignee 0 and answer with success, yet the ticket stays OPEN, against
    the transition the code announces ("Update status to IN_PROGRESS if it
    was OPEN"); the same call with assignee 8 moves the ticket to
    IN_PROGRESS. *)
Theorem assign_ticket_zero_stays_open :
  find_ticket 1 example_created = Some example_ticket
  /\ Ticket.status example_ticket = OPEN
  /\ Some 0 <> None
  /\ option_map Ticket.assigned_to_id
       (fst (assign_ticket 1 (Some 0) example_created)) = Some (Some 0)
  /\ option_map Ticket.status
       (fst (assign_ticket 1 (Some 0) example_created)) = Some OPEN
  /\ option_map Ticket.status
       (find_ticket 1 (snd (assign_ticket 1 (Some 0) example_created)))
     = Some OPEN
  /\ (exists d,
        fst (api_assign_ticket example_agent 1 (Some 0) example_created)
        = (TicketBody (Some "Ticket assigned successfully") d, 200)
        /\ td_status d = "open"
        /\ td_relations d
           = Summary 7 (Some 0) 1 (Some "End User") None
                     (Some "Technical Support"))
  /\ option_map Ticket.status
       (fst (assign_ticket 1 (Some 8) example_created)) = Some IN_PROGRESS.
Proof.
  split; [reflexivity|]. split; [reflexivity|]. split; [discriminate|].
  split; [vm_compute; reflexivity|]. split; [vm_compute; reflexivity|].
  split; [vm_compute; reflexivity|]. split; [|vm_compute; reflexivity].
  eexists. split; [vm_compute; reflexivity|]. split; reflexivity.
Qed.

(** ** Voting twice *)





(** ** Listings *)

Lemma filter_filter {R} (p q : R -> bool) (rows : list R) :
  filter q (filter p rows) = filter (fun r => p r && q r) rows.
Proof.
  induction rows as [|r rows IH]; simpl; [reflexivity|].
  destruct (p r); simpl; [destruct (q r); now rewrite IH | exact IH].
Qed.

Lemma filter_true {R} (rows : list R) : filter (fun _ => true) rows = rows.
Proof. induction rows as [|r rows IH]; simpl; now rewrite ?IH. Qed.

Lemma filter_when {R} (c : bool) (p : R -> bool) (rows : list R) :
  (if c then filter p rows else rows)
  = filter (fun r => if c then p r else true) rows.
Proof. destruct c; [reflexivity | now rewrite filter_true]. Qed.

Lemma filtered_query_listed (user_id : option Z) (user_role : option UserRole)
  (status : option TicketStatus) (category_id : option Z)
  (search : option string) (w : World) :
  filtered_query user_id user_role status category_id search w
  = filter (listed user_id user_role status category_id search) (tickets w).
Proof.
  unfold filtered_query, listed.
  rewrite (filter_when (is_role user_role END_USER && truthy_int user_id)).
  set (q1 := filter _ (tickets w)).
  replace (match status with
           | Some s => filter (fun t => TicketStatus_eqb (Ticket.status t) s) q1
           | None => q1
           end)
    with (filter (fun t => match status with
                           | Some s => TicketStatus_eqb (Ticket.status t) s
                           | None => true
                           end) q1)
    by (destruct status; [reflexivity | apply filter_true]).
  rewrite (filter_when (truthy_int category_id)).
  set (q3 := filter _ (filter _ q1)).
  replace (match search with
           | Some text =>
               if truthy_str text
               then filter (fun t => ilike_contains (Ticket.subject t) text
                                     || ilike_contains (Ticket.description t)
                                                       text) q3
               else q3
           | None => q3
           end)
    with (filter (fun t =>
                    if truthy_opt_str search
                    then ilike_contains (Ticket.subject t)
                                        (or_default search "")
                         || ilike_contains (Ticket.description t)
                                           (or_default search "")
                    else true) q3)
    by (destruct search as [text|]; cbn [truthy_opt_str or_default];
        [now rewrite filter_when | apply filter_true]).
  subst q3 q1. rewrite !filter_filter. apply filter_ext.
  intros t. now rewrite !andb_assoc.
Qed.

(** ** What an end user can reach *)

Lemma In_insert_row {R} (key : R -> SqlValue) (descending : bool) (x y : R)
  (rows : list R) :
  In y (insert_row key descending x rows) <-> y = x \/ In y rows.
Proof.
  induction rows as [|z rows IH]; cbn [insert_row In]; [intuition|].
  destruct (before key descending x z); cbn [In]; [intuition|].
  rewrite IH. intuition.
Qed.

Lemma In_order_by {R} (key : R -> SqlValue) (descending : bool) (y : R)
  (rows : list R) :
  In y (order_by key descending rows) <-> In y rows.
Proof.
  induction rows as [|x rows IH]; cbn [order_by In]; [tauto|].
  rewrite In_insert_row, IH. intuition.
Qed.

Lemma In_paginate {R} (offset limit : Z) (rows : list R) (y : R) :
  In y (paginate offset limit rows) -> In y rows.
Proof.
  unfold paginate. intros H.
  assert (Hskip : In y (skipn (Z.to_nat offset) rows)).
  { destruct (limit <? 0); [exact H|].
    rewrite <- (firstn_skipn (Z.to_nat limit)). apply in_or_app. now left. }
  rewrite <- (firstn_skipn (Z.to_nat offset) rows). apply in_or_app.
  now right.
Qed.

Lemma In_sorted_query (w : World) (sort_by sort_order : string)
  (query sorted : list Ticket.t) (y : Ticket.t) :
  sorted_query w sort_by sort_order query = Ok sorted ->
  In y sorted -> In y query.
Proof.
  unfold sorted_query.
  destruct (String.eqb sort_by "votes");
    [|destruct (String.eqb sort_by "replies");
      [|destruct (Ticket_getattr w sort_by)]];
    intros [= <-]; rewrite ?In_order_by; tauto.
Qed.

Lemma get_tickets_end_user (uid : Z) (status : option TicketStatus)
  (category_id : option Z) (search : option string)
  (sort_by sort_order : string) (limit offset : Z) (w : World)
  (r : TicketListing) (d : TicketDict) :
  uid <> 0 ->
  get_tickets (Some uid) (Some END_USER) status category_id search
              sort_by sort_order limit offset w = Ok r ->
  In d (tl_tickets r) ->
  exists t, d = Ticket_to_dict w false t /\ In t (tickets w)
            /\ Ticket.created_by_id t = uid.
Proof.
  intros Hnz Hget Hin. unfold get_tickets in Hget.
  rewrite filtered_query_listed in Hget.
  destruct (sorted_query _ _ _ _) as [sorted|] eqn:Hs; [|discriminate].
  injection Hget as <-. cbn [tl_tickets] in Hin.
  apply in_map_iff in Hin as (t & <- & Ht).
  apply In_paginate in Ht. apply (In_sorted_query _ _ _ _ _ _ Hs) in Ht.
  apply filter_In in Ht as [Ht Hl]. exists t. split; [reflexivity|].
  split; [exact Ht|].
  unfold listed in Hl. cbn [is_role UserRole_eqb truthy_int andb] in Hl.
  apply Z.eqb_neq in Hnz. rewrite Hnz in Hl. cbn [negb] in Hl.
  apply andb_true_iff in Hl as [Hl _]. apply andb_true_iff in Hl as [Hl _].
  apply andb_true_iff in Hl as [Hl _]. cbn in Hl. now apply Z.eqb_eq.
Qed.

Lemma vote_ticket_some (ticket_id user_id : Z) (is_upvote : bool) (w : World)
  (t : Ticket.t) :
  find_ticket ticket_id w = Some t ->
  exists r w', vote_ticket ticket_id user_id is_upvote w = (Some r, w').
Proof.
  intros Hf. destruct (find_vote ticket_id user_id w) as [e|] eqn:Hv.
  - destruct (Bool.eqb (TicketVote.is_upvote e) is_upvote) eqn:Hpol.
    + apply Bool.eqb_prop in Hpol.
      rewrite (vote_ticket_removed _ _ _ _ _ _ Hf Hv Hpol). eauto.
    + assert (Hneg : TicketVote.is_upvote e = negb is_upvote)
        by (revert Hpol; clear; destruct (TicketVote.is_upvote e), is_upvote;
            simpl; intros; congruence).
      rewrite (vote_ticket_changed _ _ _ _ _ _ Hf Hv Hneg). eauto.
  - rewrite (vote_ticket_added _ _ _ _ _ Hf Hv). eauto.
Qed.

Lemma get_ticket_by_id_foreign (ticket_id uid : Z) (w : World) (t : Ticket.t) :
  find_ticket ticket_id w = Some t ->
  Ticket.created_by_id t <> uid ->
  get_ticket_by_id ticket_id (Some uid) (Some END_USER) w = None.
Proof.
  intros Hf Hne. unfold get_ticket_by_id. rewrite Hf.
  cbn [is_role UserRole_eqb opt_Z_eqb]. apply Z.eqb_neq in Hne.
  now rewrite Hne.
Qed.

(** X26: what an end user is refused. For an actor whose role is end_user:
    every ticket of a listing the actor is sent was created by the actor
    (the actor's id not being 0); fetching a ticket of another creator by
    id answers not-found; commenting on a ticket of another creator is
    refused with not-found and changes nothing. *)
Theorem end_user_access (cu : CurrentUser) (w : World) :
  cu_role cu = END_USER ->
  (cu_id cu <> 0 ->
   forall args r d,
     fst (api_get_tickets cu args w) = (ListingBody r, 200) ->
     In d (tl_tickets r) ->
     exists t, d = Ticket_to_dict w false t /\ In t (tickets w)
               /\ Ticket.created_by_id t = cu_id cu)
  /\ (forall ticket_id t,
        find_ticket ticket_id w = Some t ->
        Ticket.created_by_id t <> cu_id cu ->
        get_ticket_by_id ticket_id (Some (cu_id cu)) (Some END_USER) w = None
        /\ api_get_ticket cu ticket_id w
           = (ErrorBody "Ticket not found or access denied", 404, w)
        /\ (forall data,
              truthy_opt_str (d_content data) = true ->
              api_add_comment cu ticket_id data w
              = (ErrorBody "Ticket not found or access denied", 404, w))
        /\ (forall data, snd (api_add_comment cu ticket_id data w) = w)).
Proof.
  intros Hrole. split.
  - intros Hnz args r d Hresp Hin.
    unfold api_get_tickets, require_auth in Hresp. rewrite Hrole in Hresp.
    assert (Hlist : forall st,
      fst ((result <- get (get_tickets (Some (cu_id cu)) (Some END_USER) st
                             (arg_category_id args)
                             (Some (or_default (arg_search args) ""))
                             (or_default (arg_sort_by args) "updated_at")
                             (or_default (arg_sort_order args) "desc")
                             (or_default (arg_limit args) 20)
                             (or_default (arg_offset args) 0)) ;;
            match result with
            | Ok r => ret (ListingBody r, 200)
            | Raise _ => ret internal_error
            end) w) = (ListingBody r, 200) ->
      exists t, d = Ticket_to_dict w false t /\ In t (tickets w)
                /\ Ticket.created_by_id t = cu_id cu).
    { intros st. rewrite bind_eq. unfold get. cbn [fst snd].
      destruct (get_tickets _ _ _ _ _ _ _ _ _ w) as [r'|e] eqn:Hget;
        cbn [ret fst]; [|discriminate].
      intros [= ->]. eapply get_tickets_end_user; eauto. }
    destruct (truthy_opt_str (arg_status args)); [|now apply (Hlist None)].
    destruct (TicketStatus_of_value _) as [s|];
      [now apply (Hlist (Some s)) | discriminate].
  - intros tid t Hf Hne.
    pose proof (get_ticket_by_id_foreign _ _ _ _ Hf Hne) as Hnone.
    split; [exact Hnone|]. split; [|split].
    + unfold api_get_ticket, require_auth. rewrite bind_eq. unfold get.
      cbn [fst snd]. rewrite Hrole, Hnone. reflexivity.
    + intros data Hc. unfold api_add_comment, require_auth.
      rewrite Hc. cbn [negb]. rewrite bind_eq. unfold get. cbn [fst snd].
      rewrite Hrole, Hnone. reflexivity.
    + intros data. unfold api_add_comment, require_auth.
      destruct (negb (truthy_opt_str (d_content data))); [reflexivity|].
      rewrite bind_eq. unfold get. cbn [fst snd].
      rewrite Hrole, Hnone. reflexivity.
Qed.

Lemma end_user_access_example :
  cu_role example_end_user = END_USER
  /\ find_ticket 1 example_created = Some example_ticket
  /\ Ticket.created_by_id example_ticket <> cu_id example_end_user
  /\ api_get_ticket example_end_user 1 example_created
     = (ErrorBody "Ticket not found or access denied", 404, example_created).
Proof.
  assert (Hr : cu_role example_end_user = END_USER) by reflexivity.
  assert (Hf : find_ticket 1 example_created = Some example_ticket)
    by reflexivity.
  assert (Hne : Ticket.created_by_id example_ticket <> cu_id example_end_user)
    by discriminate.
  split; [exact Hr|]. split; [exact Hf|]. split; [exact Hne|].
  exact (proj1 (proj2 (proj2
           (end_user_access example_end_user example_created Hr)
           1 example_ticket Hf Hne))).
Defined.

(** C1 at the failing input. Ticket 1 was created by user 7. User 8, an
    end user, is refused that ticket by the fetch endpoint and by the
    comment endpoint, which first check that the caller can access it, and
    nothing changes. The vote endpoint makes no such check: the same user's
    vote on the same ticket is answered 200, the vote row is stored and the
    ticket's upvotes are raised. *)
Theorem end_user_votes_on_foreign_ticket :
  cu_role example_end_user = END_USER
  /\ option_map Ticket.created_by_id (find_ticket 1 example_created) = Some 7
  /\ cu_id example_end_user <> 7
  /\ api_get_ticket example_end_user 1 example_created
     = (ErrorBody "Ticket not found or access denied", 404, example_created)
  /\ api_add_comment example_end_user 1
       (mkCommentData (Some "Same here") None) example_created
     = (ErrorBody "Ticket not found or access denied", 404, example_created)
  /\ fst (api_vote_ticket example_end_user 1 (Some true) example_created)
     = (VoteBody "Vote added successfully"
                 (mkVoteResult "added" "upvote" 1 0 1), 200)
  /\ map vote_key
       (ticket_votes
          (snd (api_vote_ticket example_end_user 1 (Some true)
                  example_created)))
     = [(1, 8)]
  /\ option_map Ticket.upvotes
       (find_ticket 1
          (snd (api_vote_ticket example_end_user 1 (Some true)
                  example_created)))
     = Some 1.
Proof.
  split; [reflexivity|]. split; [reflexivity|]. split; [discriminate|].
  split; [reflexivity|]. split; [reflexivity|].
  repeat split; vm_compute; reflexivity.
Qed.

(** ** Creating a ticket *)

Lemma same_core_relations (w w' : World) (t : Ticket.t) :
  same_core w w' ->
  Ticket_creator w' t = Ticket_creator w t
  /\ Ticket_category w' t = Ticket_category w t.
Proof.
  intros (Hu & Hc & _). unfold Ticket_creator, Ticket_category, user_by_id.
  now rewrite Hu, Hc.
Qed.

Lemma notify_ticket_created_cons (ticket : Ticket.t) (u : User.t)
  (us : list User.t) (w : World) (cr : User.t) (cat : Category.t) :
  Ticket_creator w ticket = Some cr ->
  Ticket_category w ticket = Some cat ->
  notify_ticket_created ticket (u :: us) w
  = notify_ticket_created ticket us
      (snd (create_notification
              (User.id u)
              ("New Ticket Created: " +++ Ticket.subject ticket)
              ("A new ticket has been created by " +++ User.full_name cr
                 +++ ". Category: " +++ Category.name cat)
              "ticket_created" (Some (Ticket.id ticket)) w)).
Proof.
  intros Hcr Hcat. cbn [notify_ticket_created]. unfold bind, get.
  rewrite Hcr, Hcat.
  now destruct (create_notification _ _ _ _ _ w).
Qed.

Lemma notify_ticket_created_ok (ticket : Ticket.t) (us : list User.t)
  (w : World) :
  us = [] \/ (Ticket_creator w ticket <> None
              /\ Ticket_category w ticket <> None) ->
  exists ns,
    fst (notify_ticket_created ticket us w) = Ok tt
    /\ notifications (snd (notify_ticket_created ticket us w))
       = notifications w ++ ns
    /\ map Notification.user_id ns = map User.id us
    /\ Forall (announces ticket) ns.
Proof.
  revert w. induction us as [|u us IH]; intros w Hok.
  - exists []. cbn. now rewrite app_nil_r.
  - destruct Hok as [Hnil | [Hcr Hcat]]; [discriminate|].
    destruct (Ticket_creator w ticket) as [cr|] eqn:Ecr; [|contradiction].
    destruct (Ticket_category w ticket) as [cat|] eqn:Ecat; [|contradiction].
    rewrite (notify_ticket_created_cons _ _ _ _ _ _ Ecr Ecat).
    match goal with |- context [create_notification ?a ?b ?c ?d ?e w] =>
      pose proof (create_notification_core a b c d e w) as Hcore;
      destruct (create_notification_appends a b c d e w)
        as (Hn & Hu & _ & _ & Hty & Htid);
      set (step := create_notification a b c d e w) in *
    end.
    destruct (same_core_relations _ _ ticket Hcore) as [Hcr' Hcat'].
    destruct (IH (snd step)) as (ns & Hfst & Hnot & Hmap & Hall).
    { right. rewrite Hcr', Hcat', Ecr, Ecat. split; discriminate. }
    exists (fst step :: ns). split; [exact Hfst|]. split.
    + rewrite Hnot, Hn, <- app_assoc. reflexivity.
    + split; [cbn [map]; now rewrite Hu, Hmap|].
      constructor; [now split | exact Hall].
Qed.




(** ** Internal comments *)

(** An internal comment creates no notification. *)
Lemma internal_comment_never_notifies (ticket_id : Z) (content : string)
  (author_id : Z) (w : World) :
  notifications (snd (add_comment ticket_id content author_id true w))
  = notifications w.
Proof.
  destruct (find_ticket ticket_id w) as [t|] eqn:Hf.
  - now rewrite (add_comment_found _ _ _ _ _ _ Hf).
  - now rewrite (add_comment_absent _ _ _ _ _ Hf).
Qed.

(** C6 at the failing input. An agent writes an internal comment on
    ticket 1, which end user 7 created. No notification is created, but
    when user 7 fetches the ticket the payload of [to_dict] lists the
    internal comment with its content. *)
Lemma internal_comment_reaches_end_user :
  let owner := mkCurrentUser 7 END_USER in
  cu_role owner = END_USER
  /\ map (fun c => (TicketComment.content c, TicketComment.is_internal c))
         (ticket_comments example_noted)
     = [("Customer is on the legacy plan", true)]
  /\ notifications example_noted = notifications example_created
  /\ snd (fst (api_get_ticket owner 1 example_noted)) = 200
  /\ map (fun c => (cm_content c, cm_is_internal c))
         (response_comments (fst (api_get_ticket owner 1 example_noted)))
     = [("Customer is on the legacy plan", true)].
Proof.
  split; [reflexivity|]. split; [vm_compute; reflexivity|].
  split; [vm_compute; reflexivity|]. split; vm_compute; reflexivity.
Qed.

(** * Further properties of the services *)

(** ** The tickets table under the core operations *)

Lemma same_identity_refl (r : Ticket.t) : same_identity r r.
Proof. repeat split. Qed.

Lemma run_evolve (op : Op) (w : World) : tickets_evolve op w.
Proof.
  destruct op as [s d c u p | tid s u | tid a | tid c a i | tid u up].
  - apply (evolve_insert _ _ (new_ticket s d c u p w));
      try reflexivity.
    cbn [run]. rewrite create_ticket_eq. cbn [snd].
    destruct (create_ticket_notification_core
                (new_ticket s d c u p w)
                (with_new_ticket (new_ticket s d c u p w) w))
      as (_ & _ & Ht & _).
    now rewrite Ht.
  - destruct (find_ticket tid w) as [t|] eqn:Hf.
    + apply (evolve_update _ _ (Ticket.id t) (status_write s w)).
      * cbn [run]. rewrite (update_ticket_status_found _ _ _ _ _ Hf).
        cbn [snd].
        destruct (TicketStatus_eqb (Ticket.status t) s); [reflexivity|].
        unfold create_status_change_notification.
        match goal with |- context [create_notification ?a ?b ?c ?d ?e ?f] =>
          destruct (create_notification_core a b c d e f) as (_&_&Ht&_) end.
        now rewrite Ht.
      * intros r. destruct s; repeat split.
      * intros _ r. destruct s; split; reflexivity.
    + apply (evolve_update _ _ 0 (fun r => r)).
      * cbn [run]. rewrite (update_ticket_status_absent _ _ _ _ Hf).
        now rewrite update_where_same.
      * intros r. apply same_identity_refl.
      * intros _ r. split; reflexivity.
  - destruct (find_ticket tid w) as [t|] eqn:Hf.
    + apply (evolve_update _ _ (Ticket.id t) (assign_write a t w)).
      * cbn [run]. now rewrite (assign_ticket_found _ _ _ _ Hf).
      * intros r. unfold assign_write. destruct (_ && _); repeat split.
      * intros _ r. unfold assign_write. destruct (_ && _); split; reflexivity.
    + apply (evolve_update _ _ 0 (fun r => r)).
      * cbn [run]. rewrite (assign_ticket_absent _ _ _ Hf).
        now rewrite update_where_same.
      * intros r. apply same_identity_refl.
      * intros _ r. split; reflexivity.
  - destruct (find_ticket tid w) as [t|] eqn:Hf.
    + apply (evolve_update _ _ (Ticket.id t)
               (Ticket.set_updated_at (Some (clock w (ticks w))))).
      * cbn [run]. rewrite (add_comment_found _ _ _ _ _ _ Hf). cbn [snd].
        match goal with |- context [create_comment_notification ?a ?b ?c] =>
          destruct (create_comment_notification_core a b c) as (_&_&Ht&_)
        end.
        now rewrite Ht.
      * intros r. repeat split.
      * intros _ r. split; reflexivity.
    + apply (evolve_update _ _ 0 (fun r => r)).
      * cbn [run]. rewrite (add_comment_absent _ _ _ _ _ Hf).
        now rewrite update_where_same.
      * intros r. apply same_identity_refl.
      * intros _ r. split; reflexivity.
  - assert (Hcw : forall t t' w0 r, same_identity r (counters_write t t' w0 r)).
    { intros t t' w0 r. unfold counters_write. destruct (_ && _); repeat split. }
    cbn [is_vote].
    destruct (find_ticket tid w) as [t|] eqn:Hf.
    + destruct (find_vote tid u w) as [e|] eqn:Hv.
      * destruct (Bool.eqb (TicketVote.is_upvote e) up) eqn:Hpol.
        -- apply Bool.eqb_prop in Hpol.
           eapply (evolve_update _ _ (Ticket.id t));
             [|apply Hcw|discriminate].
           cbn [run]. rewrite (vote_ticket_removed _ _ _ _ _ _ Hf Hv Hpol).
           cbn [snd tickets set_ticket_votes].
           apply commit_counters_tickets.
        -- assert (Hneg : TicketVote.is_upvote e = negb up)
             by (revert Hpol; clear; destruct (TicketVote.is_upvote e), up;
                 simpl; intros; congruence).
           eapply (evolve_update _ _ (Ticket.id t));
             [|apply Hcw|discriminate].
           cbn [run]. rewrite (vote_ticket_changed _ _ _ _ _ _ Hf Hv Hneg).
           cbn [snd tickets set_ticket_votes].
           exact (commit_counters_tickets t _ (set_ticks (S (ticks w)) w)).
      * eapply (evolve_update _ _ (Ticket.id t)); [|apply Hcw|discriminate].
        cbn [run]. rewrite (vote_ticket_added _ _ _ _ _ Hf Hv).
        cbn [snd tickets set_ticket_votes set_ticks].
        apply commit_counters_tickets.
    + apply (evolve_update _ _ 0 (fun r => r)).
      * cbn [run]. rewrite (vote_ticket_absent _ _ _ _ Hf).
        now rewrite update_where_same.
      * intros r. apply same_identity_refl.
      * discriminate.
Qed.

(** X1: stored tickets keep their identity. Whatever core operation runs, a
    ticket that can be found by id can still be found afterwards, with the
    same id, subject, description, priority, creator, category and creation
    time, and, unless the operation is a vote, the same counters; the ids
    of the table are kept in place, at most one new id being appended. *)
Theorem ticket_identity_preserved (op : Op) (w : World) (ticket_id : Z)
  (t : Ticket.t) :
  find_ticket ticket_id w = Some t ->
  (exists t',
     find_ticket ticket_id (run op w) = Some t'
     /\ same_identity t t'
     /\ (is_vote op = false -> same_counters t t'))
  /\ exists extra,
       map Ticket.id (tickets (run op w))
       = map Ticket.id (tickets w) ++ extra
       /\ (List.length extra <= 1)%nat.
Proof.
  intros Hf. unfold find_ticket in *.
  destruct (run_evolve op w) as [n Ht _ _ _ Hv | key f Ht Hid Hcnt]; rewrite Ht.
  - split.
    + exists t. split; [now apply find_app_l|].
      split; [apply same_identity_refl | intros _; split; reflexivity].
    + exists [Ticket.id n]. rewrite map_app. split; [reflexivity | cbn; lia].
  - split.
    + rewrite find_update_where by (intros r; now destruct (Hid r) as [-> _]).
      rewrite Hf. cbn [option_map].
      destruct (Ticket.id t =? key).
      * eexists. split; [reflexivity|]. split; [apply Hid | intros H; now apply Hcnt].
      * exists t. split; [reflexivity|].
        split; [apply same_identity_refl | intros _; split; reflexivity].
    + exists []. rewrite app_nil_r. split; [|cbn; lia].
      apply map_update_where. intros r. now destruct (Hid r).
Qed.

Lemma ticket_identity_preserved_example :
  find_ticket 1 example_created = Some example_ticket
  /\ exists t',
       find_ticket 1 (run (OpUpdateStatus 1 CLOSED 1) example_created)
       = Some t'
       /\ same_identity example_ticket t'
       /\ same_counters example_ticket t'.
Proof.
  assert (Hf : find_ticket 1 example_created = Some example_ticket)
    by reflexivity.
  split; [exact Hf|].
  destruct (proj1 (ticket_identity_preserved (OpUpdateStatus 1 CLOSED 1)
                     example_created 1 example_ticket Hf))
    as (t' & Hfind & Hid & Hc).
  exists t'. split; [exact Hfind|]. split; [exact Hid | now apply Hc].
Defined.

(** ** The counters and the ledger *)

Lemma NoDup_key_eq {R} (id : R -> Z) (rows : list R) (a b : R) :
  NoDup (map id rows) -> In a rows -> In b rows -> id a = id b -> a = b.
Proof.
  induction rows as [|r rows IH]; cbn [map In]; [tauto|].
  intros Hnd Ha Hb Hid. apply NoDup_cons_iff in Hnd as [Hnot Hnd].
  destruct Ha as [-> | Ha], Hb as [-> | Hb]; auto.
  - exfalso. apply Hnot. rewrite Hid. now apply in_map.
  - exfalso. apply Hnot. rewrite <- Hid. now apply in_map.
Qed.

Lemma next_id_not_in (ids : list Z) : ~ In (next_id ids) ids.
Proof. intros H. apply next_id_fresh in H. lia. Qed.

Lemma count_delete_where {R} (id : R -> Z) (p : R -> bool) (rows : list R)
  (e : R) :
  NoDup (map id rows) -> In e rows ->
  (List.length (filter p (delete_where id (id e) rows))
   + (if p e then 1 else 0)
   = List.length (filter p rows))%nat.
Proof.
  induction rows as [|r rows IH]; cbn [map In]; [tauto|].
  intros Hnd Hin. apply NoDup_cons_iff in Hnd as [Hnot Hnd].
  unfold delete_where in *. cbn [filter].
  destruct Hin as [-> | Hin].
  - rewrite Z.eqb_refl. cbn [negb].
    replace (filter (fun r => negb (id r =? id e)) rows) with rows.
    + destruct (p e); cbn [List.length]; lia.
    + symmetry. apply forallb_filter_id, forallb_forall. intros x Hx.
      apply negb_true_iff, Z.eqb_neq. intros Heq. apply Hnot.
      rewrite <- Heq. now apply in_map.
  - assert (Hne : id r <> id e).
    { intros Heq. apply Hnot. rewrite Heq. now apply in_map. }
    apply Z.eqb_neq in Hne. rewrite Hne. cbn [negb filter].
    specialize (IH Hnd Hin). destruct (p r); cbn [List.length]; lia.
Qed.

Lemma count_update_where {R} (id : R -> Z) (p : R -> bool) (f : R -> R)
  (rows : list R) (e : R) :
  NoDup (map id rows) -> In e rows ->
  (List.length (filter p (update_where id (id e) f rows))
   + (if p e then 1 else 0)
   = List.length (filter p rows) + (if p (f e) then 1 else 0))%nat.
Proof.
  induction rows as [|r rows IH]; cbn [map In]; [tauto|].
  intros Hnd Hin. apply NoDup_cons_iff in Hnd as [Hnot Hnd].
  unfold update_where in *. cbn [map filter].
  destruct Hin as [-> | Hin].
  - rewrite Z.eqb_refl.
    fold (update_where id (id e) f rows).
    rewrite update_where_others.
    + destruct (p e), (p (f e)); cbn [List.length]; lia.
    + intros x Hx Heq. apply Hnot. rewrite <- Heq. now apply in_map.
  - assert (Hne : id r <> id e).
    { intros Heq. apply Hnot. rewrite Heq. now apply in_map. }
    apply Z.eqb_neq in Hne. rewrite Hne.
    specialize (IH Hnd Hin). destruct (p r); cbn [List.length]; lia.
Qed.

Lemma counters_consistent_votes (t : Ticket.t) (w w' : World) :
  ticket_votes w' = ticket_votes w ->
  counters_consistent t w -> counters_consistent t w'.
Proof.
  unfold counters_consistent, count_votes. intros ->. tauto.
Qed.

Lemma counters_consistent_same (r r' : Ticket.t) (w : World) :
  Ticket.id r' = Ticket.id r -> same_counters r r' ->
  counters_consistent r w -> counters_consistent r' w.
Proof.
  unfold counters_consistent. intros -> [-> ->]. tauto.
Qed.

Lemma filter_none {R} (p : R -> bool) (rows : list R) :
  (forall x, In x rows -> p x = false) -> filter p rows = [].
Proof.
  induction rows as [|r rows IH]; cbn [filter]; [reflexivity|].
  intros H. rewrite (H r) by now left. apply IH. intros x Hx. apply H.
  now right.
Qed.

Lemma ledger_consistent_quiet_step (op : Op) (w : World) :
  is_vote op = false ->
  ledger_consistent w -> ledger_consistent (run op w).
Proof.
  intros Hq (Hids & Hvids & Hone & Href & Hcnt).
  assert (Hv : ticket_votes (run op w) = ticket_votes w).
  { pose proof (run_votes op w) as H. destruct op; try exact H. discriminate. }
  unfold ledger_consistent, one_vote_per_pair, votes_reference_tickets in *.
  rewrite Hv.
  destruct (run_evolve op w) as [n Ht Hn Hu Hd _ | key f Ht Hid Hsame];
    rewrite Ht.
  - split; [|split; [exact Hvids|split; [exact Hone|split]]].
    + rewrite map_app. apply NoDup_snoc; [exact Hids|].
      cbn [map]. rewrite Hn. apply next_id_not_in.
    + intros v Hin. rewrite map_app. apply in_or_app. left. now apply Href.
    + intros t Hin. apply in_app_iff in Hin as [Hin | [<- | []]].
      * apply (counters_consistent_votes _ w); [exact Hv | now apply Hcnt].
      * unfold counters_consistent, count_votes. rewrite Hv, Hu, Hd.
        assert (Hnone : forall b,
          filter (fun v => (TicketVote.ticket_id v =? Ticket.id n)
                           && Bool.eqb (TicketVote.is_upvote v) b)
                 (ticket_votes w) = []).
        { intros b. apply filter_none. intros v Hvin.
          apply andb_false_iff. left. apply Z.eqb_neq. intros Heq.
          apply (next_id_not_in (map Ticket.id (tickets w))).
          rewrite <- Hn, <- Heq. now apply Href. }
        now rewrite !Hnone.
  - assert (Hmap : map Ticket.id (update_where Ticket.id key f (tickets w))
                   = map Ticket.id (tickets w)).
    { apply map_update_where. intros r. now destruct (Hid r). }
    rewrite Hmap.
    split; [exact Hids|split; [exact Hvids|split; [exact Hone|split]]];
      [exact Href|].
    intros t Hin. apply In_update_where in Hin as (r & Hr & ->).
    apply (counters_consistent_votes _ w); [exact Hv|].
    destruct (Ticket.id r =? key); [|now apply Hcnt].
    apply (counters_consistent_same r);
      [now destruct (Hid r) | now apply Hsame | now apply Hcnt].
Qed.

Lemma find_vote_some (ticket_id user_id : Z) (w : World) (e : TicketVote.t) :
  find_vote ticket_id user_id w = Some e ->
  In e (ticket_votes w) /\ TicketVote.ticket_id e = ticket_id
  /\ TicketVote.user_id e = user_id.
Proof.
  unfold find_vote. intros H. apply find_some in H as [Hin Hp].
  apply andb_true_iff in Hp as [H1 H2]. apply Z.eqb_eq in H1, H2. auto.
Qed.

Lemma In_counters_write (t t' : Ticket.t) (w0 w : World) (t2 : Ticket.t) :
  NoDup (map Ticket.id (tickets w)) -> In t (tickets w) ->
  In t2 (update_where Ticket.id (Ticket.id t) (counters_write t t' w0)
           (tickets w)) ->
  (Ticket.id t2 = Ticket.id t /\ Ticket.upvotes t2 = Ticket.upvotes t'
   /\ Ticket.downvotes t2 = Ticket.downvotes t')
  \/ (In t2 (tickets w) /\ Ticket.id t2 <> Ticket.id t).
Proof.
  intros Hnd Hin H2. apply In_update_where in H2 as (r & Hr & ->).
  destruct (Ticket.id r =? Ticket.id t) eqn:E.
  - left. apply Z.eqb_eq in E.
    assert (r = t) by (eapply NoDup_key_eq; eauto). subst r.
    unfold counters_write.
    destruct ((Ticket.upvotes t' =? Ticket.upvotes t)
              && (Ticket.downvotes t' =? Ticket.downvotes t)) eqn:Ec.
    + apply andb_true_iff in Ec as [E1 E2]. apply Z.eqb_eq in E1, E2. auto.
    + repeat split.
  - right. apply Z.eqb_neq in E. auto.
Qed.

Lemma ledger_consistent_vote_step (ticket_id user_id : Z) (is_upvote : bool)
  (w : World) :
  ledger_consistent w ->
  ledger_consistent (run (OpVote ticket_id user_id is_upvote) w).
Proof.
  intros (Hids & Hvids & Hone & Href & Hcnt).
  pose proof (one_vote_per_pair_step (OpVote ticket_id user_id is_upvote) w Hone)
    as Hone'.
  split; [|split; [|split; [exact Hone'|]]]; clear Hone'; cbn [run].
  1: { destruct (run_evolve (OpVote ticket_id user_id is_upvote) w)
         as [n _ _ _ _ Hq | key f Ht Hid _]; [discriminate Hq|].
       cbn [run] in Ht. rewrite Ht, map_update_where; [exact Hids|].
       intros r. now destruct (Hid r). }
  all: destruct (find_ticket ticket_id w) as [t|] eqn:Hf;
    [|rewrite (vote_ticket_absent _ _ _ _ Hf); cbn [snd]; auto].
  all: destruct (find_ticket_id _ _ _ Hf) as [Htid Hin].
  all: destruct (find_vote ticket_id user_id w) as [e|] eqn:Hv.
  all: try (destruct (find_vote_some _ _ _ _ Hv) as (He & Het & Heu)).
  all: try (destruct (Bool.eqb (TicketVote.is_upvote e) is_upvote) eqn:Hpol;
            [apply Bool.eqb_prop in Hpol;
             rewrite (vote_ticket_removed _ _ _ _ _ _ Hf Hv Hpol)
            |assert (Hneg : TicketVote.is_upvote e = negb is_upvote)
               by (revert Hpol; clear;
                   destruct (TicketVote.is_upvote e), is_upvote;
                   simpl; intros; congruence);
             rewrite (vote_ticket_changed _ _ _ _ _ _ Hf Hv Hneg)]).
  all: try rewrite (vote_ticket_added _ _ _ _ _ Hf Hv).
  all: cbn [snd ticket_votes tickets set_ticket_votes set_ticks].
  (* vote keys *)
  - unfold delete_where. now apply NoDup_map_filter.
  - now rewrite map_update_where.
  - rewrite map_app. apply NoDup_snoc; [exact Hvids | apply next_id_not_in].
  (* references and counters, branch by branch *)
  - split.
    + unfold votes_reference_tickets.
      cbn [ticket_votes tickets set_ticket_votes set_ticks]. intros v Hvin. apply In_delete_where in Hvin as [Hvin _].
      rewrite commit_counters_tickets, map_update_where
        by (intros r; unfold counters_write; now destruct (_ && _)).
      now apply Href.
    + intros t2 H2. cbn [tickets set_ticks set_ticket_votes] in H2.
      rewrite commit_counters_tickets in H2.
      pose proof (count_delete_where TicketVote.id) as Hdel.
      destruct (In_counters_write _ _ _ _ _ Hids Hin H2)
        as [(Hi & Hu & Hd) | (Hold & Hne)].
      * destruct (Hcnt t Hin) as [Hcu Hcd].
        unfold counters_consistent, count_votes in *.
        cbn [ticket_votes set_ticket_votes]. rewrite Hi, Hu, Hd.
        pose proof (Hdel (fun v => (TicketVote.ticket_id v =? Ticket.id t)
                                   && Bool.eqb (TicketVote.is_upvote v) true)
                         _ e Hvids He) as H1.
        pose proof (Hdel (fun v => (TicketVote.ticket_id v =? Ticket.id t)
                                   && Bool.eqb (TicketVote.is_upvote v) false)
                         _ e Hvids He) as H0.
        cbn beta in H1, H0. rewrite Het, Htid, Z.eqb_refl, Hpol in H1, H0.
        rewrite Htid in *. unfold removed_counters.
        destruct is_upvote; cbn [negb Bool.eqb andb] in H1, H0;
          cbn [Ticket.upvotes Ticket.downvotes Ticket.set_upvotes
               Ticket.set_downvotes]; lia.
      * destruct (Hcnt t2 Hold) as [Hcu Hcd].
        unfold counters_consistent, count_votes in *.
        cbn [ticket_votes set_ticket_votes].
        assert (Hoff : (TicketVote.ticket_id e =? Ticket.id t2) = false)
          by (apply Z.eqb_neq; congruence).
        pose proof (Hdel (fun v => (TicketVote.ticket_id v =? Ticket.id t2)
                                   && Bool.eqb (TicketVote.is_upvote v) true)
                         _ e Hvids He) as H1.
        pose proof (Hdel (fun v => (TicketVote.ticket_id v =? Ticket.id t2)
                                   && Bool.eqb (TicketVote.is_upvote v) false)
                         _ e Hvids He) as H0.
        cbn beta in H1, H0. rewrite Hoff in H1, H0. cbn in H1, H0. lia.
  - split.
    + unfold votes_reference_tickets.
      cbn [ticket_votes tickets set_ticket_votes set_ticks]. intros v Hvin. apply In_update_where in Hvin as (r & Hr & ->).
      rewrite commit_counters_tickets, map_update_where
        by (intros r0; unfold counters_write; now destruct (_ && _)).
      cbn [tickets set_ticks].
      destruct (TicketVote.id r =? TicketVote.id e);
        [change (TicketVote.ticket_id (flip_vote (clock w (ticks w)) is_upvote r))
           with (TicketVote.ticket_id r)|]; now apply Href.
    + intros t2 H2. cbn [tickets set_ticks set_ticket_votes] in H2.
      rewrite commit_counters_tickets in H2.
      cbn [tickets set_ticks] in H2.
      pose proof (fun p => count_update_where TicketVote.id p
                             (flip_vote (clock w (ticks w)) is_upvote)
                             _ e Hvids He) as Hupd.
      destruct (In_counters_write _ _ _ _ _ Hids Hin H2)
        as [(Hi & Hu & Hd) | (Hold & Hne)].
      * destruct (Hcnt t Hin) as [Hcu Hcd].
        unfold counters_consistent, count_votes in *.
        cbn [ticket_votes set_ticket_votes]. rewrite Hi, Hu, Hd.
        pose proof (Hupd (fun v => (TicketVote.ticket_id v =? Ticket.id t)
                                   && Bool.eqb (TicketVote.is_upvote v) true))
          as H1.
        pose proof (Hupd (fun v => (TicketVote.ticket_id v =? Ticket.id t)
                                   && Bool.eqb (TicketVote.is_upvote v) false))
          as H0.
        cbn beta in H1, H0. unfold flip_vote in *.
        cbn [TicketVote.ticket_id TicketVote.is_upvote
             TicketVote.set_updated_at TicketVote.set_is_upvote] in H1, H0.
        rewrite Het, Htid, Z.eqb_refl, Hneg in H1, H0.
        rewrite Htid in *. unfold changed_counters.
        destruct is_upvote; cbn [negb Bool.eqb andb] in H1, H0;
          cbn [Ticket.upvotes Ticket.downvotes Ticket.set_upvotes
               Ticket.set_downvotes]; lia.
      * destruct (Hcnt t2 Hold) as [Hcu Hcd].
        unfold counters_consistent, count_votes in *.
        cbn [ticket_votes set_ticket_votes].
        assert (Hoff : (TicketVote.ticket_id e =? Ticket.id t2) = false)
          by (apply Z.eqb_neq; congruence).
        pose proof (Hupd (fun v => (TicketVote.ticket_id v =? Ticket.id t2)
                                   && Bool.eqb (TicketVote.is_upvote v) true))
          as H1.
        pose proof (Hupd (fun v => (TicketVote.ticket_id v =? Ticket.id t2)
                                   && Bool.eqb (TicketVote.is_upvote v) false))
          as H0.
        cbn beta in H1, H0. unfold flip_vote in *.
        cbn [TicketVote.ticket_id TicketVote.is_upvote
             TicketVote.set_updated_at TicketVote.set_is_upvote] in H1, H0.
        rewrite Hoff in H1, H0. cbn in H1, H0. lia.
  - split.
    + unfold votes_reference_tickets.
      cbn [ticket_votes tickets set_ticket_votes set_ticks]. intros v Hvin.
      rewrite commit_counters_tickets, map_update_where
        by (intros r0; unfold counters_write; now destruct (_ && _)).
      apply in_app_iff in Hvin as [Hvin | [<- | []]]; [now apply Href|].
      cbn [TicketVote.ticket_id]. rewrite <- Htid. now apply in_map.
    + intros t2 H2. cbn [tickets set_ticks set_ticket_votes] in H2.
      rewrite commit_counters_tickets in H2.
      destruct (In_counters_write _ _ _ _ _ Hids Hin H2)
        as [(Hi & Hu & Hd) | (Hold & Hne)].
      * destruct (Hcnt t Hin) as [Hcu Hcd].
        unfold counters_consistent, count_votes in *.
        cbn [ticket_votes set_ticket_votes]. rewrite Hi, Hu, Hd.
        rewrite !filter_app, !length_app. cbn [filter TicketVote.ticket_id
          TicketVote.is_upvote]. rewrite Htid, Z.eqb_refl.
        rewrite Htid in *. unfold added_counters.
        destruct is_upvote;
          cbn [Bool.eqb andb List.length Ticket.upvotes Ticket.downvotes
               Ticket.set_upvotes Ticket.set_downvotes]; lia.
      * destruct (Hcnt t2 Hold) as [Hcu Hcd].
        unfold counters_consistent, count_votes in *.
        cbn [ticket_votes set_ticket_votes].
        rewrite !filter_app, !length_app. cbn [filter TicketVote.ticket_id
          TicketVote.is_upvote].
        assert (Hoff : (ticket_id =? Ticket.id t2) = false)
          by (apply Z.eqb_neq; congruence).
        rewrite Hoff. cbn. lia.
Qed.

Lemma ledger_consistent_step (op : Op) (w : World) :
  ledger_consistent w -> ledger_consistent (run op w).
Proof.
  destruct (is_vote op) eqn:E.
  - destruct op; try discriminate. apply ledger_consistent_vote_step.
  - now apply ledger_consistent_quiet_step.
Qed.

Lemma reachable_ledger_consistent (w : World) :
  reachable w -> ledger_consistent w.
Proof.
  induction 1 as [w (Ht & _ & _ & Hv & _) | w op _ IH].
  - unfold ledger_consistent, one_vote_per_pair, votes_reference_tickets.
    rewrite Ht, Hv. cbn [map].
    split; [apply NoDup_nil|]. split; [apply NoDup_nil|].
    split; [apply NoDup_nil|]. split; intros ? [].
  - now apply ledger_consistent_step.
Qed.

Lemma filter_length_pos {R} (p : R -> bool) (rows : list R) (e : R) :
  In e rows -> p e = true -> (1 <= List.length (filter p rows))%nat.
Proof.
  intros Hin Hp.
  assert (H : In e (filter p rows)) by (apply filter_In; auto).
  destruct (filter p rows); [destruct H | cbn; lia].
Qed.

(** X2: the counters are the ledger. In every reachable state the upvotes and
    downvotes of every stored ticket are the numbers of its up and down vote
    rows, ticket ids and vote ids are unique, and wherever a user's vote on
    a ticket exists the counter of its polarity is at least 1, so the clamp
    of the decrement at zero is never reached. *)
Theorem counters_match_ledger (w : World) (t : Ticket.t) :
  reachable w -> In t (tickets w) ->
  Ticket.upvotes t = count_votes (Ticket.id t) true w
  /\ Ticket.downvotes t = count_votes (Ticket.id t) false w
  /\ NoDup (map Ticket.id (tickets w))
  /\ NoDup (map TicketVote.id (ticket_votes w))
  /\ (forall user_id e,
        find_vote (Ticket.id t) user_id w = Some e ->
        1 <= (if TicketVote.is_upvote e then Ticket.upvotes t
              else Ticket.downvotes t)).
Proof.
  intros Hreach Hin.
  destruct (reachable_ledger_consistent w Hreach)
    as (Hids & Hvids & _ & _ & Hcnt).
  destruct (Hcnt t Hin) as [Hu Hd].
  split; [exact Hu|]. split; [exact Hd|]. split; [exact Hids|].
  split; [exact Hvids|].
  intros uid e He. apply find_vote_some in He as (Hein & Het & _).
  rewrite Hu, Hd. unfold count_votes.
  destruct (TicketVote.is_upvote e) eqn:Hpol.
  - pose proof (filter_length_pos
      (fun v => (TicketVote.ticket_id v =? Ticket.id t)
                && Bool.eqb (TicketVote.is_upvote v) true) _ e Hein) as H.
    cbn beta in H. rewrite Het, Z.eqb_refl, Hpol in H.
    specialize (H eq_refl). lia.
  - pose proof (filter_length_pos
      (fun v => (TicketVote.ticket_id v =? Ticket.id t)
                && Bool.eqb (TicketVote.is_upvote v) false) _ e Hein) as H.
    cbn beta in H. rewrite Het, Z.eqb_refl, Hpol in H.
    specialize (H eq_refl). lia.
Qed.

Lemma counters_match_ledger_example :
  let t := Ticket.mk 1 "Printer down" "It does not print" RESOLVED HIGH 7 None
                     1 (Some 100) (Some 114) (Some 115) None 0 2 in
  reachable example_run /\ In t (tickets example_run)
  /\ Ticket.upvotes t = count_votes 1 true example_run
  /\ Ticket.downvotes t = count_votes 1 false example_run.
Proof.
  intros t.
  assert (Hin : In t (tickets example_run)) by (vm_compute; auto).
  split; [exact example_run_reachable|]. split; [exact Hin|].
  destruct (counters_match_ledger example_run t example_run_reachable Hin)
    as (Hu & Hd & _).
  split; [exact Hu | exact Hd].
Defined.

(** ** Changing one's mind *)



(** ** Comments *)





(** ** The endpoints: who may call them and what a refusal costs *)

Lemma require_auth_staff (cu : CurrentUser) (f : M Response) (w : World) :
  require_auth ["support_agent"; "admin"] cu f w
  = if is_staff cu then f w
    else (ErrorBody "Insufficient permissions", 403, w).
Proof. unfold require_auth, is_staff. now destruct (cu_role cu). Qed.

(** X5: only agents and admins change status or assignee. An end user who
    calls the status or the assignment endpoint is answered 403 and nothing
    is changed, whatever the ticket and the body. *)
Theorem end_user_cannot_triage (cu : CurrentUser) (ticket_id : Z)
  (status : option string) (assigned_to_id : option Z) (w : World) :
  cu_role cu = END_USER ->
  api_update_ticket_status cu ticket_id status w
  = (ErrorBody "Insufficient permissions", 403, w)
  /\ api_assign_ticket cu ticket_id assigned_to_id w
     = (ErrorBody "Insufficient permissions", 403, w).
Proof.
  intros Hrole. unfold api_update_ticket_status, api_assign_ticket.
  rewrite !require_auth_staff. unfold is_staff. now rewrite Hrole.
Qed.

Lemma end_user_cannot_triage_example :
  cu_role example_end_user = END_USER
  /\ api_update_ticket_status example_end_user 1 (Some "closed")
       example_created
     = (ErrorBody "Insufficient permissions", 403, example_created).
Proof.
  split; [reflexivity|].
  exact (proj1 (end_user_cannot_triage example_end_user 1 (Some "closed")
                  None example_created eq_refl)).
Defined.



Lemma add_comment_comments (ticket_id : Z) (content : string) (author_id : Z)
  (is_internal : bool) (w : World) (t : Ticket.t) :
  find_ticket ticket_id w = Some t ->
  ticket_comments (snd (add_comment ticket_id content author_id is_internal w))
  = ticket_comments w
      ++ [new_comment ticket_id content author_id is_internal w].
Proof.
  intros Hf. rewrite (add_comment_found _ _ _ _ _ _ Hf). cbn [snd].
  match goal with |- context [create_comment_notification ?a ?b ?c] =>
    destruct (create_comment_notification_core a b c) as (_&_&_&Hc&_)
  end.
  now rewrite Hc.
Qed.

Lemma get_ticket_by_id_found (ticket_id : Z) (uid : option Z)
  (role : option UserRole) (w : World) (t : Ticket.t) :
  get_ticket_by_id ticket_id uid role w = Some t ->
  find_ticket ticket_id w = Some t.
Proof.
  unfold get_ticket_by_id. destruct (find_ticket ticket_id w); [|discriminate].
  destruct (is_role role END_USER); [|trivial].
  now destruct (negb _).
Qed.

(** X8: the internal flag is granted by role. When the caller may access the
    ticket and sends a non-empty content, the comment endpoint stores one
    comment authored by the caller, and that comment is internal exactly
    when the caller is an agent or admin and asked for it: a comment posted
    by an end user is never internal. *)
Theorem api_add_comment_internal_flag (cu : CurrentUser) (ticket_id : Z)
  (data : CommentData) (w : World) (t : Ticket.t) :
  get_ticket_by_id ticket_id (Some (cu_id cu)) (Some (cu_role cu)) w = Some t ->
  truthy_opt_str (d_content data) = true ->
  exists c,
    ticket_comments (snd (api_add_comment cu ticket_id data w))
    = ticket_comments w ++ [c]
    /\ TicketComment.ticket_id c = ticket_id
    /\ TicketComment.author_id c = cu_id cu
    /\ Some (TicketComment.content c) = d_content data
    /\ TicketComment.is_internal c
       = is_staff cu && or_default (d_is_internal data) false
    /\ (cu_role cu = END_USER -> TicketComment.is_internal c = false).
Proof.
  intros Hget Hc. pose proof (get_ticket_by_id_found _ _ _ _ _ Hget) as Hf.
  set (flag := is_staff cu && or_default (d_is_internal data) false).
  exists (new_comment ticket_id (or_default (d_content data) "") (cu_id cu)
            flag w).
  split; [|split; [reflexivity|split; [reflexivity|split; [|split]]]].
  - unfold api_add_comment, require_auth. rewrite Hc. cbn [negb].
    rewrite bind_eq. unfold get. cbn [fst snd]. rewrite Hget.
    rewrite bind_eq. cbn [fst snd].
    replace (if or_default (d_is_internal data) false
                && negb (one_of ["support_agent"; "admin"]
                           (UserRole_value (cu_role cu)))
             then false else or_default (d_is_internal data) false)
      with flag
      by (unfold flag, is_staff;
          destruct (cu_role cu), (or_default (d_is_internal data) false);
          reflexivity).
    rewrite <- (add_comment_comments ticket_id
                  (or_default (d_content data) "") (cu_id cu) flag w t Hf).
    match goal with |- context [fst (add_comment ?a ?b ?c ?d w)] =>
      destruct (fst (add_comment a b c d w)) as [[c0|]|e]
    end; reflexivity.
  - cbn [new_comment TicketComment.content].
    destruct (d_content data); [reflexivity | discriminate].
  - reflexivity.
  - intros Hrole. cbn [new_comment TicketComment.is_internal].
    unfold flag, is_staff. now rewrite Hrole.
Qed.

Lemma api_add_comment_internal_flag_example :
  let owner := mkCurrentUser 7 END_USER in
  let data := mkCommentData (Some "Still broken") (Some true) in
  get_ticket_by_id 1 (Some (cu_id owner)) (Some (cu_role owner))
                   example_created = Some example_ticket
  /\ truthy_opt_str (d_content data) = true
  /\ exists c,
       ticket_comments (snd (api_add_comment owner 1 data example_created))
       = [c]
       /\ TicketComment.is_internal c = false.
Proof.
  intros owner data.
  assert (Hg : get_ticket_by_id 1 (Some (cu_id owner)) (Some (cu_role owner))
                 example_created = Some example_ticket) by reflexivity.
  assert (Hc : truthy_opt_str (d_content data) = true) by reflexivity.
  split; [exact Hg|]. split; [exact Hc|].
  destruct (api_add_comment_internal_flag owner 1 data example_created
              example_ticket Hg Hc) as (c & Hcs & _ & _ & _ & _ & Hi).
  exists c. split; [exact Hcs | now apply Hi].
Defined.

(** ** Ordering and paging *)

Lemma sql_leb_total (a b : SqlValue) : sql_leb a b = true \/ sql_leb b a = true.
Proof.
  destruct a as [|x|s], b as [|y|t]; cbn; auto.
  - destruct (Z.leb_spec x y); [now left | right; apply Z.leb_le; lia].
  - apply String.leb_total.
Qed.

Lemma before_total {R} (key : R -> SqlValue) (descending : bool) (x y : R) :
  before key descending x y = true \/ before key descending y x = true.
Proof.
  unfold before. destruct descending; apply sql_leb_total.
Qed.

Lemma insert_row_perm {R} (key : R -> SqlValue) (descending : bool) (x : R)
  (rows : list R) :
  Permutation (insert_row key descending x rows) (x :: rows).
Proof.
  induction rows as [|y rows IH]; cbn [insert_row]; [reflexivity|].
  destruct (before key descending x y); [reflexivity|].
  rewrite IH. apply perm_swap.
Qed.

Lemma insert_row_sorted {R} (key : R -> SqlValue) (descending : bool) (x : R)
  (rows : list R) :
  Sorted (fun a b => before key descending a b = true) rows ->
  Sorted (fun a b => before key descending a b = true)
         (insert_row key descending x rows).
Proof.
  induction rows as [|y rows IH]; cbn [insert_row]; intros Hs.
  - repeat constructor.
  - destruct (before key descending x y) eqn:E.
    + constructor; [exact Hs | now constructor].
    + apply Sorted_inv in Hs as [Hs Hhd]. constructor; [now apply IH|].
      destruct rows as [|z rows]; cbn [insert_row].
      * constructor. destruct (before_total key descending x y); congruence.
      * destruct (before key descending x z).
        -- constructor. destruct (before_total key descending x y); congruence.
        -- constructor. now apply HdRel_inv in Hhd.
Qed.

Lemma order_by_perm {R} (key : R -> SqlValue) (descending : bool)
  (rows : list R) :
  Permutation (order_by key descending rows) rows.
Proof.
  induction rows as [|x rows IH]; cbn [order_by]; [reflexivity|].
  rewrite insert_row_perm. now constructor.
Qed.

Lemma order_by_sorted {R} (key : R -> SqlValue) (descending : bool)
  (rows : list R) :
  Sorted (fun a b => before key descending a b = true)
         (order_by key descending rows).
Proof.
  induction rows as [|x rows IH]; cbn [order_by]; [constructor|].
  now apply insert_row_sorted.
Qed.

Lemma paginate_length {R} (offset limit : Z) (rows : list R) :
  0 <= offset -> 0 <= limit ->
  Z.of_nat (List.length (paginate offset limit rows))
  = Z.min limit (Z.max 0 (Z.of_nat (List.length rows) - offset)).
Proof.
  intros Ho Hl. unfold paginate.
  destruct (Z.ltb_spec limit 0); [lia|].
  rewrite length_firstn, length_skipn. lia.
Qed.

Lemma firstn_plus {R} (a b : nat) (rows : list R) :
  firstn (a + b) rows = firstn a rows ++ firstn b (skipn a rows).
Proof.
  revert rows. induction a as [|a IH]; intros rows; [reflexivity|].
  destruct rows as [|r rows]; cbn [Nat.add firstn skipn app].
  - now destruct b.
  - now rewrite IH.
Qed.

Lemma paginate_next {R} (offset l1 l2 : Z) (rows : list R) :
  0 <= offset -> 0 <= l1 -> 0 <= l2 ->
  paginate offset (l1 + l2) rows
  = paginate offset l1 rows ++ paginate (offset + l1) l2 rows.
Proof.
  intros Ho H1 H2. unfold paginate.
  destruct (Z.ltb_spec (l1 + l2) 0); [lia|].
  destruct (Z.ltb_spec l1 0); [lia|].
  destruct (Z.ltb_spec l2 0); [lia|].
  rewrite !Z2Nat.inj_add by lia. rewrite firstn_plus, skipn_skipn.
  now rewrite (Nat.add_comm (Z.to_nat l1)).
Qed.

Lemma get_tickets_ok (user_id : option Z) (user_role : option UserRole)
  (status : option TicketStatus) (category_id : option Z)
  (search : option string) (sort_by sort_order : string) (limit offset : Z)
  (w : World) (r : TicketListing) :
  get_tickets user_id user_role status category_id search sort_by sort_order
              limit offset w = Ok r ->
  exists sorted,
    sorted_query w sort_by sort_order
      (filter (listed user_id user_role status category_id search) (tickets w))
    = Ok sorted
    /\ Permutation sorted
         (filter (listed user_id user_role status category_id search)
                 (tickets w))
    /\ tl_tickets r = map (Ticket_to_dict w false) (paginate offset limit sorted)
    /\ total_count r = Z.of_nat (List.length sorted)
    /\ has_more r = (offset + limit <? total_count r).
Proof.
  unfold get_tickets. rewrite filtered_query_listed.
  destruct (sorted_query _ _ _ _) as [sorted|] eqn:Hs; [|discriminate].
  intros [= <-]. exists sorted. split; [reflexivity|].
  assert (Hperm : Permutation sorted
            (filter (listed user_id user_role status category_id search)
                    (tickets w))).
  { unfold sorted_query in Hs.
    destruct (String.eqb sort_by "votes");
      [|destruct (String.eqb sort_by "replies");
        [|destruct (Ticket_getattr w sort_by)]];
      try discriminate; injection Hs as <-; try apply order_by_perm;
      reflexivity. }
  split; [exact Hperm|]. split; [reflexivity|].
  cbn [total_count has_more]. rewrite (Permutation_length Hperm).
  split; reflexivity.
Qed.

(** X10: the size of a page. For a non-negative 64-bit offset and limit a
    returned listing, whatever its sort key, holds
    [min limit (max 0 (total_count - offset))] tickets: a page with
    [has_more] is full, a page without it reaches the end of the selected
    set, and the first page with a limit of at least [total_count] holds
    every ticket of the filtered query exactly once. *)
Theorem get_tickets_page_size (user_id : option Z)
  (user_role : option UserRole) (status : option TicketStatus)
  (category_id : option Z) (search : option string)
  (sort_by sort_order : string) (limit offset : Z) (w : World)
  (r : TicketListing) :
  0 <= offset < 2 ^ 63 -> 0 <= limit < 2 ^ 63 ->
  get_tickets user_id user_role status category_id search sort_by sort_order
              limit offset w = Ok r ->
  Z.of_nat (List.length (tl_tickets r))
  = Z.min limit (Z.max 0 (total_count r - offset))
  /\ (has_more r = true -> Z.of_nat (List.length (tl_tickets r)) = limit)
  /\ (has_more r = false ->
      Z.of_nat (List.length (tl_tickets r)) = Z.max 0 (total_count r - offset))
  /\ (offset = 0 -> total_count r <= limit ->
      Permutation (tl_tickets r)
        (map (Ticket_to_dict w false)
             (filtered_query user_id user_role status category_id search w))).
Proof.
  intros [Ho _] [Hl _] Hget.
  destruct (get_tickets_ok _ _ _ _ _ _ _ _ _ _ _ Hget)
    as (sorted & _ & Hperm & Hitems & Htotal & Hmore).
  assert (Hlen : Z.of_nat (List.length (tl_tickets r))
                 = Z.min limit (Z.max 0 (total_count r - offset))).
  { rewrite Hitems, length_map, paginate_length by assumption.
    now rewrite Htotal. }
  split; [exact Hlen|]. rewrite Hlen, Hmore. split; [|split].
  - intros H. apply Z.ltb_lt in H. lia.
  - intros H. apply Z.ltb_ge in H. lia.
  - intros -> Hall. rewrite Hitems, filtered_query_listed.
    apply Permutation_map. unfold paginate.
    destruct (Z.ltb_spec limit 0); [lia|].
    cbn [Z.to_nat skipn]. rewrite firstn_all2 by lia. exact Hperm.
Qed.

(** X11: consecutive pages. In one state of the store and for one sort key,
    whenever the page at [offset] with limit [l1] is returned, so are the
    page at [offset + l1] with limit [l2] and the page at [offset] with
    limit [l1 + l2] (all numbers non-negative and within 64 bits), and the
    first two in a row are the third: paging neither skips nor repeats a
    ticket. *)
Theorem get_tickets_consecutive_pages (user_id : option Z)
  (user_role : option UserRole) (status : option TicketStatus)
  (category_id : option Z) (search : option string)
  (sort_by sort_order : string) (l1 l2 offset : Z) (w : World)
  (r1 : TicketListing) :
  0 <= offset -> 0 <= l1 -> 0 <= l2 -> offset + l1 + l2 < 2 ^ 63 ->
  get_tickets user_id user_role status category_id search sort_by sort_order
              l1 offset w = Ok r1 ->
  exists r2 r12,
    get_tickets user_id user_role status category_id search sort_by sort_order
                l2 (offset + l1) w = Ok r2
    /\ get_tickets user_id user_role status category_id search sort_by
                   sort_order (l1 + l2) offset w = Ok r12
    /\ tl_tickets r12 = tl_tickets r1 ++ tl_tickets r2
    /\ total_count r2 = total_count r1
    /\ total_count r12 = total_count r1.
Proof.
  intros Ho H1 H2 _. unfold get_tickets.
  destruct (sorted_query _ _ _ _) as [sorted|]; [|discriminate].
  intros [= <-]. eexists _, _. split; [reflexivity|]. split; [reflexivity|].
  cbn [tl_tickets total_count]. rewrite paginate_next by assumption.
  now rewrite map_app.
Qed.

Lemma Sorted_strong {R} (rel rel' : R -> R -> Prop) (rows : list R) :
  (forall a b, rel a b -> rel' a b) ->
  (forall a b c, rel' a b -> rel' b c -> rel' a c) ->
  Sorted rel rows -> StronglySorted rel' rows.
Proof.
  intros Himp Htrans. induction 1 as [|a rows Hs IH Hhd]; constructor; auto.
  destruct Hhd as [|b rows' Hab]; [constructor|].
  apply StronglySorted_inv in IH as [_ Hall]. constructor; [auto|].
  eapply Forall_impl; [|exact Hall]. intros c Hbc. eauto.
Qed.

Lemma StronglySorted_skipn {R} (rel : R -> R -> Prop) (n : nat)
  (rows : list R) :
  StronglySorted rel rows -> StronglySorted rel (skipn n rows).
Proof.
  revert rows. induction n as [|n IH]; intros rows H; [exact H|].
  destruct rows as [|r rows]; [constructor|].
  apply StronglySorted_inv in H as [H _]. now apply IH.
Qed.

Lemma StronglySorted_firstn {R} (rel : R -> R -> Prop) (n : nat)
  (rows : list R) :
  StronglySorted rel rows -> StronglySorted rel (firstn n rows).
Proof.
  revert rows. induction n as [|n IH]; intros rows H; [constructor|].
  destruct rows as [|r rows]; [constructor|].
  apply StronglySorted_inv in H as [H Hall]. cbn [firstn].
  constructor; [now apply IH|].
  apply Forall_forall. intros x Hx. rewrite Forall_forall in Hall.
  apply Hall. rewrite <- (firstn_skipn n rows). apply in_or_app. now left.
Qed.

Lemma StronglySorted_paginate {R} (rel : R -> R -> Prop) (offset limit : Z)
  (rows : list R) :
  StronglySorted rel rows -> StronglySorted rel (paginate offset limit rows).
Proof.
  intros H. unfold paginate. destruct (limit <? 0).
  - now apply StronglySorted_skipn.
  - now apply StronglySorted_firstn, StronglySorted_skipn.
Qed.

Lemma StronglySorted_map {R S} (rel : R -> R -> Prop) (rel' : S -> S -> Prop)
  (f : R -> S) (rows : list R) :
  (forall a b, rel a b -> rel' (f a) (f b)) ->
  StronglySorted rel rows -> StronglySorted rel' (map f rows).
Proof.
  intros Himp. induction 1 as [|a rows Hs IH Hall]; cbn [map]; constructor;
    [exact IH|].
  apply Forall_forall. intros y Hy. apply in_map_iff in Hy as (x & <- & Hx).
  rewrite Forall_forall in Hall. auto.
Qed.

Lemma replies_key_leb (w : World) (a b : Ticket.t) :
  sql_leb (replies_key w a) (replies_key w b) = true
  <-> Ticket_comment_count w a <= Ticket_comment_count w b.
Proof.
  unfold replies_key.
  assert (Ha : 0 <= Ticket_comment_count w a)
    by (unfold Ticket_comment_count; lia).
  assert (Hb : 0 <= Ticket_comment_count w b)
    by (unfold Ticket_comment_count; lia).
  destruct (Z.eqb_spec (Ticket_comment_count w a) 0) as [Ea|Ea],
           (Z.eqb_spec (Ticket_comment_count w b) 0) as [Eb|Eb];
    cbn [sql_leb]; rewrite ?Z.leb_le; split; intros; try lia;
    try reflexivity; discriminate.
Qed.

(** X12: listings ordered by votes or by replies. A listing requested with
    sort key "votes" comes ordered by vote score, and one requested with
    "replies" by comment count, descending when the order is "desc" and
    ascending for any other order string. *)
Theorem get_tickets_ordered (user_id : option Z)
  (user_role : option UserRole) (status : option TicketStatus)
  (category_id : option Z) (search : option string)
  (sort_by sort_order : string) (limit offset : Z) (w : World)
  (r : TicketListing) :
  get_tickets user_id user_role status category_id search sort_by sort_order
              limit offset w = Ok r ->
  (sort_by = "votes" ->
   in_order (String.eqb sort_order "desc") td_vote_score (tl_tickets r))
  /\ (sort_by = "replies" ->
      in_order (String.eqb sort_order "desc") td_comment_count (tl_tickets r)).
Proof.
  unfold get_tickets, sorted_query, in_order. intros Hget. split; intros ->.
  - cbn [String.eqb Ascii.eqb Bool.eqb] in Hget. injection Hget as <-.
    cbn [tl_tickets].
    eapply StronglySorted_map; [|apply StronglySorted_paginate;
      eapply Sorted_strong; [| |apply order_by_sorted]].
    + intros a b H. exact H.
    + intros a b H. unfold before in H. cbn [sql_leb] in H.
      cbn [Ticket_to_dict td_vote_score]. unfold Ticket.vote_score.
      destruct (String.eqb sort_order "desc"); apply Z.leb_le in H; exact H.
    + cbn beta. intros a b c.
      cbn [Ticket_to_dict td_vote_score].
      destruct (String.eqb sort_order "desc"); lia.
  - cbn [String.eqb Ascii.eqb Bool.eqb] in Hget. injection Hget as <-.
    cbn [tl_tickets].
    eapply StronglySorted_map; [|apply StronglySorted_paginate;
      eapply Sorted_strong; [| |apply order_by_sorted]].
    + intros a b H. exact H.
    + intros a b H. unfold before in H.
      cbn [Ticket_to_dict td_comment_count].
      destruct (String.eqb sort_order "desc");
        apply replies_key_leb in H; exact H.
    + cbn beta. intros a b c.
      cbn [Ticket_to_dict td_comment_count].
      destruct (String.eqb sort_order "desc"); lia.
Qed.

Lemma get_tickets_page_size_example :
  0 <= 0 < 2 ^ 63 /\ 0 <= 2 < 2 ^ 63
  /\ exists r,
       get_tickets (Some 1) (Some SUPPORT_AGENT) None None None
                   "__doc__" "desc" 2 0 example_backlog = Ok r
       /\ Z.of_nat (List.length (tl_tickets r))
          = Z.min 2 (Z.max 0 (total_count r - 0))
       /\ has_more r = true.
Proof.
  assert (Ho : 0 <= 0 < 2 ^ 63) by (split; [lia | reflexivity]).
  assert (Hl : 0 <= 2 < 2 ^ 63) by (split; [lia | reflexivity]).
  split; [exact Ho|]. split; [exact Hl|].
  destruct (get_tickets (Some 1) (Some SUPPORT_AGENT) None None None
              "__doc__" "desc" 2 0 example_backlog) as [r|e] eqn:E;
    [|vm_compute in E; discriminate].
  exists r. split; [reflexivity|]. split.
  - exact (proj1 (get_tickets_page_size _ _ _ _ _ _ _ _ _ _ r Ho Hl E)).
  - vm_compute in E. injection E as <-. reflexivity.
Defined.

Lemma get_tickets_consecutive_pages_example :
  0 <= 0 /\ 0 <= 1 /\ 0 <= 2 /\ 0 + 1 + 2 < 2 ^ 63
  /\ exists r1 r2 r12,
       get_tickets (Some 1) (Some ADMIN) None None None
                   "_foo" "asc" 1 0 example_backlog = Ok r1
       /\ get_tickets (Some 1) (Some ADMIN) None None None
                      "_foo" "asc" 2 (0 + 1) example_backlog = Ok r2
       /\ get_tickets (Some 1) (Some ADMIN) None None None
                      "_foo" "asc" (1 + 2) 0 example_backlog = Ok r12
       /\ tl_tickets r12 = tl_tickets r1 ++ tl_tickets r2.
Proof.
  split; [lia|]. split; [lia|]. split; [lia|]. split; [reflexivity|].
  destruct (get_tickets (Some 1) (Some ADMIN) None None None
              "_foo" "asc" 1 0 example_backlog) as [r1|e] eqn:E;
    [|vm_compute in E; discriminate].
  destruct (get_tickets_consecutive_pages _ _ _ _ _ _ _ 1 2 0 _ r1
              (Z.le_refl 0) (Zle_0_pos 1) (Zle_0_pos 2) eq_refl E)
    as (r2 & r12 & H2 & H12 & Hcat & _).
  exists r1, r2, r12. split; [reflexivity|]. split; [exact H2|].
  split; [exact H12 | exact Hcat].
Defined.

Lemma get_tickets_ordered_example :
  exists r,
    get_tickets (Some 1) (Some SUPPORT_AGENT) None None None
                "votes" "desc" 20 0 example_backlog = Ok r
    /\ map td_vote_score (tl_tickets r) = [2; 0; -1]
    /\ in_order true td_vote_score (tl_tickets r).
Proof.
  destruct (get_tickets (Some 1) (Some SUPPORT_AGENT) None None None
              "votes" "desc" 20 0 example_backlog) as [r|e] eqn:E;
    [|vm_compute in E; discriminate].
  exists r. split; [reflexivity|]. split.
  - vm_compute in E. injection E as <-. reflexivity.
  - exact (proj1 (get_tickets_ordered _ _ _ _ _ _ _ _ _ _ r E) eq_refl).
Defined.

(** ** Free-text search *)









(** ** services.py: NotificationService, reading and marking *)

Lemma Sorted_skipn {R} (rel : R -> R -> Prop) (n : nat) (rows : list R) :
  Sorted rel rows -> Sorted rel (skipn n rows).
Proof.
  revert rows. induction n as [|n IH]; intros rows H; [exact H|].
  destruct rows as [|r rows]; [constructor|].
  apply Sorted_inv in H as [H _]. now apply IH.
Qed.

Lemma Sorted_firstn {R} (rel : R -> R -> Prop) (n : nat) (rows : list R) :
  Sorted rel rows -> Sorted rel (firstn n rows).
Proof.
  revert n. induction rows as [|r rows IH]; intros n H.
  - destruct n; constructor.
  - destruct n as [|n]; [constructor|]. cbn [firstn].
    apply Sorted_inv in H as [H Hhd]. constructor; [now apply IH|].
    destruct rows as [|b rows]; [destruct n; constructor|].
    destruct n; [constructor|]. cbn [firstn]. constructor.
    now apply HdRel_inv in Hhd.
Qed.

Lemma Sorted_paginate {R} (rel : R -> R -> Prop) (offset limit : Z)
  (rows : list R) :
  Sorted rel rows -> Sorted rel (paginate offset limit rows).
Proof.
  intros H. unfold paginate. destruct (limit <? 0).
  - now apply Sorted_skipn.
  - now apply Sorted_firstn, Sorted_skipn.
Qed.





(** X16: one notification, one mail. [create_notification] appends exactly one
    unread notification under a fresh id (unique ids stay unique) and leaves
    tickets, comments, votes and users alone. When the recipient has a user
    row, [send_notification_email] is called once, with that user's address
    and the same title and message, and the notification is flagged as
    mailed; when the recipient is unknown the mail service is not called
    and the flag stays off. *)
Theorem create_notification_mail (user_id : Z) (title message ty : string)
  (ticket_id : option Z) (w : World) :
  let n := fst (create_notification user_id title message ty ticket_id w) in
  let w' := snd (create_notification user_id title message ty ticket_id w) in
  notifications w' = notifications w ++ [n]
  /\ Notification.is_read n = false
  /\ ~ In (Notification.id n) (map Notification.id (notifications w))
  /\ (NoDup (map Notification.id (notifications w)) ->
      NoDup (map Notification.id (notifications w')))
  /\ same_core w w'
  /\ match user_by_id w user_id with
     | Some u =>
         Notification.is_email_sent n = true
         /\ outbox w' = outbox w ++ [(User.email u, title, message)]
     | None =>
         Notification.is_email_sent n = false /\ outbox w' = outbox w
     end.
Proof.
  cbv zeta.
  destruct (create_notification_appends user_id title message ty ticket_id w)
    as (Happ & _).
  pose proof (create_notification_core user_id title message ty ticket_id w)
    as Hcore.
  assert (Hrest :
    Notification.is_read
      (fst (create_notification user_id title message ty ticket_id w)) = false
    /\ Notification.id
         (fst (create_notification user_id title message ty ticket_id w))
       = next_id (map Notification.id (notifications w))
    /\ match user_by_id w user_id with
       | Some u =>
           Notification.is_email_sent
             (fst (create_notification user_id title message ty ticket_id w))
           = true
           /\ outbox (snd (create_notification user_id title message ty
                             ticket_id w))
              = outbox w ++ [(User.email u, title, message)]
       | None =>
           Notification.is_email_sent
             (fst (create_notification user_id title message ty ticket_id w))
           = false
           /\ outbox (snd (create_notification user_id title message ty
                             ticket_id w))
              = outbox w
       end).
  { unfold create_notification, send_notification_email, bind, utcnow, get,
      modify, ret. cbn [fst snd].
    change (user_by_id (set_notifications _ _) user_id)
      with (user_by_id w user_id).
    destruct (user_by_id w user_id); repeat split. }
  destruct Hrest as (Hread & Hid & Hmail).
  split; [exact Happ|]. split; [exact Hread|]. split.
  { rewrite Hid. apply next_id_not_in. }
  split; [|split; [exact Hcore | exact Hmail]].
  intros Hnd. rewrite Happ, map_app. apply NoDup_snoc; [exact Hnd|].
  cbn [map]. rewrite Hid. apply next_id_not_in.
Qed.

(** ** services.py: DashboardService *)

Lemma count_status_total (query : list Ticket.t) :
  count_status OPEN query + count_status IN_PROGRESS query
  + count_status RESOLVED query + count_status CLOSED query
  = Z.of_nat (List.length query).
Proof.
  unfold count_status. induction query as [|t query IH]; [reflexivity|].
  cbn [filter List.length]. destruct (Ticket.status t);
    cbn [TicketStatus_eqb List.length]; lia.
Qed.

(** X17: the dashboard counts. The four per-status counts add up to the
    total, and the total is the number of tickets the caller may see: those
    the caller created for an end user (with a non-zero id), all tickets
    otherwise. The recent tickets are at most ten of these, newest first. *)
Theorem dashboard_counts (user_id : option Z) (user_role : option UserRole)
  (w : World) :
  let stats := get_dashboard_stats user_id user_role w in
  let counts := ticket_counts stats in
  let visible :=
    filter (fun t => if is_role user_role END_USER && truthy_int user_id
                     then opt_Z_eqb (Some (Ticket.created_by_id t)) user_id
                     else true)
           (tickets w) in
  tc_open counts + tc_in_progress counts + tc_resolved counts
  + tc_closed counts = tc_total counts
  /\ tc_total counts = Z.of_nat (List.length visible)
  /\ (List.length (recent_tickets stats) <= 10)%nat
  /\ (forall d, In d (recent_tickets stats) ->
        exists t, In t visible /\ d = Ticket_to_dict w false t)
  /\ Sorted (fun a b => sql_leb (sql_opt (td_created_at b))
                                (sql_opt (td_created_at a)) = true)
            (recent_tickets stats).
Proof.
  cbv zeta. unfold get_dashboard_stats.
  cbn [ticket_counts recent_tickets tc_open tc_in_progress tc_resolved
       tc_closed tc_total].
  rewrite filter_when.
  set (base := filter _ (tickets w)).
  split; [apply count_status_total|]. split; [reflexivity|].
  split; [|split].
  - rewrite length_map. unfold paginate. cbn [Z.ltb Z.compare Z.to_nat skipn].
    rewrite length_firstn. cbn. lia.
  - intros d Hin. apply in_map_iff in Hin as (t & <- & Hin).
    apply In_paginate, In_order_by in Hin. eauto.
  - pose proof (Sorted_paginate _ 0 10 _
                  (order_by_sorted (fun t => sql_opt (Ticket.created_at t))
                                   true base)) as Hs.
    induction Hs as [|a l Hs IH Hhd]; cbn [map]; constructor; [exact IH|].
    destruct Hhd; cbn [map]; constructor. exact H.
Qed.

Lemma StronglySorted_app_rel {R} (rel : R -> R -> Prop) (l1 l2 : list R)
  (x y : R) :
  StronglySorted rel (l1 ++ l2) -> In x l1 -> In y l2 -> rel x y.
Proof.
  induction l1 as [|a l1 IH]; cbn [app In]; [tauto|].
  intros H Hx Hy. apply StronglySorted_inv in H as [H Hall].
  destruct Hx as [-> | Hx]; [|auto].
  rewrite Forall_forall in Hall. apply Hall, in_or_app. now right.
Qed.

(** X18: the staff part of the dashboard. For an admin or agent the top voted
    tickets are at most five stored tickets in descending order of vote
    score, and no ticket left out has a higher score than a listed one. For
    every other caller the top voted tickets and the most active users are
    absent. *)
Theorem dashboard_top_voted (user_id : option Z) (user_role : option UserRole)
  (w : World) :
  let stats := get_dashboard_stats user_id user_role w in
  (user_role = Some ADMIN \/ user_role = Some SUPPORT_AGENT ->
   exists top,
     top_voted_tickets stats = Some top
     /\ (List.length top <= 5)%nat
     /\ in_order true td_vote_score top
     /\ (forall d, In d top ->
           exists t, In t (tickets w) /\ d = Ticket_to_dict w false t)
     /\ (forall t d, In t (tickets w) ->
           ~ In (Ticket_to_dict w false t) top -> In d top ->
           Ticket.vote_score t <= td_vote_score d))
  /\ (user_role <> Some ADMIN -> user_role <> Some SUPPORT_AGENT ->
      top_voted_tickets stats = None /\ most_active_users stats = None).
Proof.
  cbv zeta. unfold get_dashboard_stats.
  cbn [top_voted_tickets most_active_users]. split.
  - intros Hstaff.
    assert (Hs : is_role user_role ADMIN || is_role user_role SUPPORT_AGENT
                 = true) by (destruct Hstaff as [-> | ->]; reflexivity).
    rewrite Hs. eexists. split; [reflexivity|].
    set (key := fun t => SqlInt (Ticket.upvotes t - Ticket.downvotes t)).
    set (sorted := order_by key true (tickets w)).
    assert (Hstrong : StronglySorted
              (fun a b => Ticket.vote_score b <= Ticket.vote_score a) sorted).
    { eapply Sorted_strong; [| |apply order_by_sorted].
      - intros a b H. unfold before, key in H. cbn [sql_leb] in H.
        apply Z.leb_le in H. exact H.
      - cbn beta. intros; lia. }
    split; [|split; [|split]].
    + rewrite length_map. unfold paginate.
      cbn [Z.ltb Z.compare Z.to_nat skipn]. rewrite length_firstn. cbn. lia.
    + unfold in_order. eapply StronglySorted_map;
        [|apply StronglySorted_paginate; exact Hstrong].
      intros a b H. exact H.
    + intros d Hin. apply in_map_iff in Hin as (t & <- & Hin).
      apply In_paginate in Hin. apply In_order_by in Hin. eauto.
    + intros t d Ht Hout Hd. apply in_map_iff in Hd as (x & <- & Hx).
      unfold paginate in *. cbn [Z.ltb Z.compare Z.to_nat skipn] in *.
      fold sorted in Hx, Hout.
      assert (Hts : In t sorted) by now apply In_order_by.
      rewrite <- (firstn_skipn (Pos.to_nat 5) sorted) in Hts, Hstrong.
      apply in_app_iff in Hts as [Hts | Hts].
      * exfalso. apply Hout. now apply in_map.
      * exact (StronglySorted_app_rel _ _ _ x t Hstrong Hx Hts).
  - intros Ha Hs.
    assert (Hn : is_role user_role ADMIN || is_role user_role SUPPORT_AGENT
                 = false).
    { destruct user_role as [[]|]; try reflexivity; congruence. }
    now rewrite Hn.
Qed.

Lemma dashboard_top_voted_example :
  (Some SUPPORT_AGENT = Some ADMIN \/ Some SUPPORT_AGENT = Some SUPPORT_AGENT)
  /\ exists top,
       top_voted_tickets
         (get_dashboard_stats (Some 1) (Some SUPPORT_AGENT) example_backlog)
       = Some top
       /\ map td_vote_score top = [2; 0; -1].
Proof.
  split; [now right|].
  destruct (proj1 (dashboard_top_voted (Some 1) (Some SUPPORT_AGENT)
                     example_backlog) (or_intror eq_refl))
    as (top & Htop & _).
  exists top. split; [exact Htop|].
  vm_compute in Htop. injection Htop as <-. reflexivity.
Defined.

Lemma dashboard_counts_example :
  let counts :=
    ticket_counts (get_dashboard_stats (Some 7) (Some END_USER)
                     example_backlog) in
  tc_open counts + tc_in_progress counts + tc_resolved counts
  + tc_closed counts = tc_total counts
  /\ tc_total counts = 2.
Proof.
  intros counts. split; [|reflexivity].
  exact (proj1 (dashboard_counts (Some 7) (Some END_USER) example_backlog)).
Defined.

Lemma bump_sum {K} (eqb : K -> K -> bool) (k : K) (groups : list (K * Z)) :
  fold_right Z.add 0 (map snd (bump eqb k groups))
  = fold_right Z.add 0 (map snd groups) + 1.
Proof.
  induction groups as [|[k' n] groups IH]; cbn [bump map snd fold_right];
    [lia|].
  destruct (eqb k' k); cbn [map snd fold_right]; lia.
Qed.

Lemma bump_positive {K} (eqb : K -> K -> bool) (k : K)
  (groups : list (K * Z)) :
  Forall (fun g => 1 <= snd g) groups ->
  Forall (fun g => 1 <= snd g) (bump eqb k groups).
Proof.
  induction 1 as [|[k' n] groups Hn Hall IH]; cbn [bump].
  - constructor; [cbn; lia | constructor].
  - cbn [snd] in Hn. destruct (eqb k' k); constructor; cbn [snd]; auto; lia.
Qed.

Lemma bump_keys_in {K} (eqb : K -> K -> bool) (k x : K)
  (groups : list (K * Z)) :
  In x (map fst (bump eqb k groups)) -> x = k \/ In x (map fst groups).
Proof.
  induction groups as [|[k' n] groups IH]; cbn [bump map fst In].
  - intros [<- | []]. now left.
  - destruct (eqb k' k); cbn [map fst In]; [tauto|].
    intros [<- | Hx]; [tauto|]. destruct (IH Hx); tauto.
Qed.

Lemma bump_keys {K} (eqb : K -> K -> bool) (k : K) (groups : list (K * Z)) :
  (forall a b, eqb a b = true <-> a = b) ->
  NoDup (map fst groups) -> NoDup (map fst (bump eqb k groups)).
Proof.
  intros Heq. induction groups as [|[k' n] groups IH]; cbn [bump map fst];
    intros Hnd.
  - constructor; [intros [] | constructor].
  - apply NoDup_cons_iff in Hnd as [Hnot Hnd].
    destruct (eqb k' k) eqn:E; cbn [map fst]; [now constructor|].
    constructor; [|now apply IH].
    intros Hin. apply bump_keys_in in Hin as [-> | Hold]; [|contradiction].
    assert (eqb k k = true) by now apply Heq. congruence.
Qed.

Lemma group_count_spec {K} (eqb : K -> K -> bool) (keys : list K) :
  (forall a b, eqb a b = true <-> a = b) ->
  let groups := group_count eqb keys in
  fold_right Z.add 0 (map snd groups) = Z.of_nat (List.length keys)
  /\ Forall (fun g => 1 <= snd g) groups
  /\ NoDup (map fst groups).
Proof.
  intros Heq. unfold group_count.
  assert (H : forall acc,
    Forall (fun g => 1 <= snd g) acc -> NoDup (map fst acc) ->
    fold_right Z.add 0
      (map snd (fold_left (fun groups k => bump eqb k groups) keys acc))
    = fold_right Z.add 0 (map snd acc) + Z.of_nat (List.length keys)
    /\ Forall (fun g => 1 <= snd g)
         (fold_left (fun groups k => bump eqb k groups) keys acc)
    /\ NoDup (map fst (fold_left (fun groups k => bump eqb k groups)
                         keys acc))).
  { induction keys as [|k keys IH]; intros acc Hpos Hnd;
      cbn [fold_left List.length].
    - split; [lia | auto].
    - destruct (IH (bump eqb k acc)) as (Hs & Hp & Hn);
        [now apply bump_positive | now apply bump_keys|].
      rewrite bump_sum in Hs. split; [lia | auto]. }
  destruct (H []) as (Hs & Hp & Hn); [constructor | constructor|].
  cbn in Hs. auto.
Qed.

Lemma filter_or_length {R} (p q : R -> bool) (rows : list R) :
  (forall r, In r rows -> p r = true -> q r = false) ->
  List.length (filter (fun r => p r || q r) rows)
  = (List.length (filter p rows) + List.length (filter q rows))%nat.
Proof.
  induction rows as [|r rows IH]; intros H; [reflexivity|].
  assert (IH' := IH (fun x Hx => H x (or_intror Hx))).
  pose proof (H r (or_introl eq_refl)) as Hr.
  cbn [filter]. destruct (p r), (q r); cbn [orb List.length];
    try (specialize (Hr eq_refl); discriminate); lia.
Qed.

Lemma join_length {C T S} (cid : C -> Z) (tid : T -> Z) (g : C -> T -> S)
  (cs : list C) (ts : list T) :
  NoDup (map cid cs) ->
  List.length
    (flat_map (fun c => map (g c) (filter (fun t => tid t =? cid c) ts)) cs)
  = List.length (filter (fun t => existsb (fun c => cid c =? tid t) cs) ts).
Proof.
  induction cs as [|c cs IH]; cbn [flat_map existsb map]; intros Hnd.
  - now rewrite filter_none.
  - apply NoDup_cons_iff in Hnd as [Hnot Hnd].
    rewrite length_app, length_map, IH by exact Hnd.
    rewrite filter_or_length.
    + f_equal. f_equal. apply filter_ext. intros t. apply Z.eqb_sym.
    + intros t _ Hc. apply Z.eqb_eq in Hc.
      apply not_true_is_false. intros Hex.
      apply existsb_exists in Hex as (c' & Hin & Heq).
      apply Z.eqb_eq in Heq. apply Hnot. rewrite Hc, <- Heq.
      now apply in_map.
Qed.

(** X19: the category distribution of the dashboard. It is the same for
    every caller (it is not narrowed to an end user's own tickets), names
    each category at most once and only with a positive count; when
    category ids are unique the counts add up to the number of tickets
    whose category exists. *)
Theorem dashboard_category_distribution (user_id : option Z)
  (user_role : option UserRole) (w : World) :
  let dist := category_distribution
                (get_dashboard_stats user_id user_role w) in
  dist = category_distribution (get_dashboard_stats None None w)
  /\ NoDup (map fst dist)
  /\ Forall (fun g => 1 <= snd g) dist
  /\ (NoDup (map Category.id (categories w)) ->
      fold_right Z.add 0 (map snd dist)
      = Z.of_nat (List.length
          (filter (fun t => existsb (fun c => Category.id c
                                              =? Ticket.category_id t)
                                    (categories w))
                  (tickets w)))).
Proof.
  cbv zeta. unfold get_dashboard_stats. cbn [category_distribution].
  split; [reflexivity|].
  match goal with |- context [group_count String.eqb ?keys] =>
    destruct (group_count_spec String.eqb keys String.eqb_eq)
      as (Hsum & Hpos & Hnd)
  end.
  split; [exact Hnd|]. split; [exact Hpos|].
  intros Hids. rewrite Hsum. f_equal.
  exact (join_length Category.id Ticket.category_id
           (fun c _ => Category.name c) (categories w) (tickets w) Hids).
Qed.

Lemma dashboard_category_distribution_example :
  let dist := category_distribution
                (get_dashboard_stats (Some 7) (Some END_USER) example_backlog)
  in
  NoDup (map Category.id (categories example_backlog))
  /\ dist = [("Technical Support", 3)]
  /\ fold_right Z.add 0 (map snd dist)
     = Z.of_nat (List.length
         (filter (fun t => existsb (fun c => Category.id c
                                             =? Ticket.category_id t)
                                   (categories example_backlog))
                 (tickets example_backlog))).
Proof.
  intros dist.
  assert (Hnd : NoDup (map Category.id (categories example_backlog))).
  { vm_compute. constructor; [intros [] | constructor]. }
  split; [exact Hnd|]. split; [reflexivity|].
  exact (proj2 (proj2 (proj2
           (dashboard_category_distribution (Some 7) (Some END_USER)
              example_backlog))) Hnd).
Defined.

(** ** Attachments: lookup and download *)



(** ** services.py: CategoryService *)

Lemma create_category_taken (name description color : string) (w : World)
  (c : Category.t) :
  find (fun c => String.eqb (Category.name c) name) (categories w) = Some c ->
  create_category name description color w
  = (Raise ("Category '" +++ name +++ "' already exists"), w).
Proof.
  intros H. unfold create_category, bind, get. now rewrite H.
Qed.

Lemma create_category_free (name description color : string) (w : World) :
  find (fun c => String.eqb (Category.name c) name) (categories w) = None ->
  let c := Category.mk (next_id (map Category.id (categories w)))
                       name description color true in
  create_category name description color w
  = (Ok c, set_categories (categories w ++ [c]) (set_ticks (S (ticks w)) w)).
Proof.
  intros H c. unfold create_category, bind, get. now rewrite H.
Qed.

Lemma find_all_false {R} (p : R -> bool) (rows : list R) :
  (forall x, In x rows -> p x = false) -> find p rows = None.
Proof.
  induction rows as [|r rows IH]; intros H; [reflexivity|].
  cbn [find]. rewrite (H r) by now left. apply IH. intros x Hx. apply H.
  now right.
Qed.

(** X21: category names are kept unique by [create_category]. A name already
    stored is refused with an error and nothing changes. A new name is
    stored as one active category under a fresh id, which
    [get_category_by_id] then returns; the categories stored before are as
    they were, and names and ids that were unique remain unique. *)
Theorem create_category_contract (name description color : string)
  (w : World) :
  match find (fun c => String.eqb (Category.name c) name) (categories w) with
  | Some _ =>
      exists e, create_category name description color w = (Raise e, w)
  | None =>
      exists c w',
        create_category name description color w = (Ok c, w')
        /\ categories w' = categories w ++ [c]
        /\ Category.name c = name
        /\ Category.description c = description
        /\ Category.color c = color
        /\ Category.is_active c = true
        /\ get_category_by_id (Category.id c) w' = Some c
        /\ (NoDup (map Category.name (categories w)) ->
            NoDup (map Category.name (categories w')))
        /\ (NoDup (map Category.id (categories w)) ->
            NoDup (map Category.id (categories w')))
        /\ tickets w' = tickets w /\ users w' = users w
  end.
Proof.
  destruct (find _ (categories w)) as [c0|] eqn:Hf.
  - eexists. now apply (create_category_taken _ _ _ _ c0).
  - rewrite (create_category_free _ _ _ _ Hf). cbv zeta.
    eexists _, _. split; [reflexivity|].
    cbn [categories set_categories set_ticks tickets users Category.name
         Category.description Category.color Category.is_active Category.id].
    split; [reflexivity|]. split; [reflexivity|]. split; [reflexivity|].
    split; [reflexivity|]. split; [reflexivity|].
    split; [|split; [|split; [|split; reflexivity]]].
    + unfold get_category_by_id. cbn [categories set_categories].
      rewrite find_app_none.
      * cbn [find Category.id Category.is_active]. now rewrite Z.eqb_refl.
      * apply find_all_false. intros x Hx. apply andb_false_iff. left.
        apply Z.eqb_neq.
        pose proof (next_id_fresh (map Category.id (categories w))
                      (Category.id x) (in_map _ _ _ Hx)). lia.
    + intros Hnd. rewrite map_app. apply NoDup_snoc; [exact Hnd|].
      cbn [map Category.name]. intros Hin.
      apply in_map_iff in Hin as (x & Hname & Hx).
      pose proof (find_none _ _ Hf x Hx) as Hne. cbn beta in Hne.
      rewrite Hname, String.eqb_refl in Hne. discriminate.
    + intros Hnd. rewrite map_app. apply NoDup_snoc; [exact Hnd|].
      apply next_id_not_in.
Qed.

(** X22: the category endpoints. Only an admin creates categories: every other
    role, agents included, is answered 403 and nothing changes. For an
    admin a missing or empty name and a name already taken are answered 400
    without any change; a new name is answered 201 and the category then
    appears in the category listing, which shows active categories only. *)
Theorem api_create_category_outcomes (cu : CurrentUser) (data : CategoryData)
  (w : World) :
  (cu_role cu <> ADMIN ->
   api_create_category cu data w
   = (CategoryError "Insufficient permissions", 403, w))
  /\ (cu_role cu = ADMIN -> truthy_opt_str (d_name data) = false ->
      api_create_category cu data w
      = (CategoryError "Category name is required", 400, w))
  /\ (cu_role cu = ADMIN -> truthy_opt_str (d_name data) = true ->
      match find (fun c => String.eqb (Category.name c)
                                      (or_default (d_name data) ""))
                 (categories w) with
      | Some _ =>
          exists e, api_create_category cu data w = (CategoryError e, 400, w)
      | None =>
          exists c w',
            api_create_category cu data w
            = (CategoryCreated "Category created successfully" c, 201, w')
            /\ Some (cd_name c) = d_name data
            /\ In c (listed_categories (api_get_categories cu w'))
      end)
  /\ (forall c, In c (listed_categories (api_get_categories cu w)) ->
        cd_is_active c = true).
Proof.
  split; [|split; [|split]].
  - intros Hrole. unfold api_create_category.
    destruct (cu_role cu); try reflexivity. now elim Hrole.
  - intros Hrole Hname. unfold api_create_category.
    now rewrite Hrole, Hname.
  - intros Hrole Hname. unfold api_create_category. rewrite Hrole, Hname.
    cbn [UserRole_value one_of existsb String.eqb Ascii.eqb Bool.eqb orb negb].
    rewrite bind_eq.
    destruct (find _ (categories w)) as [c0|] eqn:Hf.
    + rewrite (create_category_taken _ _ _ _ c0 Hf). eexists. reflexivity.
    + rewrite (create_category_free _ _ _ _ Hf). cbv zeta. cbn [fst snd ret].
      eexists _, _. split; [reflexivity|].
      cbn [Category_to_dict cd_name Category.name]. split.
      * destruct (d_name data); [reflexivity | discriminate].
      * unfold api_get_categories, listed_categories, get_categories.
        cbn [fst categories set_categories]. apply in_map.
        apply filter_In. split; [|reflexivity]. apply in_or_app. right.
        now left.
  - intros c Hin. unfold api_get_categories, listed_categories,
      get_categories in Hin. cbn [fst] in Hin.
    apply in_map_iff in Hin as (x & <- & Hx).
    apply filter_In in Hx as [_ Hx]. exact Hx.
Qed.

Lemma api_create_category_example :
  cu_role example_agent <> ADMIN
  /\ api_create_category example_agent
       (mkCategoryData (Some "Hardware") None None) example_world
     = (CategoryError "Insufficient permissions", 403, example_world).
Proof.
  assert (H : cu_role example_agent <> ADMIN) by discriminate.
  split; [exact H|].
  exact (proj1 (api_create_category_outcomes example_agent
                  (mkCategoryData (Some "Hardware") None None) example_world)
               H).
Defined.

Lemma create_category_example :
  find (fun c => String.eqb (Category.name c) "Hardware")
       (categories example_world) = None
  /\ exists c w',
       create_category "Hardware" "Devices" "#000000" example_world
       = (Ok c, w')
       /\ get_category_by_id (Category.id c) w' = Some c.
Proof.
  split; [reflexivity|].
  pose proof (create_category_contract "Hardware" "Devices" "#000000"
                example_world) as H.
  cbn [find categories example_world] in H.
  destruct H as (c & w' & Hrun & _ & _ & _ & _ & _ & Hget & _).
  exists c, w'. split; [exact Hrun | exact Hget].
Defined.

(** ** Enumeration values *)

(** X23: status and priority strings. Parsing the value of a status or of a
    priority gives that member back, and a string that parses is the value
    of the member it parses to; in particular the four status strings and
    the four priority strings are the only ones accepted. *)
Theorem enum_values_round_trip (text : string) :
  (forall s, TicketStatus_of_value (TicketStatus_value s) = Some s)
  /\ (forall p, TicketPriority_of_value (TicketPriority_value p) = Some p)
  /\ (forall s, TicketStatus_of_value text = Some s ->
                TicketStatus_value s = text)
  /\ (forall p, TicketPriority_of_value text = Some p ->
                TicketPriority_value p = text).
Proof.
  split; [intros []; reflexivity|]. split; [intros []; reflexivity|].
  split.
  - intros s. unfold TicketStatus_of_value.
    repeat match goal with
    | |- context [String.eqb text ?v] =>
        destruct (String.eqb_spec text v) as [->|_];
        [intros [= <-]; reflexivity|]
    end.
    discriminate.
  - intros p. unfold TicketPriority_of_value.
    repeat match goal with
    | |- context [String.eqb text ?v] =>
        destruct (String.eqb_spec text v) as [->|_];
        [intros [= <-]; reflexivity|]
    end.
    discriminate.
Qed.

Lemma enum_values_round_trip_example :
  TicketStatus_of_value "in_progress" = Some IN_PROGRESS
  /\ TicketStatus_value IN_PROGRESS = "in_progress".
Proof.
  split; [reflexivity|].
  exact (proj1 (proj2 (proj2 (enum_values_round_trip "in_progress")))
               IN_PROGRESS eq_refl).
Defined.

(** ** Creating a ticket, whatever happens to the announcements *)

Lemma notify_ticket_created_raises (ticket : Ticket.t) (u : User.t)
  (us : list User.t) (w : World) :
  Ticket_creator w ticket = None \/ Ticket_category w ticket = None ->
  notify_ticket_created ticket (u :: us) w = (Raise "AttributeError", w).
Proof.
  intros H. cbn [notify_ticket_created]. unfold bind, get.
  destruct (Ticket_creator w ticket); [|reflexivity].
  destruct H as [H | ->]; [discriminate | reflexivity].
Qed.

(** X24: [create_ticket] stores the ticket before it announces it. For a
    category id and a creator id within 64 bits, the new
    row is appended under an id no ticket had, with the given fields, and is
    found by that id afterwards, while every ticket stored before is found
    as before. The call raises exactly when somebody is to be notified and
    the creator or the category has no row; the ticket is stored all the
    same and no notification is created. *)
Theorem create_ticket_outcomes (subject description : string)
  (category_id created_by_id : Z) (priority : TicketPriority) (w : World) :
  int64 category_id = true -> int64 created_by_id = true ->
  let t := new_ticket subject description category_id created_by_id
                      priority w in
  let run := create_ticket subject description category_id created_by_id
                           priority w in
  tickets (snd run) = tickets w ++ [t]
  /\ ~ In (Ticket.id t) (map Ticket.id (tickets w))
  /\ find_ticket (Ticket.id t) (snd run) = Some t
  /\ (forall ticket_id t0, find_ticket ticket_id w = Some t0 ->
        find_ticket ticket_id (snd run) = Some t0)
  /\ if match users_to_notify w with [] => false | _ => true end
        && (match user_by_id w created_by_id with None => true | _ => false end
            || match find (fun c => Category.id c =? category_id)
                          (categories w)
               with None => true | _ => false end)
     then fst run = Raise "AttributeError"
          /\ notifications (snd run) = notifications w
     else fst run = Ok t.
Proof.
  intros _ _. cbv zeta. rewrite create_ticket_eq. cbv zeta. cbn [fst snd].
  set (t := new_ticket subject description category_id created_by_id
                       priority w).
  set (w1 := with_new_ticket t w).
  destruct (create_ticket_notification_core t w1) as (_ & _ & Ht & _).
  assert (Hfresh : ~ In (Ticket.id t) (map Ticket.id (tickets w)))
    by apply next_id_not_in.
  assert (Hnone : find_ticket (Ticket.id t) w = None).
  { unfold find_ticket. apply find_all_false. intros x Hx.
    apply Z.eqb_neq. intros Heq. apply Hfresh. rewrite <- Heq.
    now apply in_map. }
  split; [now rewrite Ht|]. split; [exact Hfresh|]. split; [|split].
  - unfold find_ticket in *. rewrite Ht. cbn [w1 with_new_ticket tickets
      set_tickets]. rewrite find_app_none by exact Hnone.
    cbn [find]. now rewrite Z.eqb_refl.
  - intros tid t0 H0. unfold find_ticket in *. rewrite Ht.
    cbn [w1 with_new_ticket tickets set_tickets]. now apply find_app_l.
  - unfold create_ticket_notification. rewrite bind_eq. unfold get.
    cbn [fst snd].
    change (users_to_notify w1) with (users_to_notify w).
    destruct (users_to_notify w) as [|u us] eqn:Hu; cbn [andb].
    + reflexivity.
    + change (user_by_id w created_by_id) with (Ticket_creator w1 t).
      change (find (fun c => Category.id c =? category_id) (categories w))
        with (Ticket_category w1 t).
      destruct (Ticket_creator w1 t) as [cr|] eqn:Ecr; cbn [orb].
      * destruct (Ticket_category w1 t) as [cat|] eqn:Ecat.
        -- destruct (notify_ticket_created_ok t (u :: us) w1) as (ns & Hfst & _).
           { right. rewrite Ecr, Ecat. split; discriminate. }
           now rewrite Hfst.
        -- rewrite notify_ticket_created_raises by now right.
           split; reflexivity.
      * rewrite notify_ticket_created_raises by now left.
        split; reflexivity.
Qed.

Lemma create_ticket_outcomes_example :
  int64 99 = true /\ int64 7 = true
  /\ find_ticket 1 example_created = Some example_ticket
  /\ fst (create_ticket "Orphan" "No such category" 99 7 LOW example_created)
     = Raise "AttributeError"
  /\ map Ticket.subject
       (tickets (snd (create_ticket "Orphan" "No such category" 99 7 LOW
                        example_created)))
     = ["Printer down"; "Orphan"]
  /\ find_ticket 1
       (snd (create_ticket "Orphan" "No such category" 99 7 LOW
               example_created))
     = Some example_ticket.
Proof.
  assert (Hf : find_ticket 1 example_created = Some example_ticket)
    by reflexivity.
  split; [reflexivity|]. split; [reflexivity|].
  split; [exact Hf|]. split; [reflexivity|]. split; [reflexivity|].
  exact (proj1 (proj2 (proj2 (proj2
           (create_ticket_outcomes "Orphan" "No such category" 99 7 LOW
              example_created eq_refl eq_refl)))) 1 example_ticket Hf).
Defined.

(** ** What a vote leaves alone *)

Lemma commit_counters_untouched (t t' : Ticket.t) (w : World) :
  untouched_by_vote w (snd (commit_counters t t' w)).
Proof.
  unfold commit_counters. destruct (_ && _); repeat split.
Qed.

(** X25: a vote concerns one ticket and one user. In every store, voting
    creates no notification and no mail and leaves users, categories,
    comments and attachments alone, and every ticket with another id is
    stored unchanged; where the ids of the vote rows are unique (as in
    every reachable state), so is every vote of another (ticket, user)
    pair. *)
Theorem vote_ticket_frame (ticket_id user_id : Z) (is_upvote : bool)
  (w : World) :
  let w' := snd (vote_ticket ticket_id user_id is_upvote w) in
  untouched_by_vote w w'
  /\ (forall t, In t (tickets w) -> Ticket.id t <> ticket_id ->
        In t (tickets w'))
  /\ (NoDup (map TicketVote.id (ticket_votes w)) ->
      forall v, In v (ticket_votes w) ->
                vote_key v <> (ticket_id, user_id) -> In v (ticket_votes w')).
Proof.
  cbv zeta.
  destruct (find_ticket ticket_id w) as [t|] eqn:Hf;
    [|rewrite (vote_ticket_absent _ _ _ _ Hf); repeat split; auto].
  destruct (find_ticket_id _ _ _ Hf) as [Htid _].
  assert (Hkeep : forall t' w0 x,
            tickets w0 = tickets w ->
            In x (tickets w) -> Ticket.id x <> ticket_id ->
            In x (tickets (snd (commit_counters t t' w0)))).
  { intros t' w0 x H0 Hx Hne. rewrite commit_counters_tickets, H0.
    unfold update_where. apply in_map_iff. exists x. split; [|exact Hx].
    rewrite Htid. apply Z.eqb_neq in Hne. now rewrite Hne. }
  destruct (find_vote ticket_id user_id w) as [e|] eqn:Hv.
  - destruct (find_vote_some _ _ _ _ Hv) as (He & Het & Heu).
    assert (Hother : NoDup (map TicketVote.id (ticket_votes w)) ->
              forall v, In v (ticket_votes w) ->
              vote_key v <> (ticket_id, user_id) ->
              TicketVote.id v <> TicketVote.id e).
    { intros Hvids v Hin Hkey Hid. apply Hkey.
      rewrite (NoDup_key_eq TicketVote.id _ v e Hvids Hin He Hid).
      unfold vote_key. now rewrite Het, Heu. }
    destruct (Bool.eqb (TicketVote.is_upvote e) is_upvote) eqn:Hpol.
    + apply Bool.eqb_prop in Hpol.
      rewrite (vote_ticket_removed _ _ _ _ _ _ Hf Hv Hpol). cbn [snd].
      split; [exact (commit_counters_untouched t _ w)|]. split.
      * intros x Hx Hne. now apply Hkeep.
      * intros Hvids v Hin Hkey. cbn [ticket_votes set_ticket_votes].
        apply In_delete_where. split; [exact Hin | now apply Hother].
    + assert (Hneg : TicketVote.is_upvote e = negb is_upvote)
        by (revert Hpol; clear; destruct (TicketVote.is_upvote e), is_upvote;
            simpl; intros; congruence).
      rewrite (vote_ticket_changed _ _ _ _ _ _ Hf Hv Hneg). cbn [snd].
      split; [exact (commit_counters_untouched t _ (set_ticks _ w))|]. split.
      * intros x Hx Hne. now apply Hkeep.
      * intros Hvids v Hin Hkey. cbn [ticket_votes set_ticket_votes].
        unfold update_where. apply in_map_iff. exists v. split; [|exact Hin].
        pose proof (Hother Hvids v Hin Hkey) as Hne. apply Z.eqb_neq in Hne.
        now rewrite Hne.
  - rewrite (vote_ticket_added _ _ _ _ _ Hf Hv). cbn [snd].
    split; [exact (commit_counters_untouched t _ w)|]. split.
    + intros x Hx Hne. cbn [tickets set_ticket_votes set_ticks].
      now apply Hkeep.
    + intros _ v Hin _. cbn [ticket_votes set_ticket_votes].
      apply in_or_app. now left.
Qed.

Lemma vote_ticket_frame_example :
  ticket_attachments (snd (vote_ticket 1 8 true example_attached))
  = [example_attachment]
  /\ NoDup (map TicketVote.id (ticket_votes example_voted))
  /\ In example_vote (ticket_votes example_voted)
  /\ vote_key example_vote <> (1, 7)
  /\ In example_vote (ticket_votes (snd (vote_ticket 1 7 false example_voted))).
Proof.
  assert (Hnd : NoDup (map TicketVote.id (ticket_votes example_voted))).
  { change (NoDup [1]). repeat constructor. cbn [In]. tauto. }
  assert (Hin : In example_vote (ticket_votes example_voted)) by (now left).
  assert (Hkey : vote_key example_vote <> (1, 7)) by discriminate.
  split.
  - destruct (proj1 (vote_ticket_frame 1 8 true example_attached))
      as (_ & _ & _ & Ha & _).
    exact Ha.
  - split; [exact Hnd|]. split; [exact Hin|]. split; [exact Hkey|].
    exact (proj2 (proj2 (vote_ticket_frame 1 7 false example_voted))
             Hnd example_vote Hin Hkey).
Defined.


Lemma create_notification_mail_example :
  NoDup (map Notification.id (notifications example_run))
  /\ NoDup (map Notification.id
              (notifications
                 (snd (create_notification 8 "Maintenance" "Tonight at nine"
                         "info" None example_run))))
  /\ outbox (snd (create_notification 8 "Maintenance" "Tonight at nine"
                    "info" None example_run))
     = outbox example_run
       ++ [("other@quickdesk.com", "Maintenance", "Tonight at nine")].
Proof.
  assert (H : NoDup (map Notification.id (notifications example_run))).
  { change (NoDup [1; 2]). repeat constructor; simpl; intuition lia. }
  split; [exact H|].
  pose proof (create_notification_mail 8 "Maintenance" "Tonight at nine"
                "info" None example_run) as Hc.
  cbv zeta in Hc. destruct Hc as (_ & _ & _ & Hnd & _ & Hmail).
  split; [exact (Hnd H)|].
  change (user_by_id example_run 8)
    with (Some (User.mk 8 "other" "other@quickdesk.com" "Other User" END_USER
                        true (Some 0))) in Hmail.
  exact (proj2 Hmail).
Defined.

(** ** The vote algorithm, case by case *)

Lemma find_ticket_stored (w : World) (t : Ticket.t) :
  NoDup (map Ticket.id (tickets w)) -> In t (tickets w) ->
  find_ticket (Ticket.id t) w = Some t.
Proof.
  unfold find_ticket. induction (tickets w) as [|x rows IH]; cbn [map In find];
    [tauto|].
  intros Hnd Hin. destruct (Z.eqb_spec (Ticket.id x) (Ticket.id t)) as [E|E].
  - f_equal. apply (NoDup_key_eq Ticket.id (x :: rows)); cbn [map In]; auto.
  - apply NoDup_cons_iff in Hnd as [_ Hnd].
    destruct Hin as [-> | Hin]; [contradiction | now apply IH].
Qed.

Lemma find_ticket_missing (w : World) (ticket_id : Z) :
  ~ In ticket_id (map Ticket.id (tickets w)) -> find_ticket ticket_id w = None.
Proof.
  intros Hnot. unfold find_ticket. apply find_all_false. intros x Hx.
  apply Z.eqb_neq. intros <-. apply Hnot. now apply in_map.
Qed.

Lemma find_vote_stored (w : World) (e : TicketVote.t) :
  one_vote_per_pair w -> In e (ticket_votes w) ->
  find_vote (TicketVote.ticket_id e) (TicketVote.user_id e) w = Some e.
Proof.
  unfold find_vote, one_vote_per_pair.
  induction (ticket_votes w) as [|x rows IH]; cbn [map In find]; [tauto|].
  intros Hnd Hin. apply NoDup_cons_iff in Hnd as [Hnot Hnd].
  destruct ((TicketVote.ticket_id x =? TicketVote.ticket_id e)
            && (TicketVote.user_id x =? TicketVote.user_id e)) eqn:E.
  - destruct Hin as [-> | Hin]; [reflexivity|]. exfalso. apply Hnot.
    apply andb_true_iff in E as [E1 E2]. apply Z.eqb_eq in E1, E2.
    apply in_map_iff. exists e. split; [|exact Hin].
    unfold vote_key. now rewrite E1, E2.
  - destruct Hin as [-> | Hin]; [|now apply IH].
    now rewrite !Z.eqb_refl in E.
Qed.

Lemma find_vote_missing (w : World) (ticket_id user_id : Z) :
  (forall v, In v (ticket_votes w) -> vote_key v <> (ticket_id, user_id)) ->
  find_vote ticket_id user_id w = None.
Proof.
  intros Hnot. unfold find_vote. apply find_all_false. intros x Hx.
  apply andb_false_iff.
  destruct (Z.eqb_spec (TicketVote.ticket_id x) ticket_id) as [E1|E1];
    [|now left].
  destruct (Z.eqb_spec (TicketVote.user_id x) user_id) as [E2|E2];
    [|now right].
  exfalso. apply (Hnot x Hx). unfold vote_key. now rewrite E1, E2.
Qed.

Lemma reachable_well_keyed (w : World) : reachable w -> well_keyed w.
Proof.
  intros H. destruct (reachable_ledger_consistent w H)
    as (Ht & Hv & Hp & _).
  now repeat split.
Qed.

(** C2. In a store whose primary keys are unique and whose ledger holds one
    vote per pair (every reachable state is one), for ids the driver can
    bind: when no ticket of the table has the id, [vote_ticket] returns
    nothing and changes nothing. When a ticket has it, the call returns a
    result carrying the upvotes, downvotes and vote score of the ticket as
    it is stored afterwards, and the rows decide the branch. No row of the
    ledger for the pair: one row for (ticket, user, polarity) is appended,
    the matching counter grows by one, action "added". A row for the pair
    with the same polarity: exactly that row is deleted, the matching
    counter drops by one but not below 0, action "removed". A row with the
    opposite polarity: that row is rewritten in place with the new polarity
    (same id, ticket, user and creation time), the new counter grows by one
    and the old one drops by one but not below 0, action "changed". *)
Theorem vote_ticket_algorithm (ticket_id user_id : Z) (is_upvote : bool)
  (w : World) :
  well_keyed w -> int64 ticket_id = true -> int64 user_id = true ->
  (~ In ticket_id (map Ticket.id (tickets w)) ->
   vote_ticket ticket_id user_id is_upvote w = (None, w))
  /\ forall ticket,
       In ticket (tickets w) -> Ticket.id ticket = ticket_id ->
       exists r w' ticket',
         vote_ticket ticket_id user_id is_upvote w = (Some r, w')
         /\ In ticket' (tickets w')
         /\ Ticket.id ticket' = ticket_id
         /\ map Ticket.id (tickets w') = map Ticket.id (tickets w)
         /\ vr_upvotes r = Ticket.upvotes ticket'
         /\ vr_downvotes r = Ticket.downvotes ticket'
         /\ vr_vote_score r = Ticket.upvotes ticket' - Ticket.downvotes ticket'
         /\ ((forall v, In v (ticket_votes w) ->
                        vote_key v <> (ticket_id, user_id)) ->
             action r = "added"
             /\ (exists vote,
                    ticket_votes w' = ticket_votes w ++ [vote]
                    /\ TicketVote.ticket_id vote = ticket_id
                    /\ TicketVote.user_id vote = user_id
                    /\ TicketVote.is_upvote vote = is_upvote)
             /\ Ticket.upvotes ticket'
                = (if is_upvote then Ticket.upvotes ticket + 1
                   else Ticket.upvotes ticket)
             /\ Ticket.downvotes ticket'
                = (if is_upvote then Ticket.downvotes ticket
                   else Ticket.downvotes ticket + 1))
         /\ (forall existing,
               In existing (ticket_votes w) ->
               vote_key existing = (ticket_id, user_id) ->
               if Bool.eqb (TicketVote.is_upvote existing) is_upvote then
                 action r = "removed"
                 /\ (forall v, In v (ticket_votes w') <->
                               In v (ticket_votes w) /\ v <> existing)
                 /\ Ticket.upvotes ticket'
                    = (if is_upvote then Z.max 0 (Ticket.upvotes ticket - 1)
                       else Ticket.upvotes ticket)
                 /\ Ticket.downvotes ticket'
                    = (if is_upvote then Ticket.downvotes ticket
                       else Z.max 0 (Ticket.downvotes ticket - 1))
               else
                 action r = "changed"
                 /\ (exists flipped,
                        TicketVote.id flipped = TicketVote.id existing
                        /\ vote_key flipped = (ticket_id, user_id)
                        /\ TicketVote.is_upvote flipped = is_upvote
                        /\ TicketVote.created_at flipped
                           = TicketVote.created_at existing
                        /\ forall v, In v (ticket_votes w') <->
                                     v = flipped
                                     \/ (In v (ticket_votes w)
                                         /\ v <> existing))
                 /\ map TicketVote.id (ticket_votes w')
                    = map TicketVote.id (ticket_votes w)
                 /\ Ticket.upvotes ticket'
                    = (if is_upvote then Ticket.upvotes ticket + 1
                       else Z.max 0 (Ticket.upvotes ticket - 1))
                 /\ Ticket.downvotes ticket'
                    = (if is_upvote then Z.max 0 (Ticket.downvotes ticket - 1)
                       else Ticket.downvotes ticket + 1)).
Proof.
  intros (Htids & Hvids & Hpairs) _ _. split.
  { intros Hnot. apply vote_ticket_absent. now apply find_ticket_missing. }
  intros ticket Hin Hid.
  assert (Ht : find_ticket ticket_id w = Some ticket)
    by (rewrite <- Hid; now apply find_ticket_stored).
  assert (Hsame : forall e v,
            In e (ticket_votes w) -> In v (ticket_votes w) ->
            (TicketVote.id v = TicketVote.id e <-> v = e)).
  { intros e v He Hv. split; [|now intros ->].
    now apply (NoDup_key_eq TicketVote.id (ticket_votes w)). }
  assert (Hrow : forall t' w0,
            tickets w0 = tickets w ->
            exists row,
              In row (tickets (snd (commit_counters ticket t' w0)))
              /\ Ticket.id row = ticket_id
              /\ map Ticket.id (tickets (snd (commit_counters ticket t' w0)))
                 = map Ticket.id (tickets w)
              /\ Ticket.upvotes row = Ticket.upvotes t'
              /\ Ticket.downvotes row = Ticket.downvotes t').
  { intros t' w0 H0.
    destruct (commit_counters_find ticket t' w0) as (row & Hrow & Hu & Hd).
    { rewrite Hid. unfold find_ticket in *. now rewrite H0. }
    rewrite Hid in Hrow. destruct (find_ticket_id _ _ _ Hrow) as [Hrid Hrin].
    exists row. split; [exact Hrin|]. split; [exact Hrid|].
    split; [|now split].
    rewrite commit_counters_tickets, H0. apply map_update_where.
    intros r0. unfold counters_write. now destruct (_ && _). }
  destruct (find_vote ticket_id user_id w) as [found|] eqn:Hv.
  - destruct (find_vote_some _ _ _ _ Hv) as (Hfin & Hft & Hfu).
    assert (Hthe : forall existing,
              In existing (ticket_votes w) ->
              vote_key existing = (ticket_id, user_id) -> existing = found).
    { intros existing He Hk. unfold vote_key in Hk. injection Hk as Hk1 Hk2.
      pose proof (find_vote_stored w existing Hpairs He) as Hs.
      rewrite Hk1, Hk2, Hv in Hs. now injection Hs. }
    destruct (Bool.eqb (TicketVote.is_upvote found) is_upvote) eqn:Hpol.
    + pose proof (Bool.eqb_prop _ _ Hpol) as Hpol'.
      rewrite (vote_ticket_removed _ _ _ _ _ _ Ht Hv Hpol').
      destruct (Hrow (removed_counters is_upvote ticket) w eq_refl)
        as (row & Hrin & Hrid & Hids & Hu & Hd).
      eexists _, _, row. split; [reflexivity|].
      cbn [tickets set_ticket_votes ticket_votes].
      split; [exact Hrin|]. split; [exact Hrid|]. split; [exact Hids|].
      unfold vote_result, Ticket.vote_score.
      cbn [vr_upvotes vr_downvotes vr_vote_score action]. rewrite Hu, Hd.
      split; [reflexivity|]. split; [reflexivity|]. split; [reflexivity|].
      split.
      { intros Hnone. exfalso. apply (Hnone found Hfin).
        unfold vote_key. now rewrite Hft, Hfu. }
      intros existing He Hk. rewrite (Hthe existing He Hk), Hpol.
      split; [reflexivity|]. split.
      * intros v. rewrite In_delete_where. split.
        -- intros [Hvin Hne]. split; [exact Hvin|]. now intros ->.
        -- intros [Hvin Hne]. split; [exact Hvin|].
           intros Heq. apply Hne. now apply (Hsame found v).
      * unfold removed_counters. now destruct is_upvote.
    + assert (Hneg : TicketVote.is_upvote found = negb is_upvote)
        by (apply Bool.eqb_false_iff in Hpol; revert Hpol; clear;
            destruct (TicketVote.is_upvote found), is_upvote;
            simpl; intros; congruence).
      rewrite (vote_ticket_changed _ _ _ _ _ _ Ht Hv Hneg).
      destruct (Hrow (changed_counters is_upvote ticket)
                  (set_ticks (S (ticks w)) w) eq_refl)
        as (row & Hrin & Hrid & Hids & Hu & Hd).
      eexists _, _, row. split; [reflexivity|].
      cbn [tickets set_ticket_votes ticket_votes].
      split; [exact Hrin|]. split; [exact Hrid|]. split; [exact Hids|].
      unfold vote_result, Ticket.vote_score.
      cbn [vr_upvotes vr_downvotes vr_vote_score action]. rewrite Hu, Hd.
      split; [reflexivity|]. split; [reflexivity|]. split; [reflexivity|].
      split.
      { intros Hnone. exfalso. apply (Hnone found Hfin).
        unfold vote_key. now rewrite Hft, Hfu. }
      intros existing He Hk. rewrite (Hthe existing He Hk), Hpol.
      split; [reflexivity|]. split; [|split].
      * exists (flip_vote (clock w (ticks w)) is_upvote found).
        split; [reflexivity|].
        split; [unfold vote_key; cbn; now rewrite Hft, Hfu|].
        split; [reflexivity|]. split; [reflexivity|].
        intros v. split.
        -- intros Hvin. apply In_update_where in Hvin as (r0 & Hr0 & ->).
           destruct (Z.eqb_spec (TicketVote.id r0) (TicketVote.id found))
             as [E|E].
           ++ left. now rewrite (proj1 (Hsame found r0 Hfin Hr0) E).
           ++ right. split; [exact Hr0|]. now intros ->.
        -- intros [-> | [Hvin Hne]]; unfold update_where; apply in_map_iff.
           ++ exists found. now rewrite Z.eqb_refl.
           ++ exists v. split; [|exact Hvin].
              destruct (Z.eqb_spec (TicketVote.id v) (TicketVote.id found))
                as [E|E]; [|reflexivity].
              exfalso. apply Hne. now apply (Hsame found v).
      * now apply map_update_where.
      * unfold changed_counters. now destruct is_upvote.
  - rewrite (vote_ticket_added _ _ _ _ _ Ht Hv).
    destruct (Hrow (added_counters is_upvote ticket) w eq_refl)
      as (row & Hrin & Hrid & Hids & Hu & Hd).
    eexists _, _, row. split; [reflexivity|].
    cbn [tickets set_ticket_votes set_ticks ticket_votes].
    split; [exact Hrin|]. split; [exact Hrid|]. split; [exact Hids|].
    unfold vote_result, Ticket.vote_score.
    cbn [vr_upvotes vr_downvotes vr_vote_score action]. rewrite Hu, Hd.
    split; [reflexivity|]. split; [reflexivity|]. split; [reflexivity|].
    split.
    + intros _. split; [reflexivity|]. split.
      * eexists. split; [reflexivity|]. repeat split.
      * unfold added_counters. now destruct is_upvote.
    + intros existing He Hk. exfalso.
      apply (find_vote_none _ _ _ Hv). rewrite <- Hk. now apply in_map.
Qed.

Lemma vote_ticket_algorithm_example :
  well_keyed example_voted
  /\ In example_voted_ticket (tickets example_voted)
  /\ In example_vote (ticket_votes example_voted)
  /\ (exists r w',
        vote_ticket 1 8 true example_voted = (Some r, w')
        /\ action r = "removed"
        /\ vr_upvotes r = 0
        /\ forall v, In v (ticket_votes w') <->
                     In v (ticket_votes example_voted) /\ v <> example_vote)
  /\ (exists r w' flipped,
        vote_ticket 1 8 false example_voted = (Some r, w')
        /\ action r = "changed"
        /\ vr_upvotes r = 0 /\ vr_downvotes r = 1
        /\ TicketVote.is_upvote flipped = false
        /\ forall v, In v (ticket_votes w') <->
                     v = flipped
                     \/ (In v (ticket_votes example_voted)
                         /\ v <> example_vote))
  /\ vote_ticket 5 8 true example_voted = (None, example_voted).
Proof.
  assert (Hwk : well_keyed example_voted).
  { unfold well_keyed, one_vote_per_pair.
    change (NoDup [1] /\ NoDup [1] /\ NoDup [(1, 8)]).
    repeat split; repeat constructor; cbn [In]; tauto. }
  assert (Ht : In example_voted_ticket (tickets example_voted))
    by (now left).
  assert (He : In example_vote (ticket_votes example_voted)) by (now left).
  split; [exact Hwk|]. split; [exact Ht|]. split; [exact He|].
  split; [|split].
  - destruct (proj2 (vote_ticket_algorithm 1 8 true example_voted Hwk
                       eq_refl eq_refl) example_voted_ticket Ht eq_refl)
      as (r & w' & t' & Hcall & _ & _ & _ & Hu & _ & _ & _ & Hex).
    destruct (Hex example_vote He eq_refl) as (Hact & Hrows & Hup & _).
    exists r, w'. split; [exact Hcall|]. split; [exact Hact|].
    split; [now rewrite Hu, Hup | exact Hrows].
  - destruct (proj2 (vote_ticket_algorithm 1 8 false example_voted Hwk
                       eq_refl eq_refl) example_voted_ticket Ht eq_refl)
      as (r & w' & t' & Hcall & _ & _ & _ & Hu & Hd & _ & _ & Hex).
    destruct (Hex example_vote He eq_refl)
      as (Hact & (flipped & _ & _ & Hpol & _ & Hrows) & _ & Hup & Hdown).
    exists r, w', flipped. split; [exact Hcall|]. split; [exact Hact|].
    split; [now rewrite Hu, Hup|]. split; [now rewrite Hd, Hdown|].
    split; [exact Hpol | exact Hrows].
  - apply (proj1 (vote_ticket_algorithm 5 8 true example_voted Hwk
                    eq_refl eq_refl)).
    cbn [map In]. change (~ (1 = 5 \/ False)). intros [H|[]]. discriminate.
Defined.

(** ** The count of a listing against the specification's set *)









(** ** Requests about a ticket that is not stored *)

(** X7: a request about a ticket id that no stored ticket has, and that the
    driver can bind (a 64-bit integer), is answered 404 by the fetch,
    assignment, comment and vote endpoints, and none of them changes
    anything. *)
Theorem missing_ticket_changes_nothing (cu : CurrentUser) (ticket_id : Z)
  (w : World) :
  ~ In ticket_id (map Ticket.id (tickets w)) ->
  int64 ticket_id = true ->
  api_get_ticket cu ticket_id w
  = (ErrorBody "Ticket not found or access denied", 404, w)
  /\ (forall a, is_staff cu = true ->
        api_assign_ticket cu ticket_id a w
        = (ErrorBody "Ticket not found", 404, w))
  /\ (forall data, truthy_opt_str (d_content data) = true ->
        api_add_comment cu ticket_id data w
        = (ErrorBody "Ticket not found or access denied", 404, w))
  /\ (forall up,
        api_vote_ticket cu ticket_id (Some up) w
        = (ErrorBody "Ticket not found", 404, w)).
Proof.
  intros Hnot _. pose proof (find_ticket_missing w ticket_id Hnot) as Hf.
  assert (Hget : forall uid role, get_ticket_by_id ticket_id uid role w = None)
    by (intros; unfold get_ticket_by_id; now rewrite Hf).
  split; [|split; [|split]].
  - unfold api_get_ticket, require_auth. rewrite bind_eq. unfold get.
    cbn [fst snd]. now rewrite Hget.
  - intros a Hstaff. unfold api_assign_ticket.
    rewrite require_auth_staff, Hstaff, bind_eq.
    now rewrite (assign_ticket_absent _ _ _ Hf).
  - intros data Hc. unfold api_add_comment, require_auth. rewrite Hc.
    cbn [negb]. rewrite bind_eq. unfold get. cbn [fst snd]. now rewrite Hget.
  - intros up. unfold api_vote_ticket, require_auth. rewrite bind_eq.
    now rewrite (vote_ticket_absent _ _ _ _ Hf).
Qed.

Lemma missing_ticket_changes_nothing_example :
  ~ In 5 (map Ticket.id (tickets example_created))
  /\ int64 5 = true
  /\ api_get_ticket example_agent 5 example_created
     = (ErrorBody "Ticket not found or access denied", 404, example_created)
  /\ api_vote_ticket example_end_user 5 (Some true) example_created
     = (ErrorBody "Ticket not found", 404, example_created).
Proof.
  assert (Hnot : ~ In 5 (map Ticket.id (tickets example_created))).
  { change (~ (1 = 5 \/ False)). intros [H|[]]. discriminate. }
  split; [exact Hnot|]. split; [reflexivity|]. split.
  - exact (proj1 (missing_ticket_changes_nothing example_agent 5
                    example_created Hnot eq_refl)).
  - exact (proj2 (proj2 (proj2
             (missing_ticket_changes_nothing example_end_user 5
                example_created Hnot eq_refl))) true).
Defined.

(** ** Listings ordered by a column *)




